(** * Blackjack simulator: a shallow embedding of the game engine

    The development follows the JavaScript sources of the simulator:
    - [Deck], [CardCounter]          (shoe and running count),
    - [BlackjackGame]                (hand valuation, dealer and player play),
    - [Strategy]                     (string keyed action tables),
    - [Simulator]                    (aggregation, row testing, situation analysis).

    Conventions of the embedding.
    - JavaScript numbers that stay integral (card values, totals, counts, bet
      multipliers) are [Z]; numbers that may be fractional (penetration,
      money, true count) are [Q], evaluated exactly.  [NaN] is kept apart as
      [None] where [parseInt] produces it.
    - JavaScript strings are [string]; plain objects used as dictionaries are
      [gmap string _].
    - Mutable objects ([Deck], [CardCounter]) are threaded as explicit state;
      [Math.random] is an arbitrary sequence of naturals.
    - A [TypeError] raised by reading a property of [undefined] and an
      exhausted loop budget are distinct outcomes of the monad [M].
    - A dictionary holds own properties only.  The members every JavaScript
      object inherits from [Object.prototype] ([constructor], [toString],
      [__proto__], ...) are outside the model: where a statement depends on
      the value a table holds for a dealer key, the key is taken among the
      ten card labels, for which the sources and the model agree. *)

From Stdlib Require Import ZArith QArith Qround Lia Lqa Ascii String.
From stdpp Require Import base strings list gmap pretty.

Local Open Scope string_scope.
Local Open Scope list_scope.
Local Open Scope Z_scope.

(** ** JavaScript string primitives used by the sources *)

Module JS.

(** [ToString] of an integral number, and of [NaN]. *)
Definition toString (z : Z) : string := pretty z.

Definition numToString (n : option Z) : string :=
  match n with
  | Some z => toString z
  | None => "NaN"
  end.

(** [s.startsWith(p)] *)
Definition startsWith (p s : string) : bool := String.prefix p s.

(** [s.includes(c)] for a one character needle. *)
Fixpoint includes (c : ascii) (s : string) : bool :=
  match s with
  | EmptyString => false
  | String a r => if Ascii.eqb a c then true else includes c r
  end.

(** [s.substring(1)] *)
Definition substring1 (s : string) : string :=
  match s with
  | EmptyString => EmptyString
  | String _ r => r
  end.

(** [s.split(c)] for a one character separator: never the empty list. *)
Fixpoint split (c : ascii) (s : string) : list string :=
  match s with
  | EmptyString => [EmptyString]
  | String a r =>
      if Ascii.eqb a c then EmptyString :: split c r
      else match split c r with
           | [] => [String a EmptyString]
           | w :: ws => String a w :: ws
           end
  end.

(** White space recognised by [trim] and [parseInt] (seven bit part). *)
Definition isSpace (a : ascii) : bool :=
  let n := nat_of_ascii a in
  (Nat.eqb n 32 || Nat.eqb n 9 || Nat.eqb n 10 || Nat.eqb n 11
   || Nat.eqb n 12 || Nat.eqb n 13)%bool.

Fixpoint trimStart (s : string) : string :=
  match s with
  | EmptyString => EmptyString
  | String a r => if isSpace a then trimStart r else s
  end.

(** Drops trailing white space: a character is kept when something
    non-blank follows it or it is non-blank itself. *)
Fixpoint trimEnd (s : string) : string :=
  match s with
  | EmptyString => EmptyString
  | String a r =>
      match trimEnd r with
      | EmptyString => if isSpace a then EmptyString else String a EmptyString
      | r' => String a r'
      end
  end.

Definition trim (s : string) : string := trimEnd (trimStart s).

Definition upperChar (a : ascii) : ascii :=
  let n := nat_of_ascii a in
  if (Nat.leb 97 n && Nat.leb n 122)%bool then ascii_of_nat (n - 32) else a.

Fixpoint toUpperCase (s : string) : string :=
  match s with
  | EmptyString => EmptyString
  | String a r => String (upperChar a) (toUpperCase r)
  end.

(** Value of a digit in the given radix (10 or 16). *)
Definition digitValue (radix : Z) (a : ascii) : option Z :=
  let n := Z.of_nat (nat_of_ascii a) in
  let v :=
    if (48 <=? n) && (n <=? 57) then Some (n - 48)
    else if (97 <=? n) && (n <=? 102) then Some (n - 87)
    else if (65 <=? n) && (n <=? 70) then Some (n - 55)
    else None in
  match v with
  | Some d => if d <? radix then Some d else None
  | None => None
  end.

(** Longest prefix of digits, accumulated left to right; [None] when the
    prefix is empty. *)
Fixpoint digits (radix : Z) (acc : option Z) (s : string) : option Z :=
  match s with
  | EmptyString => acc
  | String a r =>
      match digitValue radix a with
      | Some d => digits radix (Some (radix * default 0 acc + d)) r
      | None => acc
      end
  end.

Definition stripSign (s : string) : Z * string :=
  match s with
  | String "-" r => (-1, r)
  | String "+" r => (1, r)
  | _ => (1, s)
  end.

(** [parseInt(s)] without a radix argument: leading white space, a sign,
    an optional [0x] prefix, then digits.  [None] is [NaN]. *)
Definition parseInt (s : string) : option Z :=
  let '(sign, body) := stripSign (trimStart s) in
  let r :=
    match body with
    | String "0" (String "x" h) | String "0" (String "X" h) => digits 16 None h
    | _ => digits 10 None body
    end in
  match r with
  | Some z => Some (sign * z)
  | None => None
  end.

End JS.

(** ** Cards *)

Inductive Suit := Spades | Hearts | Diamonds | Clubs.

Record Card := { rank : string; suit : Suit; value : Z }.

(** The [suits] and [ranks] arrays of [Deck.shuffle]. *)
Definition suits : list Suit := [Spades; Hearts; Diamonds; Clubs].

Definition ranks : list string :=
  ["A"; "2"; "3"; "4"; "5"; "6"; "7"; "8"; "9"; "10"; "J"; "Q"; "K"].

(** [Deck.getCardValue]; [None] is the [NaN] of [parseInt]. *)
Definition getCardValue (r : string) : option Z :=
  if String.eqb r "A" then Some 11
  else if existsb (String.eqb r) ["J"; "Q"; "K"] then Some 10
  else JS.parseInt r.

(** A card as [Deck.shuffle] builds it.  [getCardValue] is a number on each
      of the thirteen ranks, see [getCardValue_ranks]. *)
Definition mkCard (r : string) (s : Suit) : Card :=
  {| rank := r; suit := s; value := default 0 (getCardValue r) |}.

(** Cards of the data model: one of the thirteen ranks with its blackjack
    value. *)
Definition card_wf (c : Card) : Prop :=
  rank c ∈ ranks ∧ getCardValue (rank c) = Some (value c).

(** ** Math.random *)

(** The pseudo random source: an arbitrary sequence of naturals and a
    cursor.  [Math.floor(Math.random() * n)] is some number below [n]. *)
Record Rng := { draws : nat -> nat; cursor : nat }.

Definition randomBelow (g : Rng) (n : nat) : nat * Rng :=
  ((draws g (cursor g) mod n)%nat, {| draws := draws g; cursor := S (cursor g) |}).

(** ** CardCounter *)

Module CardCounter.

Record t := {
  countingSystem : string;
  runningCount : Z;
  cardValues : gmap string Z
}.

Definition weights (l : list Z) : gmap string Z :=
  list_to_map (zip ["2"; "3"; "4"; "5"; "6"; "7"; "8"; "9"; "10"; "J"; "Q"; "K"; "A"] l).

(** The [systems] table of [getCardValues]; the [description] and
    [balanced] entries are never read through a rank. *)
Definition systems : gmap string (gmap string Z) :=
  list_to_map
    [ ("Hi-Lo",         weights [1; 1; 1; 1; 1; 0; 0; 0; -1; -1; -1; -1; -1]);
      ("Hi-Opt I",      weights [0; 1; 1; 1; 1; 0; 0; 0; -1; -1; -1; -1; 0]);
      ("Hi-Opt II",     weights [1; 1; 2; 2; 1; 1; 0; 0; -2; -2; -2; -2; 0]);
      ("Omega II",      weights [1; 1; 2; 2; 2; 1; 0; -1; -2; -2; -2; -2; 0]);
      ("KO (Knockout)", weights [1; 1; 1; 1; 1; 1; 0; 0; -1; -1; -1; -1; -1]);
      ("Ace-Five",      weights [0; 0; 0; 1; 0; 0; 0; 0; 0; 0; 0; 0; -1]) ].

Definition getCardValues (system : string) (customValues : option (gmap string Z))
  : gmap string Z :=
  let named :=
    match systems !! system with
    | Some w => w
    | None => default ∅ (systems !! "Hi-Lo")
    end in
  match customValues with
  | Some cv => if String.eqb system "Custom" then cv else named
  | None => named
  end.

Definition new (system : string) : t :=
  {| countingSystem := system; runningCount := 0;
     cardValues := getCardValues system None |}.

(** [updateCount]: [cardValues[card.rank] || 0] is added. *)
Definition updateCount (c : t) (card : Card) : t :=
  {| countingSystem := countingSystem c;
     runningCount := runningCount c + default 0 (cardValues c !! rank card);
     cardValues := cardValues c |}.

Definition reset (c : t) : t :=
  {| countingSystem := countingSystem c; runningCount := 0;
     cardValues := cardValues c |}.

(** [getTrueCount(remainingCards, numDecks)]; the second parameter is not
    read. *)
Definition getTrueCount (c : t) (remainingCards numDecks : nat) : Q :=
  let remainingDecks := (inject_Z (Z.of_nat remainingCards) / 52)%Q in
  if Qle_bool remainingDecks 0 then 0%Q
  else (inject_Z (runningCount c) / remainingDecks)%Q.

(** [Math.round]: the nearest integer, halves upwards. *)
Definition round (x : Q) : Z := Qfloor (x + (1 # 2))%Q.

Definition getCountRange (c : t) (remainingCards numDecks : nat) : Z :=
  round (getTrueCount c remainingCards numDecks).

Definition getRunningCount (c : t) : Z := runningCount c.

(** [getCountLevel(remainingCards, numDecks)] *)
Definition getCountLevel (c : t) (remainingCards numDecks : nat) : string :=
  let trueCount := getTrueCount c remainingCards numDecks in
  if Qle_bool 4 trueCount then "veryHigh"
  else if Qle_bool 2 trueCount then "high"
  else if Qle_bool (1 # 2) trueCount then "slightlyPositive"
  else if Qle_bool (- (1 # 2)) trueCount then "neutral"
  else if Qle_bool (- 2) trueCount then "low"
  else "veryLow".

End CardCounter.

(** ** Deck *)

Module Deck.

Record t := {
  numDecks : nat;
  cards : list Card;
  usedCards : list Card;
  penetration : Q;
  penetrationThreshold : Q
}.

(** The three nested loops of [shuffle]: decks, then suits, then ranks. *)
Definition oneDeck : list Card :=
  s ← suits; r ← ranks; [mkCard r s].

Definition freshCards (n : nat) : list Card := mjoin (replicate n oneDeck).

(** [[a[i], a[j]] = [a[j], a[i]]] *)
Definition swap (l : list Card) (i j : nat) : list Card :=
  match l !! i, l !! j with
  | Some x, Some y => <[j:=x]> (<[i:=y]> l)
  | _, _ => l
  end.

(** Fisher-Yates, [i] running from [length - 1] down to 1. *)
Fixpoint fisherYates (i : nat) (l : list Card) (g : Rng) : list Card * Rng :=
  match i with
  | O => (l, g)
  | S i' =>
      let '(j, g') := randomBelow g (S i) in
      fisherYates i' (swap l i j) g'
  end.

(** [shuffle(counter)]: the counter, when one is passed, is reset. *)
Definition shuffle (d : t) (counter : option CardCounter.t) (g : Rng)
  : t * option CardCounter.t * Rng :=
  let fresh := freshCards (numDecks d) in
  let '(shuffled, g') := fisherYates (length fresh - 1) fresh g in
  ({| numDecks := numDecks d; cards := shuffled; usedCards := [];
      penetration := 0%Q; penetrationThreshold := penetrationThreshold d |},
   CardCounter.reset <$> counter, g').

(** [new Deck(numDecks)] *)
Definition new (n : nat) (g : Rng) : t * Rng :=
  let '(d, _, g') :=
    shuffle {| numDecks := n; cards := []; usedCards := [];
               penetration := 0%Q; penetrationThreshold := 75%Q |} None g in
  (d, g').

(** [cards.pop()]: the last card and the remaining ones. *)
Definition pop (l : list Card) : option (Card * list Card) :=
  match reverse l with
  | [] => None
  | c :: r => Some (c, reverse r)
  end.

(** [dealCard(counter)].  [None] when the shoe is empty even after the
    reshuffle (no decks): JavaScript then hands out [undefined], and the
    first read of its rank raises. *)
Definition dealCard (d : t) (counter : option CardCounter.t) (g : Rng)
  : option (Card * t * option CardCounter.t * Rng) :=
  let '(d1, c1, g1) :=
    if (length (cards d) =? 0)%nat then shuffle d counter g else (d, counter, g) in
  match pop (cards d1) with
  | None => None
  | Some (card, rest) =>
      let used := usedCards d1 ++ [card] in
      let c2 := (λ c, CardCounter.updateCount c card) <$> c1 in
      let totalCards := (numDecks d1 * 52)%nat in
      let usedCount := length used in
      Some (card,
            {| numDecks := numDecks d1; cards := rest; usedCards := used;
               penetration :=
                 ((inject_Z (Z.of_nat usedCount) / inject_Z (Z.of_nat totalCards)) * 100)%Q;
               penetrationThreshold := penetrationThreshold d1 |},
            c2, g1)
  end.

(** [penetration >= penetrationThreshold && cards.length < 52] *)
Definition shouldReshuffle (d : t) : bool :=
  Qle_bool (penetrationThreshold d) (penetration d) && (length (cards d) <? 52)%nat.

Definition setPenetration (d : t) (percentage : Q) : t :=
  {| numDecks := numDecks d; cards := cards d; usedCards := usedCards d;
     penetration := penetration d; penetrationThreshold := percentage |}.

Definition getRemainingCards (d : t) : nat := length (cards d).

End Deck.

(** ** Strategy *)

Module Strategy.

(** [table[key][dealer]]: an object of objects of action letters. *)
Abbreviation Table := (gmap string (gmap string string)).
Abbreviation CountTable := (gmap string (gmap string (gmap string string))).

Record t := {
  hard : Table;
  soft : Table;
  pairs : Table;
  countBased : bool;
  hardByCount : CountTable;
  softByCount : CountTable;
  pairsByCount : CountTable
}.

(** Dealer labels in column order: [j === 11 ? 'A' : j.toString()]. *)
Definition dealerLabel (j : Z) : string :=
  if j =? 11 then "A" else JS.toString j.

Definition dealerLabels : list string := dealerLabel <$> seqZ 2 10.

(** [tbl[i] = {}] followed by [tbl[i][dealer] = action] for every dealer. *)
Definition fillRows (lo n : Z) (action : string) (tbl : Table) : Table :=
  foldl (λ acc i,
           <[JS.toString i :=
               foldl (λ row d, <[d := action]> row) ∅ dealerLabels]> acc)
        tbl (seqZ lo n).

(** [initializeEmpty] writes into the tables the object already holds. *)
Definition initializeEmpty (s : t) : t :=
  {| hard := fillRows 5 17 "S" (hard s);
     soft := fillRows 13 9 "S" (soft s);
     pairs := fillRows 2 10 "H" (pairs s);
     countBased := countBased s;
     hardByCount := hardByCount s;
     softByCount := softByCount s;
     pairsByCount := pairsByCount s |}.

(** The constructor. *)
Definition new : t :=
  initializeEmpty
    {| hard := ∅; soft := ∅; pairs := ∅; countBased := false;
       hardByCount := ∅; softByCount := ∅; pairsByCount := ∅ |}.

(** [dealerCard === 'A' || dealerCard === '11' ? 'A' : dealerCard] *)
Definition normDealer (dealerCard : string) : string :=
  if String.eqb dealerCard "A" || String.eqb dealerCard "11" then "A" else dealerCard.

(** A string is truthy when it is not empty. *)
Definition truthy (a : string) : bool := negb (String.eqb a "").

(** [tbl[key] && tbl[key][dealer]], the entry when it is truthy. *)
Definition entry (tbl : Table) (key dealer : string) : option string :=
  row ← tbl !! key; a ← row !! dealer; if truthy a then Some a else None.

(** [tbl[countKey] && tbl[countKey][key] && tbl[countKey][key][dealer]] *)
Definition countEntry (tbl : CountTable) (countKey key dealer : string) : option string :=
  sub ← tbl !! countKey; entry sub key dealer.

(** [if (action === 'D' && !canDouble) return 'H'; return action;] *)
Definition downgrade (canDouble : bool) (action : string) : string :=
  if String.eqb action "D" && negb canDouble then "H" else action.

(** [cards[0] === cards[1]] on the pieces of [playerTotal.split(',')]. *)
Definition samePieces (cards : list string) : option string :=
  match cards with
  | c0 :: c1 :: _ => if String.eqb c0 c1 then Some c0 else None
  | _ => None
  end.

(** The pair value as [getAction] reads it: faces count 10. *)
Definition pairValue (c0 : string) : option Z :=
  if String.eqb c0 "A" then Some 11
  else if existsb (String.eqb c0) ["J"; "Q"; "K"] then Some 10
  else JS.parseInt c0.

(** The pair value as [setAction] and [setCountAction] read it. *)
Definition pairValueSet (c0 : string) : option Z :=
  if String.eqb c0 "A" then Some 11 else JS.parseInt c0.

Definition inRange (lo hi : Z) (n : option Z) : bool :=
  match n with
  | Some z => (lo <=? z) && (z <=? hi)
  | None => false
  end.

Definition isNaN (n : option Z) : bool :=
  match n with Some _ => false | None => true end.

Definition ltNum (n : option Z) (k : Z) : bool :=
  match n with Some z => z <? k | None => false end.

(** The count specific layer of [getAction]. *)
Definition countLookup (s : t) (playerTotal dealer : string) (canSplit : bool)
           (countKey : string) : option string :=
  let pairHit :=
    if canSplit && JS.includes "," playerTotal then
      c0 ← samePieces (JS.split "," playerTotal);
      countEntry (pairsByCount s) countKey (JS.numToString (pairValue c0)) dealer
    else None in
  match pairHit with
  | Some a => Some a
  | None =>
      if JS.startsWith "S" playerTotal then
        let total := JS.parseInt (JS.substring1 playerTotal) in
        countEntry (softByCount s) countKey (JS.numToString total) dealer
      else
        let total := JS.parseInt playerTotal in
        if negb (isNaN total) then
          countEntry (hardByCount s) countKey (JS.numToString total) dealer
        else None
  end.

(** The base layer of [getAction] with its built-in defaults. *)
Definition baseLookup (s : t) (playerTotal dealer : string) (canDouble canSplit : bool)
  : string :=
  let pairHit :=
    if canSplit && JS.includes "," playerTotal then
      c0 ← samePieces (JS.split "," playerTotal);
      let v := pairValue c0 in
      if inRange 2 11 v then entry (pairs s) (JS.numToString v) dealer else None
    else None in
  let softHit :=
    if JS.startsWith "S" playerTotal then
      let total := JS.parseInt (JS.substring1 playerTotal) in
      if inRange 13 21 total then entry (soft s) (JS.numToString total) dealer else None
    else None in
  match pairHit with
  | Some a => downgrade canDouble a
  | None =>
  match softHit with
  | Some a => downgrade canDouble a
  | None =>
      let hardPart :=
        if negb (JS.startsWith "S" playerTotal) && negb (JS.includes "," playerTotal) then
          let total := JS.parseInt playerTotal in
          let hit :=
            if inRange 5 21 total then entry (hard s) (JS.numToString total) dealer
            else None in
          match hit with
          | Some a => Some (downgrade canDouble a)
          | None =>
              if negb (isNaN total) then Some (if ltNum total 17 then "H" else "S")
              else None
          end
        else None in
      match hardPart with
      | Some a => a
      | None =>
          if JS.startsWith "S" playerTotal then
            let total := JS.parseInt (JS.substring1 playerTotal) in
            if negb (isNaN total) && ltNum total 19 then "H" else "S"
          else "S"
      end
  end
  end.

Definition getAction (s : t) (playerTotal dealerCard : string)
           (canDouble canSplit : bool) (count : Z) : string :=
  let dealer := normDealer dealerCard in
  let counted :=
    if countBased s && negb (count =? 0) then
      countLookup s playerTotal dealer canSplit (JS.toString count)
    else None in
  match counted with
  | Some a => downgrade canDouble a
  | None => baseLookup s playerTotal dealer canDouble canSplit
  end.

(** [tbl[key][dealer] = action]; reading a missing row raises. *)
Definition setCell (tbl : Table) (key dealer action : string) : option Table :=
  row ← tbl !! key; Some (<[key := <[dealer := action]> row]> tbl).

(** [setAction]; [None] is the [TypeError] of a missing row. *)
Definition setAction (s : t) (playerTotal dealerCard action : string) : option t :=
  let dealer := normDealer dealerCard in
  if JS.startsWith "S" playerTotal then
    let total := JS.parseInt (JS.substring1 playerTotal) in
    if inRange 13 21 total then
      tbl ← setCell (soft s) (JS.numToString total) dealer action;
      Some {| hard := hard s; soft := tbl; pairs := pairs s; countBased := countBased s;
              hardByCount := hardByCount s; softByCount := softByCount s;
              pairsByCount := pairsByCount s |}
    else Some s
  else if JS.includes "," playerTotal then
    match samePieces (JS.split "," playerTotal) with
    | Some c0 =>
        let v := pairValueSet c0 in
        if inRange 2 11 v then
          tbl ← setCell (pairs s) (JS.numToString v) dealer action;
          Some {| hard := hard s; soft := soft s; pairs := tbl; countBased := countBased s;
                  hardByCount := hardByCount s; softByCount := softByCount s;
                  pairsByCount := pairsByCount s |}
        else Some s
    | None => Some s
    end
  else
    let total := JS.parseInt playerTotal in
    if inRange 5 21 total then
      tbl ← setCell (hard s) (JS.numToString total) dealer action;
      Some {| hard := tbl; soft := soft s; pairs := pairs s; countBased := countBased s;
              hardByCount := hardByCount s; softByCount := softByCount s;
              pairsByCount := pairsByCount s |}
    else Some s.

(** The three guarded assignments of [setCountAction]: missing levels are
    created on the way. *)
Definition setCountCell (tbl : CountTable) (countKey key dealer action : string)
  : CountTable :=
  let sub := default ∅ (tbl !! countKey) in
  let row := default ∅ (sub !! key) in
  <[countKey := <[key := <[dealer := action]> row]> sub]> tbl.

Definition setCountAction (s : t) (count : Z) (playerTotal dealerCard action : string) : t :=
  let countKey := JS.toString count in
  let dealer := normDealer dealerCard in
  if JS.startsWith "S" playerTotal then
    let total := JS.parseInt (JS.substring1 playerTotal) in
    {| hard := hard s; soft := soft s; pairs := pairs s; countBased := true;
       hardByCount := hardByCount s;
       softByCount := setCountCell (softByCount s) countKey (JS.numToString total) dealer action;
       pairsByCount := pairsByCount s |}
  else if JS.includes "," playerTotal then
    {| hard := hard s; soft := soft s; pairs := pairs s; countBased := true;
       hardByCount := hardByCount s; softByCount := softByCount s;
       pairsByCount :=
         match samePieces (JS.split "," playerTotal) with
         | Some c0 =>
             setCountCell (pairsByCount s) countKey (JS.numToString (pairValueSet c0))
                          dealer action
         | None => pairsByCount s
         end |}
  else
    let total := JS.parseInt playerTotal in
    {| hard := hard s; soft := soft s; pairs := pairs s; countBased := true;
       hardByCount := setCountCell (hardByCount s) countKey (JS.numToString total) dealer action;
       softByCount := softByCount s; pairsByCount := pairsByCount s |}.

Definition enableCountBased (s : t) (enabled : bool) : t :=
  {| hard := hard s; soft := soft s; pairs := pairs s; countBased := enabled;
     hardByCount := hardByCount s; softByCount := softByCount s;
     pairsByCount := pairsByCount s |}.

(** One row of an object literal: the ten actions for dealer 2 to A. *)
Fixpoint letters (s : string) : list string :=
  match s with
  | EmptyString => []
  | String a r => String a EmptyString :: letters r
  end.

Definition literalRow (acts : string) : gmap string string :=
  list_to_map (zip dealerLabels (letters acts)).

Definition literalTable (rows : list (Z * string)) : Table :=
  list_to_map ((λ '(k, acts), (JS.toString k, literalRow acts)) <$> rows).

Definition hardStrategy : Table :=
  literalTable
    [ (5, "HHHHHHHHHH"); (6, "HHHHHHHHHH"); (7, "HHHHHHHHHH"); (8, "HHHHHHHHHH");
      (9, "HDDDDHHHHH"); (10, "DDDDDDDDHH"); (11, "DDDDDDDDDD"); (12, "HHSSSHHHHH");
      (13, "SSSSSHHHHH"); (14, "SSSSSHHHHH"); (15, "SSSSSHHHHH"); (16, "SSSSSHHHHH");
      (17, "SSSSSSSSSS"); (18, "SSSSSSSSSS"); (19, "SSSSSSSSSS"); (20, "SSSSSSSSSS");
      (21, "SSSSSSSSSS") ].

Definition softStrategy : Table :=
  literalTable
    [ (13, "HHHDDHHHHH"); (14, "HHDDDHHHHH"); (15, "HHDDDHHHHH"); (16, "HHDDDHHHHH");
      (17, "HDDDDHHHHH"); (18, "SDDDDSSHHH"); (19, "SSSSSSSSSS"); (20, "SSSSSSSSSS");
      (21, "SSSSSSSSSS") ].

Definition pairsStrategy : Table :=
  literalTable
    [ (2, "PPPPPPHHHH"); (3, "PPPPPPHHHH"); (4, "HHHPPHHHHH"); (5, "DDDDDDDDHH");
      (6, "PPPPPHHHHH"); (7, "PPPPPPHHHH"); (8, "PPPPPPPPPP"); (9, "PPPPPSPPSS");
      (10, "SSSSSSSSSS"); (11, "PPPPPPPPPP") ].

Definition loadBasicStrategy (s : t) : t :=
  {| hard := hardStrategy; soft := softStrategy; pairs := pairsStrategy;
     countBased := countBased s;
     hardByCount := hardByCount s; softByCount := softByCount s;
     pairsByCount := pairsByCount s |}.

Definition loadOptimalStrategy (s : t) : t := loadBasicStrategy s.

(** The exchanged record.  A field the caller left out is [None]. *)
Record Data := {
  d_countBased : option bool;
  d_hard : option Table;
  d_soft : option Table;
  d_pairs : option Table;
  d_hardByCount : option CountTable;
  d_softByCount : option CountTable;
  d_pairsByCount : option CountTable
}.

(** [JSON.parse(JSON.stringify(obj))] on the tables: [stringify] walks the
    keys of an object and writes each entry, [parse] builds a fresh object
    from the entries read back; the action letters are strings and come
    back unchanged. *)
Definition cloneRow (row : gmap string string) : gmap string string :=
  list_to_map (map_to_list row).

Definition cloneTable (tbl : Table) : Table :=
  list_to_map (prod_map id cloneRow <$> map_to_list tbl).

Definition cloneCountTable (tbl : CountTable) : CountTable :=
  list_to_map (prod_map id cloneTable <$> map_to_list tbl).

Definition exportData (s : t) : Data :=
  {| d_countBased := Some (countBased s);
     d_hard := Some (cloneTable (hard s));
     d_soft := Some (cloneTable (soft s));
     d_pairs := Some (cloneTable (pairs s));
     d_hardByCount := Some (cloneCountTable (hardByCount s));
     d_softByCount := Some (cloneCountTable (softByCount s));
     d_pairsByCount := Some (cloneCountTable (pairsByCount s)) |}.

(** [importData]: the tables are first reinitialised in place; [hard],
    [soft] and [pairs] are replaced when [data] has them, the count layers
    are replaced in any case ([clone(obj, {})] is an empty object without
    [obj]), and the flag is [!!data.countBased]. *)
Definition importData (s : t) (data : Data) : t :=
  let s0 := initializeEmpty s in
  enableCountBased
    {| hard := match d_hard data with Some o => cloneTable o | None => hard s0 end;
       soft := match d_soft data with Some o => cloneTable o | None => soft s0 end;
       pairs := match d_pairs data with Some o => cloneTable o | None => pairs s0 end;
       countBased := countBased s0;
       hardByCount := match d_hardByCount data with Some o => cloneCountTable o | None => ∅ end;
       softByCount := match d_softByCount data with Some o => cloneCountTable o | None => ∅ end;
       pairsByCount := match d_pairsByCount data with Some o => cloneCountTable o | None => ∅ end |}
    (default false (d_countBased data)).

End Strategy.

(** ** BlackjackGame *)

Module BlackjackGame.

(** The [rules] object.  The built-in default writes [dealerStandsOn] as
    the number 17, the settings form as ["17"] or ["17s"]; only equality
    with ["17s"] is ever tested. *)
Record Rules := {
  dealerStandsOn : string;
  doubleAfterSplit : bool;
  allowResplit : bool;
  resplitAces : bool;
  blackjackPays : string
}.

Definition defaultRules : Rules :=
  {| dealerStandsOn := "17"; doubleAfterSplit := true; allowResplit := true;
     resplitAces := false; blackjackPays := "3:2" |}.

(** The game object with the objects it shares ([deck], [counter]) and
    the ambient random source. *)
Record t := {
  deck : Deck.t;
  rules : Rules;
  counter : option CardCounter.t;
  random : Rng
}.

(** *** Hand valuation *)


Record HandValue := { hvalue : Z; isSoft : bool }.

(** The [for] loop of [calculateHandValue]: every Ace counts 11. *)
Definition countCard (acc : Z * nat) (c : Card) : Z * nat :=
let '(v, aces) := acc in
if String.eqb (rank c) "A" then (v + 11, S aces) else (v + value c, aces).

Definition sumCards (cards : list Card) : Z * nat :=
fold_left countCard cards (0, O).

(** The [while (value > 21 && aces > 0)] loop. *)
Fixpoint adjustAces (v : Z) (aces : nat) : Z * nat :=
match aces with
| O => (v, O)
| S a => if 21 <? v then adjustAces (v - 10) a else (v, aces)
end.

Definition calculateHandValue (cards : list Card) : HandValue :=
let '(v0, a0) := sumCards cards in
let '(v, aces) := adjustAces v0 a0 in
{| hvalue := v; isSoft := (0 <? aces)%nat && (v <=? 21) |}.

Definition isBlackjack (cards : list Card) : bool :=
(length cards =? 2)%nat && (hvalue (calculateHandValue cards) =? 21).

(** [cards[0].value === cards[1].value] *)
Definition canSplit (cards : list Card) : bool :=
match cards with
| [c0; c1] => value c0 =? value c1
| _ => false
end.

Definition canDouble (cards : list Card) : bool := (length cards =? 2)%nat.

Definition isBust (cards : list Card) : bool :=
21 <? hvalue (calculateHandValue cards).


(** *** The state of a running game *)

(** How a method call ends: normally, with a [TypeError] (a property of
    [undefined] was read), or with the loop budget of the model used up. *)
Inductive Outcome (A : Type) :=
| Done (a : A) (s : t)
| TypeError
| OutOfFuel.
Arguments Done {A} a s.
Arguments TypeError {A}.
Arguments OutOfFuel {A}.

Definition M (A : Type) : Type := t -> Outcome A.

Definition ret {A} (a : A) : M A := fun s => Done a s.

Definition bind {A B} (m : M A) (k : A -> M B) : M B :=
  fun s =>
    match m s with
    | Done a s' => k a s'
    | TypeError => TypeError
    | OutOfFuel => OutOfFuel
    end.

Notation "'do' x <- m ; k" := (bind m (fun x => k))
  (at level 10, x pattern, m at level 100, k at level 200).

Definition get : M t := fun s => Done s s.

Definition outOfFuel {A} : M A := fun _ => OutOfFuel.

(** [this.deck.dealCard(this.counter)].  With no card to hand out the
    call is recorded as the [TypeError] that reading the card raises. *)
Definition dealCard : M Card :=
  fun s =>
    match Deck.dealCard (deck s) (counter s) (random s) with
    | Some (c, d, k, g) => Done c {| deck := d; rules := rules s; counter := k; random := g |}
    | None => TypeError
    end.

(** [this.deck.shuffle(this.counter)] *)
Definition shuffle : M unit :=
  fun s =>
    let '(d, k, g) := Deck.shuffle (deck s) (counter s) (random s) in
    Done tt {| deck := d; rules := rules s; counter := k; random := g |}.

(** *** Dealer *)

(** The stand value computed in the body of the loop of [playDealer]. *)
Definition standValue (r : Rules) (hv : HandValue) : Z :=
  if String.eqb (dealerStandsOn r) "17s" then 17
  else if isSoft hv && (hvalue hv =? 17) then 18 else 17.

(** [playDealer]: one unit of fuel per evaluation of the loop body. *)
Fixpoint playDealer (fuel : nat) (hand : list Card) : M (list Card) :=
  match fuel with
  | O => outOfFuel
  | S f =>
      do s <- get;
      let hv := calculateHandValue hand in
      if 21 <? hvalue hv then ret hand
      else if standValue (rules s) hv <=? hvalue hv then ret hand
      else do c <- dealCard; playDealer f (hand ++ [c])
  end.

(** *** Player *)

Module Hand.
Record t := { cards : list Card; bet : Z; result : option string }.
End Hand.

(** The effect the body of the loop of [playHand] applies. *)
Inductive Move := Stand | Hit | Double | Split.

Definition isPair (cards : list Card) : bool :=
  (length cards =? 2)%nat && canSplit cards.

Definition isAcePair (cards : list Card) : bool :=
  isPair cards &&
  match cards with
  | c0 :: _ => String.eqb (rank c0) "A"
  | [] => false
  end.

(** [hands.length > 1] *)
Definition hasSplit (hands : list Hand.t) : bool := (1 <? length hands)%nat.

(** [hasSplit ? (isAcePair ? resplitAces : allowResplit) : true] *)
Definition canResplit (r : Rules) (hands : list Hand.t) (cards : list Card) : bool :=
  if hasSplit hands then
    (if isAcePair cards then resplitAces r else allowResplit r)
  else true.

(** [isPair && canResplit] *)
Definition canSplitThisHand (r : Rules) (hands : list Hand.t) (cards : list Card) : bool :=
  isPair cards && canResplit r hands cards.

(** [length === 2 && ((i === 0 && canDouble) || (i > 0 && doubleAfterSplit))] *)
Definition canDoubleThisHand (r : Rules) (canDouble : bool) (i : nat) (cards : list Card)
  : bool :=
  (length cards =? 2)%nat &&
  (((i =? 0)%nat && canDouble) || ((0 <? i)%nat && doubleAfterSplit r)).

(** The label of a pair: [A], [10] for every ten-valued card, else the value. *)
Definition normalized (first : Card) : string :=
  if String.eqb (rank first) "A" then "A"
  else if value first =? 10 then "10" else JS.toString (value first).

(** The key looked up in the strategy. *)
Definition playerTotal (r : Rules) (hands : list Hand.t) (cards : list Card) : string :=
  let hv := calculateHandValue cards in
  if isPair cards && (negb (hasSplit hands) || canResplit r hands cards) then
    match cards with
    | first :: _ => normalized first +:+ "," +:+ normalized first
    | [] => ","
    end
  else if isSoft hv then "S" +:+ JS.toString (hvalue hv) else JS.toString (hvalue hv).

(** [dealerUpCard.value === 11 ? 'A' : dealerUpCard.value.toString()] *)
Definition dealerCardLabel (dealerUpCard : Card) : string :=
  if value dealerUpCard =? 11 then "A" else JS.toString (value dealerUpCard).

(** The count passed to the strategy: 0 without a counter. *)
Definition currentCount (s : t) : Z :=
  match counter s with
  | Some c =>
      CardCounter.getCountRange c (Deck.getRemainingCards (deck s)) (Deck.numDecks (deck s))
  | None => 0
  end.

(** The chain of tests on the action letter; an unknown letter stands. *)
Definition resolve (action : string) (mayDouble maySplit : bool) : Move :=
  if String.eqb action "H" then Hit
  else if String.eqb action "S" then Stand
  else if String.eqb action "D" then (if mayDouble then Double else Hit)
  else if String.eqb action "P" then (if maySplit then Split else Hit)
  else Stand.

(** What the body of the loop does for hand [i] in the current state. *)
Definition nextMove (strategy : Strategy.t) (dealerUpCard : Card) (canDouble : bool)
           (i : nat) (hands : list Hand.t) (cards : list Card) (s : t) : Move :=
  let mayDouble := canDoubleThisHand (rules s) canDouble i cards in
  let maySplit := canSplitThisHand (rules s) hands cards in
  let action :=
    Strategy.getAction strategy (playerTotal (rules s) hands cards)
                       (dealerCardLabel dealerUpCard) mayDouble maySplit (currentCount s) in
  resolve action mayDouble maySplit.

(** [cards.pop()] of a hand: the last card is taken off. *)
Definition popCard (cards : list Card) : option (Card * list Card) := Deck.pop cards.

Definition withCards (h : Hand.t) (cs : list Card) : Hand.t :=
  {| Hand.cards := cs; Hand.bet := Hand.bet h; Hand.result := Hand.result h |}.

(** The loops of [playHand]: the [for] over the work list and the [while]
    over one hand, one unit of fuel per test of the [while] condition. *)
Fixpoint playLoop (fuel : nat) (strategy : Strategy.t) (dealerUpCard : Card)
         (canDouble : bool) (i : nat) (hands : list Hand.t) (totalBet : Z)
  : M (list Hand.t * Z) :=
  match fuel with
  | O => outOfFuel
  | S f =>
      match hands !! i with
      | None => ret (hands, totalBet)
      | Some hand =>
          let cs := Hand.cards hand in
          if isBust cs || isBlackjack cs then
            playLoop f strategy dealerUpCard canDouble (S i) hands totalBet
          else
            do s <- get;
            match nextMove strategy dealerUpCard canDouble i hands cs s with
            | Stand => playLoop f strategy dealerUpCard canDouble (S i) hands totalBet
            | Hit =>
                do c <- dealCard;
                let cs' := cs ++ [c] in
                if isBust cs' then
                  let hand' := {| Hand.cards := cs'; Hand.bet := Hand.bet hand;
                                  Hand.result := Some "lose" |} in
                  playLoop f strategy dealerUpCard canDouble (S i) (<[i := hand']> hands) totalBet
                else
                  playLoop f strategy dealerUpCard canDouble i
                           (<[i := withCards hand cs']> hands) totalBet
            | Double =>
                let bet' := Hand.bet hand * 2 in
                do c <- dealCard;
                let hand' := {| Hand.cards := cs ++ [c]; Hand.bet := bet';
                                Hand.result := Hand.result hand |} in
                playLoop f strategy dealerUpCard canDouble (S i) (<[i := hand']> hands)
                         (totalBet + bet' / 2)
            | Split =>
                match popCard cs with
                | None => fun _ => TypeError
                | Some (card, rest) =>
                    do c1 <- dealCard;
                    let newHand := {| Hand.cards := [card; c1]; Hand.bet := Hand.bet hand;
                                      Hand.result := None |} in
                    do c2 <- dealCard;
                    playLoop f strategy dealerUpCard canDouble i
                             (<[i := withCards hand (rest ++ [c2])]> hands ++ [newHand])
                             (totalBet + Hand.bet hand)
                end
            end
      end
  end.

(** [playHand(initialCards, dealerUpCard, strategy, canDouble, canSplit)];
    the last parameter is never read by the body. *)
Definition playHand (fuel : nat) (initialCards : list Card) (dealerUpCard : Card)
           (strategy : Strategy.t) (canDouble : bool) : M (list Hand.t * Z) :=
  playLoop fuel strategy dealerUpCard canDouble 0
           [{| Hand.cards := initialCards; Hand.bet := 1; Hand.result := None |}] 1.

(** *** A complete game *)

Record InitialDecision := {
  id_playerTotal : HandValue;
  id_dealerCard : Card;
  id_action : string
}.

(** The object [playGame] returns; the early returns on a natural carry
    neither [hands] nor [initialDecision]. *)
Record GameResult := {
  result : string;
  winnings : Q;
  bet : Q;
  playerCards : list Card;
  dealerCards : list Card;
  hands : option (list Hand.t);
  initialDecision : option InitialDecision
}.

Definition Qltb (a b : Q) : bool :=
  match (a ?= b)%Q with
  | Lt => true
  | _ => false
  end.

(** [getInitialAction(playerCards, dealerUpCard, finalHands)] *)
Definition getInitialAction (playerCards : list Card) (dealerUpCard : Card)
           (finalHands : list Hand.t) : string :=
  if (1 <? length finalHands)%nat then "P"
  else
    match finalHands with
    | firstHand :: _ =>
        if (length (Hand.cards firstHand) =? 3)%nat && (length playerCards =? 2)%nat then "D"
        else if (length playerCards <? length (Hand.cards firstHand))%nat then "H"
        else "S"
    | [] => "S"
    end.

(** [blackjackPays === '3:2' ? 1.5 : blackjackPays === '6:5' ? 1.2 : 1] *)
Definition payout (r : Rules) : Q :=
  if String.eqb (blackjackPays r) "3:2" then (3 # 2)%Q
  else if String.eqb (blackjackPays r) "6:5" then (6 # 5)%Q else 1%Q.

(** One turn of the settlement loop over the hands. *)
Definition settleHand (betSize : Q) (dealerValue : Z) (dealerBust : bool)
           (totalWinnings : Q) (hand : Hand.t) : Q :=
  let stake := (betSize * inject_Z (Hand.bet hand))%Q in
  if bool_decide (Hand.result hand = Some "lose") then (totalWinnings - stake)%Q
  else
    let playerValue := hvalue (calculateHandValue (Hand.cards hand)) in
    if 21 <? playerValue then (totalWinnings - stake)%Q
    else if dealerBust then (totalWinnings + stake)%Q
    else if dealerValue <? playerValue then (totalWinnings + stake)%Q
    else if playerValue <? dealerValue then (totalWinnings - stake)%Q
    else (totalWinnings + 0)%Q.

Definition outcomeTag (totalWinnings : Q) : string :=
  if Qltb 0 totalWinnings then "win"
  else if Qltb totalWinnings 0 then "lose" else "push".

(** [playGame(strategy, betSize)] *)
Definition playGame (fuel : nat) (strategy : Strategy.t) (betSize : Q) : M GameResult :=
  do s0 <- get;
  do _ <- (if Deck.shouldReshuffle (deck s0) then shuffle else ret tt);
  do p1 <- dealCard;
  do p2 <- dealCard;
  do d1 <- dealCard;
  do d2 <- dealCard;
  let playerCards := [p1; p2] in
  let dealerCards := [d1; d2] in
  let dealerUpCard := d1 in
  do s <- get;
  if isBlackjack playerCards then
    if isBlackjack dealerCards then
      ret {| result := "push"; winnings := 0%Q; bet := betSize;
             playerCards := playerCards; dealerCards := dealerCards;
             hands := None; initialDecision := None |}
    else
      ret {| result := "blackjack"; winnings := (betSize * payout (rules s))%Q;
             bet := betSize; playerCards := playerCards; dealerCards := dealerCards;
             hands := None; initialDecision := None |}
  else if isBlackjack dealerCards then
    ret {| result := "lose"; winnings := (- betSize)%Q; bet := betSize;
           playerCards := playerCards; dealerCards := dealerCards;
           hands := None; initialDecision := None |}
  else
    do played <-
       playHand fuel playerCards dealerUpCard strategy (doubleAfterSplit (rules s));
    let '(hands, totalBet) := played in
    let totalBetAmount := (betSize * inject_Z totalBet)%Q in
    do dealerFinal <- playDealer fuel dealerCards;
    let dealerValue := hvalue (calculateHandValue dealerFinal) in
    let dealerBust := 21 <? dealerValue in
    let totalWinnings := foldl (settleHand betSize dealerValue dealerBust) 0%Q hands in
    ret {| result := outcomeTag totalWinnings;
           winnings := totalWinnings;
           bet := totalBetAmount;
           playerCards := playerCards;
           dealerCards := dealerFinal;
           hands := Some hands;
           initialDecision :=
             Some {| id_playerTotal := calculateHandValue playerCards;
                     id_dealerCard := dealerUpCard;
                     id_action := getInitialAction playerCards dealerUpCard hands |} |}.

End BlackjackGame.

(** ** Simulator *)

Module Simulator.

Import BlackjackGame.

(** One entry of [cellStats]. *)
Record Cell := {
  c_playerTotal : string;
  c_dealerCard : string;
  c_action : string;
  c_count : Z;
  c_hands : Z;
  c_wins : Z;
  c_losses : Z;
  c_pushes : Z;
  c_totalWinnings : Q;
  c_totalBet : Q
}.

(** The label of the initial hand in [trackCellStats]. *)
Definition cellPlayerTotal (playerCards : list Card) : string :=
  if (length playerCards =? 2)%nat && canSplit playerCards then
    match playerCards with
    | [c0; c1] =>
        if String.eqb (rank c0) (rank c1) then rank c0 +:+ "," +:+ rank c1
        else
          let value1 := if value c0 =? 11 then "A" else JS.toString (value c0) in
          let value2 := if value c1 =? 11 then "A" else JS.toString (value c1) in
          value1 +:+ "," +:+ value2
    | _ => ","
    end
  else
    let hv := calculateHandValue playerCards in
    if isSoft hv then "S" +:+ JS.toString (hvalue hv) else JS.toString (hvalue hv).

(** The action attributed to the game: the one of [initialDecision], ['S']
    without it, and a reconstruction from the hands when it is empty. *)
Definition cellAction (g : GameResult) : string :=
  let action :=
    match initialDecision g with
    | Some d => id_action d
    | None => "S"
    end in
  if Strategy.truthy action then action
  else
    match hands g with
    | Some (firstHand :: rest) =>
        if (1 <? length (firstHand :: rest))%nat then "P"
        else if (length (Hand.cards firstHand) =? 3)%nat
                && (length (playerCards g) =? 2)%nat then "D"
        else if (length (playerCards g) <? length (Hand.cards firstHand))%nat then "H"
        else action
    | _ => action
    end.

Definition isWinTag (r : string) : bool :=
  String.eqb r "win" || String.eqb r "blackjack".

(** [trackCellStats(gameResult, cellStats, trueCount, counter)];
    [hasCounter] tells whether [counter] is an object.  [None] is the
    [TypeError] of a result without dealer card. *)
Definition trackCellStats (g : GameResult) (cellStats : gmap string Cell)
           (trueCount : Q) (hasCounter : bool) : option (gmap string Cell) :=
  dealerCard ← head (dealerCards g);
  let playerTotal := cellPlayerTotal (playerCards g) in
  let dealerCardValue :=
    if value dealerCard =? 11 then "A" else JS.toString (value dealerCard) in
  let countCategory := if hasCounter then CardCounter.round trueCount else 0 in
  let countKey := JS.toString countCategory in
  let action := cellAction g in
  let cellKey :=
    playerTotal +:+ "_" +:+ dealerCardValue +:+ "_" +:+ action +:+ "_" +:+ countKey in
  let cell :=
    default {| c_playerTotal := playerTotal; c_dealerCard := dealerCardValue;
               c_action := action; c_count := countCategory;
               c_hands := 0; c_wins := 0; c_losses := 0; c_pushes := 0;
               c_totalWinnings := 0%Q; c_totalBet := 0%Q |}
            (cellStats !! cellKey) in
  let won := isWinTag (result g) in
  let lost := negb won && String.eqb (result g) "lose" in
  Some (<[cellKey :=
            {| c_playerTotal := c_playerTotal cell; c_dealerCard := c_dealerCard cell;
               c_action := c_action cell; c_count := c_count cell;
               c_hands := c_hands cell + 1;
               c_wins := if won then c_wins cell + 1 else c_wins cell;
               c_losses := if lost then c_losses cell + 1 else c_losses cell;
               c_pushes := if won || lost then c_pushes cell else c_pushes cell + 1;
               c_totalWinnings := (c_totalWinnings cell + winnings g)%Q;
               c_totalBet := (c_totalBet cell + bet g)%Q |}]> cellStats).

(** [countStats], kept when the game has a counter. *)
Record CountStats := {
  totalHands : Z;
  countDistribution : gmap string Z;
  evByCount : gmap string Q;
  handsByCount : gmap string Z
}.

(** The [results] object of [runSimulations]. *)
Record Results := {
  totalGames : Z;
  wins : Z;
  losses : Z;
  pushes : Z;
  blackjacks : Z;
  totalWinnings : Q;
  totalBet : Q;
  samples : list GameResult;
  countStats : option CountStats;
  cellStats : gmap string Cell
}.

Definition emptyResults (hasCounter : bool) : Results :=
  {| totalGames := 0; wins := 0; losses := 0; pushes := 0; blackjacks := 0;
     totalWinnings := 0%Q; totalBet := 0%Q; samples := [];
     countStats :=
       if hasCounter then
         Some {| totalHands := 0; countDistribution := ∅; evByCount := ∅;
                 handsByCount := ∅ |}
       else None;
     cellStats := ∅ |}.

(** The bookkeeping before a hand: the count bucket is created and counted. *)
Definition noteCount (countKey : string) (cs : CountStats) : CountStats :=
  let fresh := negb (bool_decide (default 0 (countDistribution cs !! countKey) ≠ 0)) in
  let dist := if fresh then <[countKey := 0]> (countDistribution cs) else countDistribution cs in
  let ev := if fresh then <[countKey := 0%Q]> (evByCount cs) else evByCount cs in
  let hs := if fresh then <[countKey := 0]> (handsByCount cs) else handsByCount cs in
  {| totalHands := totalHands cs;
     countDistribution := <[countKey := default 0 (dist !! countKey) + 1]> dist;
     evByCount := ev;
     handsByCount := <[countKey := default 0 (hs !! countKey) + 1]> hs |}.

(** The bookkeeping after a hand: winnings are added to the bucket. *)
Definition noteWinnings (countKey : string) (w : Q) (cs : CountStats) : CountStats :=
  {| totalHands := totalHands cs + 1;
     countDistribution := countDistribution cs;
     evByCount := <[countKey := (default 0%Q (evByCount cs !! countKey) + w)%Q]> (evByCount cs);
     handsByCount := handsByCount cs |}.

(** The chain of tests on [gameResult.result]. *)
Definition tally (r : Results) (g : GameResult) : Results :=
  let tag := result g in
  let isWin := String.eqb tag "win" in
  let isLose := negb isWin && String.eqb tag "lose" in
  let isPush := negb isWin && negb isLose && String.eqb tag "push" in
  let isBj := negb isWin && negb isLose && negb isPush && String.eqb tag "blackjack" in
  {| totalGames := totalGames r;
     wins := if isWin || isBj then wins r + 1 else wins r;
     losses := if isLose then losses r + 1 else losses r;
     pushes := if isPush then pushes r + 1 else pushes r;
     blackjacks := if isBj then blackjacks r + 1 else blackjacks r;
     totalWinnings := totalWinnings r; totalBet := totalBet r;
     samples := samples r; countStats := countStats r; cellStats := cellStats r |}.

(** The body of the [for] loop of [processChunk] for the hand of index [i]. *)
Definition simulateOne (fuel : nat) (strategy : Strategy.t) (betSize : Q)
           (i : nat) (r : Results) : M Results :=
  do s <- get;
  let hasCounter := bool_decide (is_Some (counter s)) in
  let trueCount :=
    match counter s with
    | Some c =>
        CardCounter.getTrueCount c (Deck.getRemainingCards (deck s)) (Deck.numDecks (deck s))
    | None => 0%Q
    end in
  let countKey := JS.toString (CardCounter.round trueCount) in
  let cs1 := if hasCounter then noteCount countKey <$> countStats r else countStats r in
  do g <- playGame fuel strategy betSize;
  match trackCellStats g (cellStats r) trueCount hasCounter with
  | None => fun _ => TypeError
  | Some cells =>
      let cs2 := if hasCounter then noteWinnings countKey (winnings g) <$> cs1 else cs1 in
      let r1 :=
        {| totalGames := totalGames r + 1;
           wins := wins r; losses := losses r; pushes := pushes r;
           blackjacks := blackjacks r;
           totalWinnings := (totalWinnings r + winnings g)%Q;
           totalBet := (totalBet r + bet g)%Q;
           samples := if (i <? 100)%nat then samples r ++ [g] else samples r;
           countStats := cs2;
           cellStats := cells |} in
      ret (tally r1 g)
  end.

(** The hands of index [i] to [i + n - 1].  The chunks of 10000 hands only
    give the host a chance to repaint between them. *)
Fixpoint simulateFrom (fuel : nat) (strategy : Strategy.t) (betSize : Q)
         (n i : nat) (r : Results) : M Results :=
  match n with
  | O => ret r
  | S n' =>
      do r' <- simulateOne fuel strategy betSize i r;
      simulateFrom fuel strategy betSize n' (S i) r'
  end.

(** A quotient of two numbers; [None] when JavaScript yields no finite
    number (division by zero). *)
Definition quotient (a b : Q) : option Q :=
  if Qeq_bool b 0 then None else Some (a / b)%Q.

(** The figures added when the run is complete. *)
Record Summary := {
  final : Results;
  expectedValue : option Q;
  winRate : option Q;
  returnRate : option Q
}.

(** [runSimulations(numSimulations, betSize)]; [fuel] bounds the loops of
    each single game. *)
Definition runSimulations (fuel : nat) (strategy : Strategy.t)
           (numSimulations : nat) (betSize : Q) : M Summary :=
  do s <- get;
  do r <- simulateFrom fuel strategy betSize numSimulations 0
            (emptyResults (bool_decide (is_Some (counter s))));
  let avg (cs : CountStats) :=
    {| totalHands := totalHands cs;
       countDistribution := countDistribution cs;
       evByCount :=
         map_imap (λ k ev,
                     let h := default 0 (handsByCount cs !! k) in
                     Some (if 0 <? h then (ev / inject_Z h)%Q else ev))
                  (evByCount cs);
       handsByCount := handsByCount cs |} in
  ret {| final :=
           {| totalGames := totalGames r; wins := wins r; losses := losses r;
              pushes := pushes r; blackjacks := blackjacks r;
              totalWinnings := totalWinnings r; totalBet := totalBet r;
              samples := samples r; countStats := avg <$> countStats r;
              cellStats := cellStats r |};
         expectedValue := quotient (totalWinnings r) (inject_Z (totalGames r));
         winRate := (λ q, q * 100)%Q <$> quotient (inject_Z (wins r)) (inject_Z (totalGames r));
         returnRate := (λ q, q * 100)%Q <$> quotient (totalWinnings r) (totalBet r) |}.

(** *** Row testing *)

(** The representative two card hand of [testRowActions] for a label, as
    the comma separated string it builds, with the [canSplit] flag;
    [canDouble] is [true] on every branch. *)
Definition representative (playerTotal : string) : string * bool :=
  if JS.startsWith "S" playerTotal then
    let softValue := JS.parseInt (JS.substring1 playerTotal) in
    let secondCard := (λ v, v - 11) <$> softValue in
    ("A," +:+ JS.numToString secondCard, false)
  else if JS.includes "," playerTotal then (playerTotal, true)
  else
    match JS.parseInt playerTotal with
    | Some hardValue =>
        if (10 <=? hardValue) && (hardValue <=? 20) then
          let card1 := Z.min 10 (hardValue - 5) in
          let card2 := hardValue - card1 in
          (JS.toString card1 +:+ "," +:+ JS.toString card2, false)
        else
          let cardValue := hardValue / 2 in
          (JS.toString cardValue +:+ "," +:+ JS.toString (hardValue - cardValue),
           cardValue =? hardValue - cardValue)
    | None => ("NaN,NaN", false)
    end.

(** The actions tried for a label: hit and stand, double on soft totals, on
    pairs other than aces and on hard 9 to 11, split when [canSplit]. *)
Definition validActions (playerTotal : string) (canSplit : bool) : list string :=
  let double :=
    if JS.startsWith "S" playerTotal then ["D"]
    else if JS.includes "," playerTotal then
      let pairValue :=
        if String.eqb playerTotal "A,A" then Some 11
        else JS.parseInt (default "" (head (JS.split "," playerTotal))) in
      if bool_decide (pairValue = Some 11) then [] else ["D"]
    else
      if Strategy.inRange 9 11 (JS.parseInt playerTotal) then ["D"] else [] in
  ["H"; "S"] ++ double ++ (if canSplit then ["P"] else []).

(** The card objects built from the pieces of the hand string; [None] when
    a value is [NaN]. *)
Definition parseRowCard (c : string) : option Card :=
  let c := JS.toUpperCase (JS.trim c) in
  if String.eqb c "A" then Some {| rank := "A"; suit := Spades; value := 11 |}
  else if existsb (String.eqb c) ["J"; "Q"; "K"] || String.eqb c "10" then
    Some {| rank := c; suit := Spades; value := 10 |}
  else v ← JS.parseInt c; Some {| rank := c; suit := Spades; value := v |}.

(** [parsedPlayerCards.length === 2 && game.isBlackjack(parsedPlayerCards)];
    a [NaN] valued card never sums to 21. *)
Definition isInitialBlackjack (playerCards : string) : bool :=
  let parts := JS.split "," playerCards in
  match mapM parseRowCard parts with
  | Some cs => (length cs =? 2)%nat && isBlackjack cs
  | None => false
  end.

(** One accumulator [results[dealer][action]]. *)
Record CellResult := {
  r_totalGames : Z;
  r_totalWinnings : Q;
  r_totalBet : Q;
  r_wins : Z;
  r_losses : Z;
  r_pushes : Z
}.

Definition zeroCell : CellResult :=
  {| r_totalGames := 0; r_totalWinnings := 0%Q; r_totalBet := 0%Q;
     r_wins := 0; r_losses := 0; r_pushes := 0 |}.

Definition record (g : GameResult) (c : CellResult) : CellResult :=
  let won := isWinTag (result g) in
  let lost := negb won && String.eqb (result g) "lose" in
  {| r_totalGames := r_totalGames c + 1;
     r_totalWinnings := (r_totalWinnings c + winnings g)%Q;
     r_totalBet := (r_totalBet c + bet g)%Q;
     r_wins := if won then r_wins c + 1 else r_wins c;
     r_losses := if lost then r_losses c + 1 else r_losses c;
     r_pushes := if won || lost then r_pushes c else r_pushes c + 1 |}.

(** [results[dealer] = {}; results[dealer][action] = {...zeros}] *)
Definition initResults (dealers actions : list string)
  : gmap string (gmap string CellResult) :=
  foldl (λ res dealer,
           <[dealer := foldl (λ row action, <[action := zeroCell]> row) ∅ actions]> res)
        ∅ dealers.

Section RowTest.

(** What lies outside the engine: the result of [simulateHandWithAction]
    on the freshly shuffled shoe of trial [i] for a dealer card and a forced
    action, and the outcome of the count filter for that dealer card. *)
Variable simulateHandWithAction : nat -> string -> string -> GameResult.
Variable countMismatch : nat -> string -> bool.

(** Whether the filter on the count is in force:
    [enableCounting && countLevel !== null]. *)
Variable filtering : bool.

(** The state of the loops: the accumulators and the list [actions], which
    an initial blackjack shrinks to stand alone. *)
Definition RowState : Type := gmap string (gmap string CellResult) * list string.

Definition rowTrial (playerCards : string) (dealers : list string)
           (i : nat) (st : RowState) : RowState :=
  let '(results, actions) := st in
  let actions := if isInitialBlackjack playerCards then ["S"] else actions in
  let results :=
    foldl (λ res dealer,
             if filtering && countMismatch i dealer then res
             else
               foldl (λ res' action,
                        alter (alter (record (simulateHandWithAction i dealer action))
                                     action) dealer res')
                     res actions)
          results dealers in
  (results, actions).

(** [finalize]: the expected value of every cell of the current actions. *)
Definition finalize (dealers : list string) (st : RowState)
  : gmap string (gmap string Q) :=
  let '(results, actions) := st in
  foldl (λ summary dealer,
           <[dealer :=
               foldl (λ row action,
                        let cellResult := default zeroCell (results !! dealer ≫= (.!! action)) in
                        <[action :=
                            if 0 <? r_totalGames cellResult
                            then (r_totalWinnings cellResult / inject_Z (r_totalGames cellResult))%Q
                            else 0%Q]> row)
                     ∅ actions]> summary)
        ∅ dealers.

(** [testRowActions(playerTotal, dealers, countLevel, numSimulations, betSize)]
    called without [cancelCheck]: the accumulators and the summary it
    resolves with. *)
Definition testRowActions (playerTotal : string) (dealers : list string)
           (numSimulations : nat)
  : gmap string (gmap string CellResult) * gmap string (gmap string Q) :=
  let '(playerCards, canSplit) := representative playerTotal in
  let actions := validActions playerTotal canSplit in
  let st :=
    foldl (λ st i, rowTrial playerCards dealers i st)
          (initResults dealers actions, actions) (seq 0 numSimulations) in
  (st.1, finalize dealers st).

End RowTest.

(** *** Situation analysis *)

(** The local function [parseCard]; [None] is [null]. *)
Definition parseCard (cardStr : string) : option Card :=
  let cardStr := JS.toUpperCase (JS.trim cardStr) in
  if String.eqb cardStr "A" || String.eqb cardStr "ACE" then
    Some {| rank := "A"; suit := Spades; value := 11 |}
  else if existsb (String.eqb cardStr) ["J"; "Q"; "K"] || String.eqb cardStr "10" then
    Some {| rank := cardStr; suit := Spades; value := 10 |}
  else
    match JS.parseInt cardStr with
    | Some num =>
        if (2 <=? num) && (num <=? 9) then
          Some {| rank := JS.toString num; suit := Spades; value := num |}
        else None
    | None => None
    end.

(** [playerCards.split(',').map(parseCard).filter(c => c !== null)] *)
Definition parsePlayerCards (playerCards : string) : list Card :=
  omap parseCard (JS.split "," playerCards).

Record Situation := {
  s_playerCards : list string;
  s_playerTotal : string;
  s_dealerCard : string;
  s_canDouble : bool;
  s_canSplit : bool
}.

(** What [analyzeSituation] resolves with: the error object, or the report
    on the situation with the actions it estimates (the estimates are
    Monte Carlo figures and stay outside). *)
Inductive Analysis :=
| ErrorObject (error : string)
| Report (situation : Situation) (actions : list string).

Definition analyzeSituation (playerCards dealerCard : string) : Analysis :=
  let parsedPlayerCards := parsePlayerCards playerCards in
  match parseCard dealerCard with
  | None => ErrorObject "Invalid card input"
  | Some parsedDealerCard =>
      if (length parsedPlayerCards =? 0)%nat then ErrorObject "Invalid card input"
      else
        let hv := calculateHandValue parsedPlayerCards in
        let canSplit :=
          match parsedPlayerCards with
          | [c0; c1] => value c0 =? value c1
          | _ => false
          end in
        let canDouble := (length parsedPlayerCards =? 2)%nat in
        let label (c : Card) :=
          if value c =? 11 then "A"
          else if value c =? 10 then "10" else JS.toString (value c) in
        let playerTotal :=
          if canSplit then
            match parsedPlayerCards with
            | [c0; c1] => label c0 +:+ "," +:+ label c1
            | _ => ","
            end
          else if isSoft hv then "S" +:+ JS.toString (hvalue hv)
          else JS.toString (hvalue hv) in
        Report {| s_playerCards := rank <$> parsedPlayerCards;
                  s_playerTotal := playerTotal;
                  s_dealerCard := rank parsedDealerCard;
                  s_canDouble := canDouble;
                  s_canSplit := canSplit |}
               (["H"; "S"] ++ (if canDouble then ["D"] else [])
                           ++ (if canSplit then ["P"] else []))
  end.

(** *** A hand with a forced first action *)

(** [game.deck.dealCard()]: a card dealt without telling the counter. *)
Definition dealCardUncounted : M Card :=
  fun s =>
    match Deck.dealCard (deck s) None (random s) with
    | Some (c, d, _, g) =>
        Done c {| deck := d; rules := rules s; counter := counter s; random := g |}
    | None => TypeError
    end.

(** One entry of [finalPlayerHands]. *)
Record ForcedHand := { f_cards : list Card; f_bet : Z }.

(** [isSoft ? `S${value}` : value.toString()] *)
Definition totalLabel (cards : list Card) : string :=
  let hv := calculateHandValue cards in
  if isSoft hv then "S" +:+ JS.toString (hvalue hv) else JS.toString (hvalue hv).

(** The loops over the hands of a forced split: the [for] over
    [finalPlayerHands] and the [while] over one hand, one unit of fuel per
    test of the [while] condition. *)
Fixpoint splitLoop (fuel : nat) (strategy : Strategy.t) (dealerCard : Card)
         (i : nat) (hands : list ForcedHand) (betMultiplier : Z)
  : M (list ForcedHand * Z) :=
  match fuel with
  | O => outOfFuel
  | S f =>
      match hands !! i with
      | None => ret (hands, betMultiplier)
      | Some hand =>
          let cs := f_cards hand in
          if isBust cs || isBlackjack cs then
            splitLoop f strategy dealerCard (S i) hands betMultiplier
          else
            do s <- get;
            let canResplit :=
              if isPair cs then
                (if isAcePair cs then resplitAces (rules s) else allowResplit (rules s))
              else false in
            let handTotal :=
              if isPair cs && canResplit then
                match cs with
                | first :: _ => normalized first +:+ "," +:+ normalized first
                | [] => ","
                end
              else totalLabel cs in
            let canDoubleAfterSplit := (length cs =? 2)%nat && doubleAfterSplit (rules s) in
            let handAction :=
              Strategy.getAction strategy handTotal (dealerCardLabel dealerCard)
                                 canDoubleAfterSplit canResplit 0 in
            if String.eqb handAction "H" then
              do c <- dealCardUncounted;
              let hand' := {| f_cards := cs ++ [c]; f_bet := f_bet hand |} in
              if isBust (cs ++ [c]) then
                splitLoop f strategy dealerCard (S i) (<[i := hand']> hands) betMultiplier
              else
                splitLoop f strategy dealerCard i (<[i := hand']> hands) betMultiplier
            else if String.eqb handAction "D" && canDoubleAfterSplit then
              do c <- dealCardUncounted;
              let hand' := {| f_cards := cs ++ [c]; f_bet := f_bet hand * 2 |} in
              splitLoop f strategy dealerCard (S i) (<[i := hand']> hands) betMultiplier
            else if String.eqb handAction "P" && canResplit then
              match popCard cs with
              | None => fun _ => TypeError
              | Some (card, rest) =>
                  do c1 <- dealCardUncounted;
                  do c2 <- dealCardUncounted;
                  let hand' := {| f_cards := rest ++ [c1]; f_bet := f_bet hand |} in
                  let newHand := {| f_cards := [card; c2]; f_bet := f_bet hand |} in
                  splitLoop f strategy dealerCard i (<[i := hand']> hands ++ [newHand])
                            (betMultiplier + 1)
              end
            else splitLoop f strategy dealerCard (S i) hands betMultiplier
      end
  end.

(** The [while] loop after a forced hit that did not bust. *)
Fixpoint hitLoop (fuel : nat) (strategy : Strategy.t) (dealerCard : Card)
         (cs : list Card) : M (list Card) :=
  match fuel with
  | O => outOfFuel
  | S f =>
      if isBust cs || isBlackjack cs then ret cs
      else
        let handAction :=
          Strategy.getAction strategy (totalLabel cs) (dealerCardLabel dealerCard)
                             false false 0 in
        if String.eqb handAction "H" then
          do c <- dealCardUncounted;
          if isBust (cs ++ [c]) then ret (cs ++ [c])
          else hitLoop f strategy dealerCard (cs ++ [c])
        else ret cs
  end.

(** The play of the player's hands under the forced action: the final
    hands and [betMultiplier]. *)
Definition forcedPlay (fuel : nat) (playerCards : list Card) (dealerCard : Card)
           (forcedAction : string) (strategy : Strategy.t) (canDouble canSplit : bool)
  : M (list ForcedHand * Z) :=
  if String.eqb forcedAction "P" && canSplit && BlackjackGame.canSplit playerCards then
    match popCard playerCards with
    | None => fun _ => TypeError
    | Some (card, rest) =>
        do c1 <- dealCardUncounted;
        do c2 <- dealCardUncounted;
        splitLoop fuel strategy dealerCard 0
                  [ {| f_cards := rest ++ [c1]; f_bet := 1 |};
                    {| f_cards := [card; c2]; f_bet := 1 |} ] 2
    end
  else if String.eqb forcedAction "D" && canDouble then
    do c <- dealCardUncounted;
    ret ([ {| f_cards := playerCards ++ [c]; f_bet := 1 |} ], 2)
  else if String.eqb forcedAction "H" then
    do c <- dealCardUncounted;
    do cs <- (if isBust (playerCards ++ [c]) then ret (playerCards ++ [c])
              else hitLoop fuel strategy dealerCard (playerCards ++ [c]));
    ret ([ {| f_cards := cs; f_bet := 1 |} ], 1)
  else ret ([ {| f_cards := playerCards; f_bet := 1 |} ], 1).

(** One turn of the loop that evaluates the hands. *)
Definition evaluateHand (betSize : Q) (dealerValue : Z) (dealerBust : bool)
           (handWinnings : Q) (hand : ForcedHand) : Q :=
  let stake := (betSize * inject_Z (f_bet hand))%Q in
  let playerValue := hvalue (calculateHandValue (f_cards hand)) in
  if 21 <? playerValue then (handWinnings - stake)%Q
  else if dealerBust then (handWinnings + stake)%Q
  else if dealerValue <? playerValue then (handWinnings + stake)%Q
  else if playerValue <? dealerValue then (handWinnings - stake)%Q
  else handWinnings.

(** [simulateHandWithAction(game, playerCards, dealerCard, forcedAction,
    strategy, betSize, canDouble, canSplit)], the game being the state. *)
Definition simulateHandWithAction (fuel : nat) (playerCards : list Card) (dealerCard : Card)
           (forcedAction : string) (strategy : Strategy.t) (betSize : Q)
           (canDouble canSplit : bool) : M GameResult :=
  do c <- dealCardUncounted;
  let dealerHand := [dealerCard; c] in
  do s <- get;
  if isBlackjack dealerHand then
    if isBlackjack playerCards then
      ret {| result := "push"; winnings := 0%Q; bet := betSize;
             playerCards := playerCards; dealerCards := dealerHand;
             hands := None; initialDecision := None |}
    else
      ret {| result := "lose"; winnings := (- betSize)%Q; bet := betSize;
             playerCards := playerCards; dealerCards := dealerHand;
             hands := None; initialDecision := None |}
  else if isBlackjack playerCards then
    ret {| result := "blackjack"; winnings := (betSize * payout (rules s))%Q;
           bet := betSize; playerCards := playerCards; dealerCards := dealerHand;
           hands := None; initialDecision := None |}
  else
    do played <-
       forcedPlay fuel playerCards dealerCard forcedAction strategy canDouble canSplit;
    let '(finalPlayerHands, betMultiplier) := played in
    do dealerFinal <- playDealer fuel dealerHand;
    let dealerValue := hvalue (calculateHandValue dealerFinal) in
    let dealerBust := 21 <? dealerValue in
    let handWinnings :=
      foldl (evaluateHand betSize dealerValue dealerBust) 0%Q finalPlayerHands in
    let totalWinnings := (handWinnings * inject_Z betMultiplier)%Q in
    ret {| result := outcomeTag totalWinnings;
           winnings := totalWinnings;
           bet := (betSize * inject_Z betMultiplier)%Q;
           playerCards := playerCards;
           dealerCards := dealerFinal;
           hands := None; initialDecision := None |}.

End Simulator.

(** ** Notions used in the statements *)

(** The value of a card with an Ace counted 1. *)
Definition hardValue (c : Card) : Z :=
  if String.eqb (rank c) "A" then 1 else value c.

(** The total of a hand with every Ace counted 1. *)
Definition hardSum (cards : list Card) : Z :=
  foldr (λ c acc, hardValue c + acc) 0 cards.

Definition aceCount (cards : list Card) : nat :=
  length (filter (λ c, rank c = "A") cards).

(** A shoe that can always hand out a card of the data model: it has at
    least one deck and holds cards of the data model only. *)
Definition deck_ok (d : Deck.t) : Prop :=
  (0 < Deck.numDecks d)%nat ∧ Forall card_wf (Deck.cards d).

(** [n] successive calls of [dealCard(counter)] on the same shoe. *)
Fixpoint dealMany (n : nat) (d : Deck.t) (counter : option CardCounter.t) (g : Rng)
  : option (list Card * Deck.t * option CardCounter.t * Rng) :=
  match n with
  | O => Some ([], d, counter, g)
  | S n' =>
      match Deck.dealCard d counter g with
      | Some (c, d1, k1, g1) =>
          match dealMany n' d1 k1 g1 with
          | Some (cs, d2, k2, g2) => Some (c :: cs, d2, k2, g2)
          | None => None
          end
      | None => None
      end
  end.

(** The penetration expected after [k] cards dealt out of a shoe of [n]
    decks: [k / (n * 52) * 100]. *)
Definition penetrationOf (k n : nat) : Q :=
  ((inject_Z (Z.of_nat k) / inject_Z (Z.of_nat (n * 52))) * 100)%Q.

(** The rule of the dealer in the words of the specification: draw while
    the total is below 17, or is a soft 17 under the hit-soft-17 rule. *)
Definition dealerDrawsSpec (r : BlackjackGame.Rules) (hand : list Card) : Prop :=
  let hv := BlackjackGame.calculateHandValue hand in
  BlackjackGame.hvalue hv < 17
  ∨ (BlackjackGame.hvalue hv = 17 ∧ BlackjackGame.isSoft hv = true
     ∧ BlackjackGame.dealerStandsOn r ≠ "17s").

#[global] Instance card_wf_dec (c : Card) : Decision (card_wf c).
Proof. unfold card_wf. apply _. Defined.

#[global] Instance deck_ok_dec (d : Deck.t) : Decision (deck_ok d).
Proof. unfold deck_ok. apply _. Defined.

(** The balance of the outcome counters after the hands simulated so far. *)
Definition tallied (r : Simulator.Results) : Prop :=
  Simulator.wins r + Simulator.losses r + Simulator.pushes r = Simulator.totalGames r
  ∧ 0 <= Simulator.blackjacks r <= Simulator.wins r.

(** [n] successive calls of [playGame(strategy, betSize)] on the same game:
    the results in the order of play. *)
Fixpoint playGames (fuel : nat) (strategy : Strategy.t) (betSize : Q) (n : nat)
  : BlackjackGame.M (list BlackjackGame.GameResult) :=
  match n with
  | O => BlackjackGame.ret []
  | S n' =>
      BlackjackGame.bind (BlackjackGame.playGame fuel strategy betSize)
        (λ g, BlackjackGame.bind (playGames fuel strategy betSize n')
                (λ gs, BlackjackGame.ret (g :: gs)))
  end.

(** The number of results that carry a tag. *)
Definition countTag (tag : string) (games : list BlackjackGame.GameResult) : Z :=
  Z.of_nat (length (filter (λ g, BlackjackGame.result g = tag) games)).

(** ** Sample data for the worked instances *)

(** A random source that answers the first requests from [picks] and every
    later request [k] with [top - k]: on a shoe of [top + 1] cards the
    shuffle then moves the picked cards to the dealing end and leaves the
    others where they are. *)
Definition riggedRng (picks : list nat) (top : nat) : Rng :=
  {| draws := λ k, default (top - k)%nat (picks !! k); cursor := 0 |}.

(** A shoe of one deck before its first shuffle. *)
Definition emptyShoe : Deck.t :=
  {| Deck.numDecks := 1; Deck.cards := []; Deck.usedCards := [];
     Deck.penetration := 0%Q; Deck.penetrationThreshold := 75%Q |}.

(** A game on a one deck shoe shuffled with [riggedRng picks 51]. *)
Definition sampleGame (r : BlackjackGame.Rules) (picks : list nat) : BlackjackGame.t :=
  let '(d, _, g) := Deck.shuffle emptyShoe None (riggedRng picks 51) in
  {| BlackjackGame.deck := d; BlackjackGame.rules := r;
     BlackjackGame.counter := None; BlackjackGame.random := g |}.

(** The basic strategy loaded into a new table. *)
Definition basicStrategy : Strategy.t := Strategy.loadBasicStrategy Strategy.new.

(** The accumulator of one cell after the first [n] trials, the winnings
    it has summed, and their mean as the summary reports it. *)
Definition cellAfter (sim : nat -> string -> string -> BlackjackGame.GameResult)
           (dealer action : string) (n : nat) : Simulator.CellResult :=
  foldl (λ c i, Simulator.record (sim i dealer action) c) Simulator.zeroCell (seq 0 n).

Definition sumWinnings (sim : nat -> string -> string -> BlackjackGame.GameResult)
           (dealer action : string) (n : nat) : Q :=
  foldl (λ acc i, (acc + BlackjackGame.winnings (sim i dealer action))%Q) 0%Q (seq 0 n).

Definition meanWinnings (sim : nat -> string -> string -> BlackjackGame.GameResult)
           (dealer action : string) (n : nat) : Q :=
  if 0 <? Z.of_nat n
  then (sumWinnings sim dealer action n / inject_Z (Z.of_nat n))%Q
  else 0%Q.

(** A game result for the worked instances: a win of one stake of 100. *)
Definition sampleWin : BlackjackGame.GameResult :=
  {| BlackjackGame.result := "win"; BlackjackGame.winnings := 100%Q;
     BlackjackGame.bet := 100%Q; BlackjackGame.playerCards := [];
     BlackjackGame.dealerCards := []; BlackjackGame.hands := None;
     BlackjackGame.initialDecision := None |}.

(** The default rules with resplitting switched off. *)
Definition noResplitRules : BlackjackGame.Rules :=
  {| BlackjackGame.dealerStandsOn := "17"; BlackjackGame.doubleAfterSplit := true;
     BlackjackGame.allowResplit := false; BlackjackGame.resplitAces := false;
     BlackjackGame.blackjackPays := "3:2" |}.

(** A shoe dealing 8, 8 to the player, 10, 7 to the dealer, then 3, 8, 5
    and 10. *)
Definition eightsGame : BlackjackGame.t :=
  sampleGame noResplitRules [7; 20; 9; 6; 2; 33; 4; 22]%nat.

(** A shoe dealing 10, 6 to the player, 10, 7 to the dealer, then a 5. *)
Definition sixteenGame : BlackjackGame.t :=
  sampleGame BlackjackGame.defaultRules [9; 5; 22; 6; 4]%nat.

(** A shoe dealing A, 10 to the player and 10, 7 to the dealer: a
    blackjack for the player in the first game. *)
Definition blackjackGame : BlackjackGame.t :=
  sampleGame BlackjackGame.defaultRules [0; 9; 22; 6; 4]%nat.

(** The work list after a first split of eights: 8, 8 again at index 0
    and 8, 3 behind it. *)
Definition splitWorklist : list BlackjackGame.Hand.t :=
  [ {| BlackjackGame.Hand.cards := [mkCard "8" Spades; mkCard "8" Diamonds];
       BlackjackGame.Hand.bet := 1; BlackjackGame.Hand.result := None |};
    {| BlackjackGame.Hand.cards := [mkCard "8" Hearts; mkCard "3" Spades];
       BlackjackGame.Hand.bet := 1; BlackjackGame.Hand.result := None |} ].

(** ** Notions used in the further properties *)

#[global] Instance Suit_eq_dec : EqDecision Suit.
Proof. solve_decision. Defined.

#[global] Instance Card_eq_dec : EqDecision Card.
Proof. solve_decision. Defined.

(** The cards of a shoe, drawable and used together, are those of
    [numDecks] fresh decks. *)
Definition deckInv (d : Deck.t) : Prop :=
  Deck.cards d ++ Deck.usedCards d ≡ₚ Deck.freshCards (Deck.numDecks d).

(** The sum of the weights a table of card values gives to some cards;
    a rank the table does not list weighs 0. *)
Definition weightSum (w : gmap string Z) (cs : list Card) : Z :=
  foldr (λ card acc, default 0 (w !! rank card) + acc) 0 cs.

(** The four action letters of the engine. *)
Definition knownAction (a : string) : Prop := a ∈ ["H"; "S"; "D"; "P"].

(** Every entry of a table, and of a table of count levels, is one of the
    four action letters. *)
Definition tableKnown (tbl : gmap string (gmap string string)) : Prop :=
  map_Forall (λ _ row, map_Forall (λ _ a, knownAction a) row) tbl.

Definition countTableKnown (tbl : gmap string (gmap string (gmap string string))) : Prop :=
  map_Forall (λ _ sub, tableKnown sub) tbl.

Definition strategyKnown (s : Strategy.t) : Prop :=
  tableKnown (Strategy.hard s) ∧ tableKnown (Strategy.soft s)
  ∧ tableKnown (Strategy.pairs s)
  ∧ countTableKnown (Strategy.hardByCount s) ∧ countTableKnown (Strategy.softByCount s)
  ∧ countTableKnown (Strategy.pairsByCount s).

#[global] Instance knownAction_dec a : Decision (knownAction a).
Proof. unfold knownAction. apply _. Defined.

#[global] Instance tableKnown_dec tbl : Decision (tableKnown tbl).
Proof. unfold tableKnown. apply _. Defined.

#[global] Instance countTableKnown_dec tbl : Decision (countTableKnown tbl).
Proof. unfold countTableKnown. apply _. Defined.

#[global] Instance strategyKnown_dec s : Decision (strategyKnown s).
Proof. unfold strategyKnown. apply _. Defined.

(** The labels the engine looks up: hard totals 5 to 21, soft totals S13 to
    S21, and the pairs 2,2 to 10,10 and A,A. *)
Definition hardLabels : list string := JS.toString <$> seqZ 5 17.

Definition softLabels : list string := (λ n, "S" +:+ JS.toString n) <$> seqZ 13 9.

Definition pairLabels : list string :=
  (λ l, l +:+ "," +:+ l) <$> ["2"; "3"; "4"; "5"; "6"; "7"; "8"; "9"; "10"; "A"].

(** The rows [setAction] writes into exist: 5 to 21 in [hard], 13 to 21 in
    [soft], 2 to 11 in [pairs]. *)
Definition rowsPresent (s : Strategy.t) : Prop :=
  (∀ n, 5 <= n <= 21 → is_Some (Strategy.hard s !! JS.toString n))
  ∧ (∀ n, 13 <= n <= 21 → is_Some (Strategy.soft s !! JS.toString n))
  ∧ (∀ n, 2 <= n <= 11 → is_Some (Strategy.pairs s !! JS.toString n)).

(** What [importData] receives for an empty object. *)
Definition emptyData : Strategy.Data :=
  {| Strategy.d_countBased := None; Strategy.d_hard := None; Strategy.d_soft := None;
     Strategy.d_pairs := None; Strategy.d_hardByCount := None;
     Strategy.d_softByCount := None; Strategy.d_pairsByCount := None |}.

(** Two tables agree on every cell but the one of [key] and [dealer]. *)
Definition sameCellsBut (tbl tbl' : gmap string (gmap string string))
           (key dealer : string) : Prop :=
  ∀ k d, k ≠ key ∨ d ≠ dealer → tbl' !! k ≫= (.!! d) = tbl !! k ≫= (.!! d).

(** A table with the single row 16 of hard totals, for worked instances. *)
Definition tinyStrategy : Strategy.t :=
  {| Strategy.hard := {["16" := ∅]}; Strategy.soft := ∅; Strategy.pairs := ∅;
     Strategy.countBased := false; Strategy.hardByCount := ∅;
     Strategy.softByCount := ∅; Strategy.pairsByCount := ∅ |}.

(** The sum of the bets of some hands, in units of the stake. *)
Definition betSum (hs : list BlackjackGame.Hand.t) : Z :=
  foldr (λ h acc, BlackjackGame.Hand.bet h + acc) 0 hs.

(** A hand the loop of [playHand] has not finished with: a single stake
    and no result. *)
Definition freshHand (h : BlackjackGame.Hand.t) : Prop :=
  BlackjackGame.Hand.bet h = 1 ∧ BlackjackGame.Hand.result h = None.

(** A hand as the loop of [playHand] leaves it: a single stake, or a
    doubled one on exactly three cards; no result, or the mark of a loss
    on a bust hand. *)
Definition playedHand (h : BlackjackGame.Hand.t) : Prop :=
  (BlackjackGame.Hand.bet h = 1
   ∨ BlackjackGame.Hand.bet h = 2 ∧ length (BlackjackGame.Hand.cards h) = 3%nat)
  ∧ (BlackjackGame.Hand.result h = None
     ∨ BlackjackGame.Hand.result h = Some "lose"
       ∧ BlackjackGame.isBust (BlackjackGame.Hand.cards h) = true).

(** The shoe of a running game: at least one deck, and the cards of that
    many fresh decks in the two piles. *)
Definition shoeInv (s : BlackjackGame.t) : Prop :=
  (0 < Deck.numDecks (BlackjackGame.deck s))%nat ∧ deckInv (BlackjackGame.deck s).

(** A property of the state of a game that dealing a card keeps, and one
    that a reshuffle keeps as well. *)
Definition dealStable (I : BlackjackGame.t → Prop) : Prop :=
  ∀ s c s', BlackjackGame.dealCard s = BlackjackGame.Done c s' → I s → I s'.

Definition gameStable (I : BlackjackGame.t → Prop) : Prop :=
  dealStable I
  ∧ ∀ s u s', BlackjackGame.shuffle s = BlackjackGame.Done u s' → I s → I s'.

(** The running count of the counter attached to a game is the weight its
    table of card values gives to the used pile of the shoe. *)
Definition countInSync (s : BlackjackGame.t) : Prop :=
  match BlackjackGame.counter s with
  | Some k =>
      CardCounter.runningCount k
      = weightSum (CardCounter.cardValues k) (Deck.usedCards (BlackjackGame.deck s))
  | None => True
  end.

(** The game of [eightsGame] with a Hi-Lo counter attached. *)
Definition countedGame : BlackjackGame.t :=
  {| BlackjackGame.deck := BlackjackGame.deck eightsGame;
     BlackjackGame.rules := BlackjackGame.rules eightsGame;
     BlackjackGame.counter := Some (CardCounter.new "Hi-Lo");
     BlackjackGame.random := BlackjackGame.random eightsGame |}.

(** The total of a figure over the entries of a table. *)
Definition mapTotal {A} (f : A → Z) (m : gmap string A) : Z :=
  map_fold (λ _ x acc, f x + acc) 0 m.

(** A cell of [cellStats] that has seen a hand, and whose wins, losses and
    pushes add up to its hands. *)
Definition cellBalanced (c : Simulator.Cell) : Prop :=
  0 <= Simulator.c_wins c ∧ 0 <= Simulator.c_losses c ∧ 0 <= Simulator.c_pushes c
  ∧ Simulator.c_wins c + Simulator.c_losses c + Simulator.c_pushes c = Simulator.c_hands c
  ∧ 0 < Simulator.c_hands c.

(** A hand of a forced split as its loop leaves it: a single stake, or a
    doubled one on exactly three cards. *)
Definition forcedOK (h : Simulator.ForcedHand) : Prop :=
  Simulator.f_bet h = 1 ∨ Simulator.f_bet h = 2 ∧ length (Simulator.f_cards h) = 3%nat.

(** A property of the state of a game that dealing a card keeps, whether
    the counter is told or not. *)
Definition drawStable (I : BlackjackGame.t → Prop) : Prop :=
  dealStable I
  ∧ ∀ s c s', Simulator.dealCardUncounted s = BlackjackGame.Done c s' → I s → I s'.

(** The budget the loop of [playHand] needs for a hand: one test of the
    loop condition, and one more for every point the hand is short of 22
    with every Ace counted 1. *)
Definition handCost (h : BlackjackGame.Hand.t) : nat :=
  S (Z.to_nat (22 - hardSum (BlackjackGame.Hand.cards h))).

(** The budget for the hands from index [i] on; a lone hand may still be
    split once into two hands of at most 21 each. *)
Definition loopCost (i : nat) (hands : list BlackjackGame.Hand.t) : nat :=
  (sum_list (handCost <$> drop i hands) + (if (length hands =? 1)%nat then 46 else 0))%nat.

(** Rules under which a split hand is never split again. *)
Definition noResplit (r : BlackjackGame.Rules) : Prop :=
  BlackjackGame.allowResplit r = false ∧ BlackjackGame.resplitAces r = false.

(** ** Proof automation *)

(** Replaces [getCardValue r] in [H] by its value for a literal rank. *)
Ltac eval_rank H :=
  match type of H with
  | getCardValue ?r = _ =>
      let v := eval vm_compute in (getCardValue r) in
      change (getCardValue r) with v in H
  end.

(** Splits a card [c] of the data model into the thirteen ranks. *)
Ltac rank_cases c Hwf :=
  let Hr := fresh "Hr" in
  let Hv := fresh "Hv" in
  destruct c as [? ? ?]; destruct Hwf as [Hr Hv];
  cbn [rank value] in Hr, Hv |- *; unfold ranks in Hr;
  repeat (apply elem_of_cons in Hr as [-> | Hr];
          [eval_rank Hv; injection Hv as <- |]);
  [.. | by apply elem_of_nil in Hr].

(** Membership of a literal in a list of literals, and its refutation. *)
Ltac literal_in := by apply (bool_decide_unpack _).
Ltac literal_out :=
  let Hin := fresh "Hin" in
  intros Hin; exfalso;
  repeat (apply elem_of_cons in Hin as [Hin | Hin]; [done |]);
  by apply elem_of_nil in Hin.

(** * Properties *)

Import BlackjackGame.

(** ** Cards of the shoe *)

Lemma getCardValue_ranks r :
  r ∈ ranks → ∃ v, getCardValue r = Some v ∧ 2 <= v <= 11 ∧ (v = 11 ↔ r = "A").
Proof.
  unfold ranks. intros H.
  repeat (apply elem_of_cons in H as [-> | H];
          [eexists; split; [vm_compute; reflexivity |];
           split; [lia | split; intros ?; first [done | lia | discriminate]] |]).
  by apply elem_of_nil in H.
Qed.

Lemma mkCard_wf r s : r ∈ ranks → card_wf (mkCard r s).
Proof.
  intros H. split; [done |]. simpl.
  destruct (getCardValue_ranks r H) as (v & -> & _). done.
Qed.

Lemma card_wf_value c : card_wf c → 2 <= value c <= 11 ∧ (value c = 11 ↔ rank c = "A").
Proof.
  intros [Hr Hv]. destruct (getCardValue_ranks _ Hr) as (v & E & B & A).
  rewrite Hv in E. injection E as ->. done.
Qed.

Lemma card_wf_hardValue c : card_wf c → 1 <= hardValue c <= 10.
Proof.
  intros H. destruct (card_wf_value c H) as [B A]. unfold hardValue.
  destruct (String.eqb_spec (rank c) "A") as [E|E]; [lia |].
  assert (value c ≠ 11) by (intros V; apply E, A, V). lia.
Qed.

(** ** Hand valuation *)

Lemma fold_countCard cards v a :
  fold_left countCard cards (v, a)
  = (v + hardSum cards + 10 * Z.of_nat (aceCount cards), (a + aceCount cards)%nat).
Proof.
  revert v a. induction cards as [|c cs IH]; intros v a.
  - cbn. f_equal; lia.
  - cbn [fold_left]. unfold countCard at 2. unfold aceCount in *.
    rewrite filter_cons.
    change (hardSum (c :: cs)) with (hardValue c + hardSum cs). unfold hardValue.
    destruct (String.eqb_spec (rank c) "A") as [E|E].
    + rewrite decide_True by done. rewrite IH. cbn [length]. f_equal; lia.
    + rewrite decide_False by done. rewrite IH. f_equal; lia.
Qed.

Lemma sumCards_eq cards :
  sumCards cards = (hardSum cards + 10 * Z.of_nat (aceCount cards), aceCount cards).
Proof. unfold sumCards. rewrite fold_countCard. f_equal. Qed.

Lemma adjustAces_spec v a :
  (snd (adjustAces v a) <= a)%nat
  ∧ fst (adjustAces v a) = v - 10 * (Z.of_nat a - Z.of_nat (snd (adjustAces v a)))
  ∧ ((0 < snd (adjustAces v a))%nat → fst (adjustAces v a) <= 21)
  ∧ ((snd (adjustAces v a) < a)%nat → 11 < fst (adjustAces v a)).
Proof.
  revert v. induction a as [|a IH]; intros v; cbn [adjustAces].
  - cbn. repeat split; lia.
  - destruct (Z.ltb_spec 21 v) as [H|H].
    + destruct (IH (v - 10)) as (I1 & I2 & I3 & I4).
      repeat split; lia.
    + cbn. repeat split; lia.
Qed.

(** The total is the hard sum plus ten for every Ace still counted 11. *)
Lemma value_decompose cards :
  ∃ k : nat,
    (k <= aceCount cards)%nat
    ∧ hvalue (calculateHandValue cards) = hardSum cards + 10 * Z.of_nat k
    ∧ isSoft (calculateHandValue cards) = bool_decide (0 < k)%nat
    ∧ ((0 < k)%nat → hvalue (calculateHandValue cards) <= 21)
    ∧ ((k < aceCount cards)%nat → 11 < hvalue (calculateHandValue cards)).
Proof.
  unfold calculateHandValue. rewrite sumCards_eq.
  pose proof (adjustAces_spec (hardSum cards + 10 * Z.of_nat (aceCount cards)) (aceCount cards))
    as (I1 & I2 & I3 & I4).
  destruct (adjustAces _ _) as [v k]. cbn in *.
  exists k. repeat split; try lia; try done.
  destruct k as [|k'].
  - rewrite bool_decide_false by lia. done.
  - rewrite bool_decide_true by lia. apply Z.leb_le, I3. lia.
Qed.

Lemma hardSum_app l1 l2 : hardSum (l1 ++ l2) = hardSum l1 + hardSum l2.
Proof.
  induction l1 as [|c l IH]; [done |].
  change (hardSum ((c :: l) ++ l2)) with (hardValue c + hardSum (l ++ l2)).
  change (hardSum (c :: l)) with (hardValue c + hardSum l). lia.
Qed.

Lemma hardSum_ge_aces cards :
  Forall card_wf cards → Z.of_nat (aceCount cards) <= hardSum cards.
Proof.
  induction 1 as [|c cs Hc _ IH]; [done |].
  change (hardSum (c :: cs)) with (hardValue c + hardSum cs).
  unfold aceCount in *. rewrite filter_cons.
  pose proof (card_wf_hardValue c Hc).
  destruct (decide (rank c = "A")); cbn [length]; lia.
Qed.

Lemma value_soft_bound cards :
  Forall card_wf cards →
  hardSum cards <= hvalue (calculateHandValue cards) <= hardSum cards + 10.
Proof.
  intros Hwf. destruct (value_decompose cards) as (k & K1 & K2 & _ & K4 & _).
  pose proof (hardSum_ge_aces cards Hwf).
  destruct (decide (k <= 1)%nat); [lia |].
  assert (hvalue (calculateHandValue cards) <= 21) by (apply K4; lia). lia.
Qed.

Lemma value_hard cards :
  isSoft (calculateHandValue cards) = false →
  hvalue (calculateHandValue cards) = hardSum cards.
Proof.
  intros Hs. destruct (value_decompose cards) as (k & _ & K2 & K3 & _).
  rewrite Hs in K3. symmetry in K3. apply bool_decide_eq_false in K3.
  replace k with O in K2 by lia. lia.
Qed.

Lemma value_ge_hardSum cards : hardSum cards <= hvalue (calculateHandValue cards).
Proof. destruct (value_decompose cards) as (k & _ & K2 & _). lia. Qed.

(** C2, as stated, fails: a soft 20 (Ace, 9) becomes a hard 15 when a 5
    is appended, so the total is not monotone in the cards. *)
Lemma calculateHandValue_not_monotone :
  Forall card_wf [mkCard "A" Spades; mkCard "9" Hearts; mkCard "5" Clubs]
  ∧ hvalue (calculateHandValue [mkCard "A" Spades; mkCard "9" Hearts]) = 20
  ∧ hvalue (calculateHandValue ([mkCard "A" Spades; mkCard "9" Hearts] ++ [mkCard "5" Clubs])) = 15
  ∧ ¬ (hvalue (calculateHandValue ([mkCard "A" Spades; mkCard "9" Hearts] ++ [mkCard "5" Clubs]))
       >= hvalue (calculateHandValue [mkCard "A" Spades; mkCard "9" Hearts])).
Proof.
  split; [| split; [reflexivity | split; [reflexivity | vm_compute; intros H; by apply H]]].
  repeat constructor; vm_compute; repeat constructor.
Qed.

(** C2, amended: over cards of the data model, appending a card to a hand
    that is not soft never lowers the total returned by
    [calculateHandValue]; appending to a soft hand may lower it, but by no
    more than 9. *)
Theorem calculateHandValue_append (h : list Card) (c : Card) :
  Forall card_wf (h ++ [c]) →
  (isSoft (calculateHandValue h) = false →
   hvalue (calculateHandValue (h ++ [c])) >= hvalue (calculateHandValue h))
  ∧ hvalue (calculateHandValue (h ++ [c])) >= hvalue (calculateHandValue h) - 9.
Proof.
  intros Hwf. apply Forall_app in Hwf as [Hh Hc].
  rewrite Forall_singleton in Hc. pose proof (card_wf_hardValue c Hc) as Hv.
  pose proof (value_ge_hardSum (h ++ [c])) as Hge.
  rewrite hardSum_app in Hge.
  change (hardSum [c]) with (hardValue c + 0) in Hge.
  split.
  - intros Hs. rewrite (value_hard h Hs). lia.
  - pose proof (value_soft_bound h Hh). lia.
Qed.

Lemma calculateHandValue_append_witness :
  (isSoft (calculateHandValue [mkCard "10" Spades; mkCard "6" Hearts]) = false →
   hvalue (calculateHandValue ([mkCard "10" Spades; mkCard "6" Hearts] ++ [mkCard "5" Clubs]))
   >= hvalue (calculateHandValue [mkCard "10" Spades; mkCard "6" Hearts]))
  ∧ hvalue (calculateHandValue ([mkCard "10" Spades; mkCard "6" Hearts] ++ [mkCard "5" Clubs]))
    >= hvalue (calculateHandValue [mkCard "10" Spades; mkCard "6" Hearts]) - 9.
Proof.
  apply (calculateHandValue_append [mkCard "10" Spades; mkCard "6" Hearts] (mkCard "5" Clubs)).
  repeat constructor; vm_compute; repeat constructor.
Defined.

Lemma card_wf_ten c :
  card_wf c → (value c = 10 ↔ rank c ∈ ["10"; "J"; "Q"; "K"]).
Proof.
  intros Hwf. rank_cases c Hwf; by apply (bool_decide_unpack _).
Qed.

Lemma calculateHandValue_two c1 c2 :
  card_wf c1 → card_wf c2 →
  (hvalue (calculateHandValue [c1; c2]) = 21
   ↔ (rank c1 = "A" ∧ value c2 = 10) ∨ (value c1 = 10 ∧ rank c2 = "A")).
Proof.
  intros H1 H2. rank_cases c1 H1; rank_cases c2 H2; by apply (bool_decide_unpack _).
Qed.

(** C3: over cards of the data model, [isBlackjack] holds exactly for the
    two card hands made of an Ace and a card of value 10, that is a 10, a
    Jack, a Queen or a King. *)
Theorem isBlackjack_iff (cards : list Card) :
  Forall card_wf cards →
  (isBlackjack cards = true
   ↔ ∃ c1 c2, cards = [c1; c2]
       ∧ ((rank c1 = "A" ∧ value c2 = 10 ∧ rank c2 ∈ ["10"; "J"; "Q"; "K"])
          ∨ (value c1 = 10 ∧ rank c1 ∈ ["10"; "J"; "Q"; "K"] ∧ rank c2 = "A"))).
Proof.
  intros Hwf. unfold isBlackjack. rewrite andb_true_iff, Nat.eqb_eq, Z.eqb_eq. split.
  - intros [Hlen Hv].
    destruct cards as [|c1 [|c2 [|c3 cs]]]; try discriminate Hlen.
    apply Forall_cons in Hwf as [W1 W2]. apply Forall_cons in W2 as [W2 _].
    exists c1, c2. split; [done |].
    apply (calculateHandValue_two c1 c2 W1 W2) in Hv as [[A T] | [T A]].
    + left. split; [done |]. split; [done |]. by apply card_wf_ten.
    + right. split; [done |]. split; [by apply card_wf_ten | done].
  - intros (c1 & c2 & -> & H).
    apply Forall_cons in Hwf as [W1 W2]. apply Forall_cons in W2 as [W2 _].
    split; [done |]. apply (calculateHandValue_two c1 c2 W1 W2).
    destruct H as [(A & T & _) | (T & _ & A)]; [by left | by right].
Qed.

Lemma isBlackjack_iff_witness :
  isBlackjack [mkCard "A" Spades; mkCard "K" Hearts] = true
  ↔ ∃ c1 c2, [mkCard "A" Spades; mkCard "K" Hearts] = [c1; c2]
      ∧ ((rank c1 = "A" ∧ value c2 = 10 ∧ rank c2 ∈ ["10"; "J"; "Q"; "K"])
         ∨ (value c1 = 10 ∧ rank c1 ∈ ["10"; "J"; "Q"; "K"] ∧ rank c2 = "A")).
Proof.
  apply (isBlackjack_iff [mkCard "A" Spades; mkCard "K" Hearts]).
  repeat constructor; vm_compute; repeat constructor.
Defined.

(** ** The shoe *)

Lemma pop_spec l :
  match Deck.pop l with
  | Some (c, rest) => l = rest ++ [c]
  | None => l = []
  end.
Proof.
  unfold Deck.pop. destruct (reverse l) as [|c r] eqn:E.
  - apply (f_equal reverse) in E. by rewrite reverse_involutive in E.
  - apply (f_equal reverse) in E. rewrite reverse_involutive, reverse_cons in E. done.
Qed.

Lemma swap_length l i j : length (Deck.swap l i j) = length l.
Proof.
  unfold Deck.swap. destruct (l !! i), (l !! j); try done.
  by rewrite !length_insert.
Qed.

Lemma swap_Forall (P : Card → Prop) l i j : Forall P l → Forall P (Deck.swap l i j).
Proof.
  intros H. unfold Deck.swap.
  destruct (l !! i) as [x|] eqn:Ei; [| done].
  destruct (l !! j) as [y|] eqn:Ej; [| done].
  assert (P x) by (eapply Forall_lookup_1; eauto).
  assert (P y) by (eapply Forall_lookup_1; eauto).
  by repeat apply Forall_insert.
Qed.

Lemma fisherYates_length i l g : length (Deck.fisherYates i l g).1 = length l.
Proof.
  revert l g. induction i as [|i IH]; intros l g; [done |].
  cbn [Deck.fisherYates]. destruct (randomBelow g (S (S i))) as [j g'].
  rewrite IH. apply swap_length.
Qed.

Lemma fisherYates_Forall (P : Card → Prop) i l g :
  Forall P l → Forall P (Deck.fisherYates i l g).1.
Proof.
  revert l g. induction i as [|i IH]; intros l g H; [done |].
  cbn [Deck.fisherYates]. destruct (randomBelow g (S (S i))) as [j g'].
  by apply IH, swap_Forall.
Qed.

Lemma oneDeck_wf : Forall card_wf Deck.oneDeck.
Proof.
  unfold Deck.oneDeck. apply Forall_forall. intros c Hc.
  apply list_elem_of_bind in Hc as (s & Hc & _).
  apply list_elem_of_bind in Hc as (r & Hc & Hr).
  apply list_elem_of_singleton in Hc as ->. by apply mkCard_wf.
Qed.

Lemma freshCards_S n : Deck.freshCards (S n) = Deck.oneDeck ++ Deck.freshCards n.
Proof. reflexivity. Qed.

Lemma freshCards_wf n : Forall card_wf (Deck.freshCards n).
Proof.
  induction n as [|n IH]; [constructor |].
  rewrite freshCards_S. apply Forall_app. split; [apply oneDeck_wf | apply IH].
Qed.

Lemma freshCards_length n : length (Deck.freshCards n) = (n * 52)%nat.
Proof.
  induction n as [|n IH]; [done |].
  rewrite freshCards_S, length_app, IH. reflexivity.
Qed.

Lemma shuffle_spec d k g :
  ∃ cs g',
    Deck.shuffle d k g
    = ({| Deck.numDecks := Deck.numDecks d; Deck.cards := cs; Deck.usedCards := [];
          Deck.penetration := 0%Q;
          Deck.penetrationThreshold := Deck.penetrationThreshold d |},
       CardCounter.reset <$> k, g')
    ∧ length cs = (Deck.numDecks d * 52)%nat ∧ Forall card_wf cs.
Proof.
  unfold Deck.shuffle.
  pose proof (fisherYates_length (length (Deck.freshCards (Deck.numDecks d)) - 1)
                (Deck.freshCards (Deck.numDecks d)) g) as HL.
  pose proof (fisherYates_Forall card_wf (length (Deck.freshCards (Deck.numDecks d)) - 1)
                (Deck.freshCards (Deck.numDecks d)) g (freshCards_wf _)) as HF.
  destruct (Deck.fisherYates _ _ g) as [cs g']. cbn in HL, HF.
  exists cs, g'. split; [done |]. split; [| done].
  by rewrite HL, freshCards_length.
Qed.

(** A card is handed out whenever the shoe is in order, and the shoe stays
    in order. *)
Lemma dealCard_ok d k g :
  deck_ok d →
  ∃ c d' g',
    Deck.dealCard d k g
    = Some (c, d', (λ x, CardCounter.updateCount x c)
                     <$> (if (length (Deck.cards d) =? 0)%nat then CardCounter.reset <$> k else k),
            g')
    ∧ card_wf c ∧ deck_ok d'
    ∧ Deck.numDecks d' = Deck.numDecks d
    ∧ Deck.penetrationThreshold d' = Deck.penetrationThreshold d
    ∧ Deck.penetration d' = penetrationOf (length (Deck.usedCards d')) (Deck.numDecks d)
    ∧ length (Deck.usedCards d')
      = (if (length (Deck.cards d) =? 0)%nat then 1 else S (length (Deck.usedCards d)))%nat
    ∧ S (length (Deck.cards d'))
      = (if (length (Deck.cards d) =? 0)%nat then Deck.numDecks d * 52
         else length (Deck.cards d))%nat.
Proof.
  intros [Hn Hwf]. unfold Deck.dealCard.
  destruct (length (Deck.cards d) =? 0)%nat eqn:E.
  - destruct (shuffle_spec d k g) as (cs & g' & -> & HL & HF).
    cbn [Deck.cards Deck.usedCards Deck.numDecks Deck.penetrationThreshold].
    pose proof (pop_spec cs) as HP. destruct (Deck.pop cs) as [[c rest]|].
    + subst cs. apply Forall_app in HF as [HR HC]. rewrite Forall_singleton in HC.
      rewrite length_app in HL. cbn in HL.
      eexists _, _, _. split; [reflexivity |].
      cbn. split_and!; try done; lia.
    + subst cs. cbn in HL. lia.
  - apply Nat.eqb_neq in E.
    pose proof (pop_spec (Deck.cards d)) as HP.
    destruct (Deck.pop (Deck.cards d)) as [[c rest]|].
    + rewrite HP in Hwf, E |- *. apply Forall_app in Hwf as [HR HC].
      rewrite Forall_singleton in HC.
      eexists _, _, _. split; [reflexivity |].
      cbn. rewrite !length_app. cbn. split_and!; try done; lia.
    + by rewrite HP in E.
Qed.

Lemma penetrationOf_0 n : (0 == penetrationOf 0 n)%Q.
Proof.
  unfold penetrationOf, Qdiv. change (inject_Z (Z.of_nat 0)) with 0%Q.
  by rewrite !Qmult_0_l.
Qed.

(** While the shoe holds enough cards no reshuffle interferes: [n] deals
    add [n] used cards and keep the penetration in step. *)
Lemma dealMany_penetration n :
  ∀ d k g,
    deck_ok d → (n <= length (Deck.cards d))%nat →
    (Deck.penetration d == penetrationOf (length (Deck.usedCards d)) (Deck.numDecks d))%Q →
    ∃ cs dn kn gn,
      dealMany n d k g = Some (cs, dn, kn, gn)
      ∧ deck_ok dn
      ∧ Deck.numDecks dn = Deck.numDecks d
      ∧ length cs = n
      ∧ length (Deck.usedCards dn) = (length (Deck.usedCards d) + n)%nat
      ∧ (length (Deck.cards dn) + n)%nat = length (Deck.cards d)
      ∧ (Deck.penetration dn
         == penetrationOf (length (Deck.usedCards dn)) (Deck.numDecks d))%Q.
Proof.
  induction n as [|n IH]; intros d k g Hok Hn Hpen.
  - exists [], d, k, g. cbn. split_and!; try done; lia.
  - destruct (dealCard_ok d k g Hok)
      as (c & d1 & g1 & E & _ & Hok1 & Hnd & _ & Hp1 & Hu1 & Hc1).
    destruct (length (Deck.cards d) =? 0)%nat eqn:Z0;
      [apply Nat.eqb_eq in Z0; lia |].
    destruct (IH d1 ((λ x, CardCounter.updateCount x c) <$> k) g1 Hok1)
      as (cs & dn & kn & gn & E2 & Hokn & Hndn & Hlen & Hun & Hcn & Hpn).
    + lia.
    + rewrite Hp1, Hnd. reflexivity.
    + exists (c :: cs), dn, kn, gn. cbn [dealMany]. rewrite E, E2.
      rewrite Hnd in Hpn. cbn [length]. split_and!; try done; lia.
Qed.

(** C8: the penetration field follows the number [n] of cards dealt since
    the last shuffle, [shouldReshuffle] is the conjunction of the two tests,
    and a reshuffle resets the penetration and the running count of the
    counter handed to it, which for a game is its own counter. *)
Theorem deck_penetration (d : Deck.t) (k : option CardCounter.t) (g : Rng) (n : nat) :
  deck_ok d → (n <= Deck.numDecks d * 52)%nat →
  (* a reshuffle *)
  (Deck.penetration (Deck.shuffle d k g).1.1 = 0%Q
   ∧ Deck.usedCards (Deck.shuffle d k g).1.1 = []
   ∧ CardCounter.runningCount <$> (Deck.shuffle d k g).1.2 = (λ _, 0) <$> k)
  (* [n] deals after it *)
  ∧ (∃ cs dn kn gn,
        dealMany n (Deck.shuffle d k g).1.1 (Deck.shuffle d k g).1.2 (Deck.shuffle d k g).2
        = Some (cs, dn, kn, gn)
        ∧ length cs = n
        ∧ length (Deck.usedCards dn) = n
        ∧ (Deck.penetration dn == penetrationOf n (Deck.numDecks d))%Q)
  (* one deal from any state *)
  ∧ (∃ c d' k' g',
        Deck.dealCard d k g = Some (c, d', k', g')
        ∧ length (Deck.usedCards d')
          = (if (length (Deck.cards d) =? 0)%nat then 1 else S (length (Deck.usedCards d)))%nat
        ∧ Deck.penetration d' = penetrationOf (length (Deck.usedCards d')) (Deck.numDecks d)
        ∧ ((length (Deck.cards d) =? 0)%nat = true →
           CardCounter.runningCount <$> k'
           = (λ x, default 0 (CardCounter.cardValues x !! rank c)) <$> k))
  (* the reshuffle test *)
  ∧ (Deck.shouldReshuffle d = true
     ↔ (Deck.penetrationThreshold d <= Deck.penetration d)%Q
       ∧ (length (Deck.cards d) < 52)%nat)
  (* the reshuffle of a game: its own counter is the one handed over *)
  ∧ (∀ s : t, ∃ s', shuffle s = Done tt s'
                    ∧ Deck.penetration (deck s') = 0%Q
                    ∧ CardCounter.runningCount <$> counter s' = (λ _, 0) <$> counter s).
Proof.
  intros Hok Hn. destruct (shuffle_spec d k g) as (cs & g' & E & HL & HF).
  rewrite E. cbn [fst snd Deck.penetration Deck.usedCards]. split_and!.
  - done.
  - done.
  - by destruct k.
  - edestruct (dealMany_penetration n) as (ds & dn & kn & gn & E2 & _ & _ & H1 & H2 & _ & H3).
    4: { exists ds, dn, kn, gn. split; [exact E2 |]. cbn in H2, H3.
         split; [done |]. split; [done |]. by rewrite H2 in H3. }
    + split; [apply Hok | exact HF].
    + cbn. lia.
    + cbn. apply penetrationOf_0.
  - destruct (dealCard_ok d k g Hok) as (c & d' & g1 & E1 & _ & _ & _ & _ & Hp & Hu & _).
    eexists c, d', _, g1. split; [exact E1 |]. split; [done |]. split; [done |].
    intros ->. by destruct k.
  - unfold Deck.shouldReshuffle. by rewrite andb_true_iff, Qle_bool_iff, Nat.ltb_lt.
  - intros s. unfold shuffle.
    destruct (shuffle_spec (deck s) (counter s) (random s)) as (cs' & g2 & -> & _).
    eexists. split; [reflexivity |]. split; [done |]. cbn. by destruct (counter s).
Qed.

(** ** The dealer *)

Lemma game_dealCard_ok (g : t) :
  deck_ok (deck g) →
  ∃ c g',
    dealCard g = Done c g'
    ∧ card_wf c ∧ deck_ok (deck g') ∧ rules g' = rules g
    ∧ Deck.dealCard (deck g) (counter g) (random g)
      = Some (c, deck g', counter g', random g').
Proof.
  intros Hok.
  destruct (dealCard_ok (deck g) (counter g) (random g) Hok)
    as (c & d' & g' & E & Hc & Hok' & _).
  unfold dealCard. rewrite E. eexists _, _. split; [reflexivity |]. done.
Qed.

(** The body of the loop of [playDealer] draws exactly in the states the
    specification names. *)
Lemma dealer_test (r : Rules) (hand : list Card) :
  dealerDrawsSpec r hand
  ↔ (21 <? hvalue (calculateHandValue hand)) = false
    ∧ (standValue r (calculateHandValue hand) <=? hvalue (calculateHandValue hand)) = false.
Proof.
  unfold dealerDrawsSpec, standValue. cbv zeta.
  destruct (String.eqb_spec (dealerStandsOn r) "17s") as [E|E];
    destruct (isSoft (calculateHandValue hand));
    destruct (Z.eqb_spec (hvalue (calculateHandValue hand)) 17); cbn [andb];
    rewrite Z.ltb_ge, Z.leb_gt;
    (split;
     [ intros [?|(? & ? & ?)]; first [lia | done | congruence]
     | intros [? ?]; first [left; lia | right; split_and!; first [lia | done]] ]).
Qed.

Lemma playDealer_run (m : nat) :
  ∀ (hand : list Card) (g : t),
    deck_ok (deck g) →
    (Z.to_nat (18 - hardSum hand) <= m)%nat →
    ∃ (drawn : list Card) (g' : t),
      (∀ fuel, (m < fuel)%nat → playDealer fuel hand g = Done (hand ++ drawn) g')
      ∧ rules g' = rules g ∧ deck_ok (deck g')
      ∧ dealMany (length drawn) (deck g) (counter g) (random g)
        = Some (drawn, deck g', counter g', random g')
      ∧ (∀ k, (k < length drawn)%nat → dealerDrawsSpec (rules g) (hand ++ take k drawn))
      ∧ ¬ dealerDrawsSpec (rules g) (hand ++ drawn).
Proof.
  induction m as [|m IH]; intros hand g Hok Hm.
  all: destruct (21 <? hvalue (calculateHandValue hand)) eqn:E1;
    [| destruct (standValue (rules g) (calculateHandValue hand)
                 <=? hvalue (calculateHandValue hand)) eqn:E2].
  all: try (exists [], g; rewrite app_nil_r; split_and!;
            [ intros [|f] Hf; [lia |]; cbn [playDealer]; unfold bind, get, ret;
              rewrite E1; try rewrite E2; reflexivity
            | done | done | by destruct g | cbn; intros; lia
            | rewrite dealer_test; intros [? ?]; congruence ]).
  - (* a draw needs budget *)
    pose proof (value_ge_hardSum hand).
    assert (standValue (rules g) (calculateHandValue hand) <= 18)
      by (unfold standValue; repeat case_match; lia).
    apply Z.leb_gt in E2. lia.
  - destruct (game_dealCard_ok g Hok) as (c & g1 & Ed & Hc & Hok1 & Hr1 & Edeck).
    pose proof (card_wf_hardValue c Hc) as Hhv.
    destruct (IH (hand ++ [c]) g1 Hok1) as (drawn & g' & Hrun & Hr & Hok' & Hdm & Hpre & Hend).
    { rewrite hardSum_app. change (hardSum [c]) with (hardValue c + 0). lia. }
    exists (c :: drawn), g'. split_and!.
    + intros [|f] Hf; [lia |]. cbn [playDealer]. unfold bind at 1, get.
      rewrite E1, E2. unfold bind. rewrite Ed. rewrite Hrun by lia.
      by rewrite <- app_assoc.
    + congruence.
    + done.
    + cbn [length dealMany]. rewrite Edeck, Hdm. done.
    + intros [|k] Hk.
      * rewrite take_0, app_nil_r. apply dealer_test. done.
      * cbn [take]. rewrite cons_middle, app_assoc. rewrite <- Hr1. apply Hpre.
        cbn in Hk. lia.
    + rewrite cons_middle, app_assoc, <- Hr1. done.
Qed.

(** C1: on a shoe in order, [playDealer] returns the hand extended by the
    cards the shoe deals next; it draws at every earlier point exactly
    because the total is below 17 or is a soft 17 under the hit-soft-17 rule
    (so never above 17, never on a hard 17, never past 21), and stops at the
    first hand for which this fails. *)
Theorem playDealer_draws_exactly (g : t) (hand : list Card) :
  deck_ok (deck g) →
  ∃ (drawn : list Card) (g' : t) (fuel0 : nat),
    (∀ fuel, (fuel0 <= fuel)%nat → playDealer fuel hand g = Done (hand ++ drawn) g')
    ∧ dealMany (length drawn) (deck g) (counter g) (random g)
      = Some (drawn, deck g', counter g', random g')
    ∧ (∀ k, (k < length drawn)%nat → dealerDrawsSpec (rules g) (hand ++ take k drawn))
    ∧ ¬ dealerDrawsSpec (rules g) (hand ++ drawn)
    ∧ (∀ k, (k < length drawn)%nat →
         hvalue (calculateHandValue (hand ++ take k drawn)) <= 17
         ∧ (hvalue (calculateHandValue (hand ++ take k drawn)) = 17 →
            isSoft (calculateHandValue (hand ++ take k drawn)) = true
            ∧ dealerStandsOn (rules g) ≠ "17s")).
Proof.
  intros Hok.
  destruct (playDealer_run (Z.to_nat (18 - hardSum hand)) hand g Hok)
    as (drawn & g' & Hrun & _ & _ & Hdm & Hpre & Hend); [lia |].
  exists drawn, g', (S (Z.to_nat (18 - hardSum hand))).
  split_and!; try done.
  intros k Hk. destruct (Hpre k Hk) as [H|(H1 & H2 & H3)]; [split; lia |].
  split; [lia | done].
Qed.

Lemma playDealer_draws_exactly_witness :
  ∃ (drawn : list Card) (g' : t) (fuel0 : nat),
    (∀ fuel, (fuel0 <= fuel)%nat →
       playDealer fuel [mkCard "A" Hearts; mkCard "6" Hearts] (sampleGame defaultRules [4; 12]%nat) 
       = Done ([mkCard "A" Hearts; mkCard "6" Hearts] ++ drawn) g')
    ∧ dealMany (length drawn) (deck (sampleGame defaultRules [4; 12]%nat))
               (counter (sampleGame defaultRules [4; 12]%nat))
               (random (sampleGame defaultRules [4; 12]%nat))
      = Some (drawn, deck g', counter g', random g')
    ∧ (∀ k, (k < length drawn)%nat →
         dealerDrawsSpec (rules (sampleGame defaultRules [4; 12]%nat))
                         ([mkCard "A" Hearts; mkCard "6" Hearts] ++ take k drawn))
    ∧ ¬ dealerDrawsSpec (rules (sampleGame defaultRules [4; 12]%nat))
                        ([mkCard "A" Hearts; mkCard "6" Hearts] ++ drawn)
    ∧ (∀ k, (k < length drawn)%nat →
         hvalue (calculateHandValue ([mkCard "A" Hearts; mkCard "6" Hearts] ++ take k drawn)) <= 17
         ∧ (hvalue (calculateHandValue ([mkCard "A" Hearts; mkCard "6" Hearts] ++ take k drawn)) = 17 →
            isSoft (calculateHandValue ([mkCard "A" Hearts; mkCard "6" Hearts] ++ take k drawn)) = true
            ∧ dealerStandsOn (rules (sampleGame defaultRules [4; 12]%nat)) ≠ "17s")).
Proof.
  apply (playDealer_draws_exactly (sampleGame defaultRules [4; 12]%nat)
                                  [mkCard "A" Hearts; mkCard "6" Hearts]).
  apply (bool_decide_unpack _). vm_compute. reflexivity.
Defined.

Lemma deck_penetration_witness :
  deck_ok emptyShoe ∧ (3 <= Deck.numDecks emptyShoe * 52)%nat
  ∧ ∃ cs dn kn gn,
      dealMany 3 (Deck.shuffle emptyShoe (Some (CardCounter.new "Hi-Lo")) (riggedRng [] 51)).1.1
                 (Deck.shuffle emptyShoe (Some (CardCounter.new "Hi-Lo")) (riggedRng [] 51)).1.2
                 (Deck.shuffle emptyShoe (Some (CardCounter.new "Hi-Lo")) (riggedRng [] 51)).2
      = Some (cs, dn, kn, gn)
      ∧ length cs = 3%nat
      ∧ length (Deck.usedCards dn) = 3%nat
      ∧ (Deck.penetration dn == penetrationOf 3 (Deck.numDecks emptyShoe))%Q.
Proof.
  assert (H1 : deck_ok emptyShoe) by (apply (bool_decide_unpack _); vm_compute; reflexivity).
  assert (H2 : (3 <= Deck.numDecks emptyShoe * 52)%nat) by (cbn; lia).
  split; [exact H1 |]. split; [exact H2 |].
  exact (proj1 (proj2 (deck_penetration emptyShoe (Some (CardCounter.new "Hi-Lo"))
                                        (riggedRng [] 51) 3 H1 H2))).
Defined.

(** ** Strategy tables *)

Lemma cloneRow_id row : Strategy.cloneRow row = row.
Proof. apply list_to_map_to_list. Qed.

Lemma cloneTable_id tbl : Strategy.cloneTable tbl = tbl.
Proof.
  unfold Strategy.cloneTable. rewrite list_to_map_fmap, list_to_map_to_list.
  rewrite <- (map_fmap_id tbl) at 2. apply map_fmap_ext. intros k row _. apply cloneRow_id.
Qed.

Lemma cloneCountTable_id tbl : Strategy.cloneCountTable tbl = tbl.
Proof.
  unfold Strategy.cloneCountTable. rewrite list_to_map_fmap, list_to_map_to_list.
  rewrite <- (map_fmap_id tbl) at 2. apply map_fmap_ext. intros k sub _. apply cloneTable_id.
Qed.

(** Importing what was exported restores the seven fields, whatever the
    receiving table held before. *)
Lemma importData_exportData (target s : Strategy.t) :
  Strategy.importData target (Strategy.exportData s) = s.
Proof.
  destruct s. unfold Strategy.importData, Strategy.exportData, Strategy.enableCountBased.
  cbn. by rewrite !cloneTable_id, !cloneCountTable_id.
Qed.

(** C5: a table exported with [exportData] and imported with [importData]
    into any table answers every [getAction] query as the original does, in
    particular on the explicit entries, and keeps the [countBased] flag. *)
Theorem export_import_round_trip (target s : Strategy.t) (playerTotal dealerCard : string)
        (canDouble canSplit : bool) (count : Z) :
  Strategy.getAction (Strategy.importData target (Strategy.exportData s))
                     playerTotal dealerCard canDouble canSplit count
  = Strategy.getAction s playerTotal dealerCard canDouble canSplit count
  ∧ Strategy.countBased (Strategy.importData target (Strategy.exportData s))
    = Strategy.countBased s.
Proof. by rewrite importData_exportData. Qed.

(** ** Situation analysis *)




(** ** Row testing *)

Lemma cellAfter_S sim dealer action n :
  cellAfter sim dealer action (S n)
  = Simulator.record (sim n dealer action) (cellAfter sim dealer action n).
Proof. unfold cellAfter. by rewrite seq_S, foldl_app. Qed.

Lemma sumWinnings_S sim dealer action n :
  sumWinnings sim dealer action (S n)
  = (sumWinnings sim dealer action n + winnings (sim n dealer action))%Q.
Proof. unfold sumWinnings. by rewrite seq_S, foldl_app. Qed.

Lemma cellAfter_totals sim dealer action n :
  Simulator.r_totalGames (cellAfter sim dealer action n) = Z.of_nat n
  ∧ Simulator.r_totalWinnings (cellAfter sim dealer action n) = sumWinnings sim dealer action n.
Proof.
  induction n as [|n [IH1 IH2]]; [done |].
  rewrite cellAfter_S, sumWinnings_S. cbn. rewrite IH1, IH2. split; [lia | done].
Qed.

(** The loops of [testRowActions] for the label 16 against the dealer 10:
    the list of actions stays [H, S] and each accumulator has seen every
    trial. *)
Lemma rowState_16 sim cm n :
  (foldl (λ st i, Simulator.rowTrial sim cm false "10,6" ["10"] i st)
         (Simulator.initResults ["10"] ["H"; "S"], ["H"; "S"]) (seq 0 n)).2 = ["H"; "S"]
  ∧ ∃ row,
      (foldl (λ st i, Simulator.rowTrial sim cm false "10,6" ["10"] i st)
             (Simulator.initResults ["10"] ["H"; "S"], ["H"; "S"]) (seq 0 n)).1 !! "10"
      = Some row
      ∧ row !! "H" = Some (cellAfter sim "10" "H" n)
      ∧ row !! "S" = Some (cellAfter sim "10" "S" n).
Proof.
  induction n as [|n (IHa & row & IH1 & IH2 & IH3)].
  - split; [done |]. eexists. split; [reflexivity |]. done.
  - rewrite seq_S, foldl_app. cbn [foldl].
    destruct (foldl _ _ (seq 0 n)) as [results actions]. cbn in IHa, IH1. subst actions.
    unfold Simulator.rowTrial.
    change (Simulator.isInitialBlackjack "10,6") with false. cbn [foldl andb fst snd].
    split; [done |].
    eexists. split; [| split].
    + rewrite !lookup_alter_eq, IH1. reflexivity.
    + rewrite lookup_alter_ne by done. rewrite lookup_alter_eq, IH2.
      by rewrite cellAfter_S.
    + rewrite lookup_alter_eq, lookup_alter_ne by done. rewrite IH3.
      by rewrite cellAfter_S.
Qed.

(** C6, as stated, fails: for the label 16 the summary of the dealer 10 has
    no entry for D, its keys are H and S only. *)
Lemma testRowActions_16_has_no_double :
  Simulator.validActions "16" (Simulator.representative "16").2 = ["H"; "S"]
  ∧ ∃ row,
      (Simulator.testRowActions (λ _ _ _, sampleWin) (λ _ _, false) false "16" ["10"] 2).2 !! "10"
      = Some row
      ∧ row !! "D" = None
      ∧ dom row ≠ ({["H"; "S"; "D"]} : gset string).
Proof.
  split; [reflexivity |]. eexists. split; [reflexivity |]. split; [reflexivity |].
  intros H. assert (HD : "D" ∈ ({["H"; "S"; "D"]} : gset string)) by set_solver.
  rewrite <- H in HD. apply elem_of_dom in HD as [x Hx]. discriminate Hx.
Qed.

(** C6, amended: [testRowActions('16', ['10'], null, n, betSize)] resolves
    with a [summary['10']] whose keys are exactly H and S (no D, which hard
    totals get from 9 to 11 only, and no P), each holding the mean of the
    winnings of the [n] trials of that action, 0 when [n] is 0. *)
Theorem testRowActions_16_summary
        (sim : nat → string → string → GameResult) (cm : nat → string → bool) (n : nat) :
  ∃ row,
    (Simulator.testRowActions sim cm false "16" ["10"] n).2 !! "10" = Some row
    ∧ dom row = ({["H"; "S"]} : gset string)
    ∧ row !! "H" = Some (meanWinnings sim "10" "H" n)
    ∧ row !! "S" = Some (meanWinnings sim "10" "S" n).
Proof.
  unfold Simulator.testRowActions.
  change (Simulator.representative "16") with ("10,6", false). cbv iota zeta beta.
  change (Simulator.validActions "16" false) with ["H"; "S"].
  destruct (rowState_16 sim cm n) as (Ha & row & H1 & H2 & H3).
  destruct (foldl _ _ (seq 0 n)) as [results actions]. cbn in Ha, H1. subst actions.
  cbn [snd]. unfold Simulator.finalize. cbn [foldl].
  eexists. split; [apply lookup_insert_eq |].
  rewrite H1. cbn. rewrite H2, H3. cbn.
  destruct (cellAfter_totals sim "10" "H" n) as [G1 W1].
  destruct (cellAfter_totals sim "10" "S" n) as [G2 W2].
  rewrite G1, G2, W1, W2. split_and!.
  - rewrite !dom_insert_L, dom_empty_L. set_solver.
  - rewrite lookup_insert_ne by done. by rewrite lookup_insert_eq.
  - by rewrite lookup_insert_eq.
Qed.

(** ** The player's loop *)

Lemma resolve_split action mayDouble maySplit :
  resolve action mayDouble maySplit = Split ↔ action = "P" ∧ maySplit = true.
Proof.
  unfold resolve.
  destruct (String.eqb_spec action "H") as [->|?]; [by split; [| intros [? _]] |].
  destruct (String.eqb_spec action "S") as [->|?]; [by split; [| intros [? _]] |].
  destruct (String.eqb_spec action "D") as [->|?];
    [destruct mayDouble; by split; [| intros [? _]] |].
  destruct (String.eqb_spec action "P") as [->|?];
    [destruct maySplit; by split; [| intros [_ ?]] |].
  by split; [| intros [? _]].
Qed.

(** C4, as stated, fails: with resplitting off, the hand at index 0 is
    dealt a second pair of eights after its split and is refused the split;
    it is played as a hard 16 and hit. *)
Lemma first_hand_resplit_refused :
  (∃ r g', playGame 20 basicStrategy 100 eightsGame = Done r g'
           ∧ playerCards r = [mkCard "8" Spades; mkCard "8" Hearts]
           ∧ hands r
             = Some [ {| Hand.cards := [mkCard "8" Spades; mkCard "8" Diamonds; mkCard "5" Spades];
                         Hand.bet := 1; Hand.result := None |};
                      {| Hand.cards := [mkCard "8" Hearts; mkCard "3" Spades; mkCard "10" Hearts];
                         Hand.bet := 2; Hand.result := None |} ])
  ∧ [ {| Hand.cards := [mkCard "8" Spades; mkCard "8" Diamonds]; Hand.bet := 1;
         Hand.result := None |};
      {| Hand.cards := [mkCard "8" Hearts; mkCard "3" Spades]; Hand.bet := 1;
         Hand.result := None |} ] !! 0%nat
    = Some {| Hand.cards := [mkCard "8" Spades; mkCard "8" Diamonds]; Hand.bet := 1;
              Hand.result := None |}
  ∧ isPair [mkCard "8" Spades; mkCard "8" Diamonds] = true
  ∧ canSplitThisHand noResplitRules
      [ {| Hand.cards := [mkCard "8" Spades; mkCard "8" Diamonds]; Hand.bet := 1;
           Hand.result := None |};
        {| Hand.cards := [mkCard "8" Hearts; mkCard "3" Spades]; Hand.bet := 1;
           Hand.result := None |} ]
      [mkCard "8" Spades; mkCard "8" Diamonds] = false.
Proof.
  split; [| split_and!; reflexivity].
  eexists _, _. split; [vm_compute; reflexivity |]. split; reflexivity.
Qed.

(** C4, amended: in the loop of [playHand] a hand holding a two card pair
    of equal values may split while no split has occurred in the round (the
    work list holds one hand); once the work list holds more than one hand,
    every hand, the one at index 0 included, may split only if resplit-aces
    is allowed when the pair is Aces, else only if allow-resplit is set.
    The loop splits exactly when the strategy answers P and this permission
    holds: a turn of the loop on a hand that is neither bust nor a blackjack
    then takes the last card off the hand, deals one card to the new hand it
    appends to the work list and one to the hand, adds the bet to
    [totalBet] and goes on with the same hand; in every other case the turn
    leaves the number of hands as it is (or raises, the shoe being empty). *)
Theorem split_permission (s : t) (strategy : Strategy.t) (dealerUpCard : Card)
        (canDouble : bool) (hands : list Hand.t) (i : nat) (hand : Hand.t) (totalBet : Z) :
  hands !! i = Some hand →
  isBust (Hand.cards hand) || isBlackjack (Hand.cards hand) = false →
  let permitted :=
    isPair (Hand.cards hand) = true
    ∧ (length hands = 1%nat
       ∨ (1 < length hands)%nat
         ∧ (if isAcePair (Hand.cards hand) then resplitAces (rules s)
            else allowResplit (rules s)) = true) in
  let answer :=
    Strategy.getAction strategy (playerTotal (rules s) hands (Hand.cards hand))
                       (dealerCardLabel dealerUpCard)
                       (canDoubleThisHand (rules s) canDouble i (Hand.cards hand))
                       (canSplitThisHand (rules s) hands (Hand.cards hand))
                       (currentCount s) in
  (canSplitThisHand (rules s) hands (Hand.cards hand) = true ↔ permitted)
  ∧ ((0 < i)%nat → (1 < length hands)%nat)
  ∧ (answer = "P" ∧ permitted →
     ∃ card rest,
       Hand.cards hand = rest ++ [card]
       ∧ ∀ fuel,
           playLoop (S fuel) strategy dealerUpCard canDouble i hands totalBet s
           = (do c1 <- dealCard; do c2 <- dealCard;
              playLoop fuel strategy dealerUpCard canDouble i
                       (<[i := withCards hand (rest ++ [c2])]> hands
                        ++ [{| Hand.cards := [card; c1]; Hand.bet := Hand.bet hand;
                               Hand.result := None |}])
                       (totalBet + Hand.bet hand)) s)
  ∧ (¬ (answer = "P" ∧ permitted) →
     (∀ fuel,
        playLoop (S fuel) strategy dealerUpCard canDouble i hands totalBet s = TypeError)
     ∨ ∃ i' hands' totalBet' s1,
         length hands' = length hands
         ∧ ∀ fuel,
             playLoop (S fuel) strategy dealerUpCard canDouble i hands totalBet s
             = playLoop fuel strategy dealerUpCard canDouble i' hands' totalBet' s1).
Proof.
  intros Hi Hplay. cbn zeta.
  pose proof (lookup_lt_Some _ _ _ Hi) as Hlt.
  assert (Hperm : canSplitThisHand (rules s) hands (Hand.cards hand) = true
                  ↔ isPair (Hand.cards hand) = true
                    ∧ (length hands = 1%nat
                       ∨ (1 < length hands)%nat
                         ∧ (if isAcePair (Hand.cards hand) then resplitAces (rules s)
                            else allowResplit (rules s)) = true)).
  { unfold canSplitThisHand, canResplit, hasSplit.
    rewrite andb_true_iff. destruct (Nat.ltb_spec 1 (length hands)).
    - split; intros [? ?]; (split; [done |]); [right; done |].
      destruct H1 as [?|[_ ?]]; [lia | done].
    - split; intros [? ?]; (split; [done |]); [left; lia | done]. }
  assert (Hmove : nextMove strategy dealerUpCard canDouble i hands (Hand.cards hand) s = Split
                  ↔ Strategy.getAction strategy (playerTotal (rules s) hands (Hand.cards hand))
                      (dealerCardLabel dealerUpCard)
                      (canDoubleThisHand (rules s) canDouble i (Hand.cards hand))
                      (canSplitThisHand (rules s) hands (Hand.cards hand))
                      (currentCount s) = "P"
                    ∧ canSplitThisHand (rules s) hands (Hand.cards hand) = true)
    by (unfold nextMove; apply resolve_split).
  split_and!; [exact Hperm | lia | |].
  - intros [Hans Hp]. apply Hperm in Hp as Hcan.
    assert (Hm : nextMove strategy dealerUpCard canDouble i hands (Hand.cards hand) s = Split)
      by (by apply Hmove).
    destruct Hp as [Hpair _]. unfold isPair in Hpair.
    apply andb_true_iff in Hpair as [Hlen _]. apply Nat.eqb_eq in Hlen.
    pose proof (pop_spec (Hand.cards hand)) as Hpop.
    destruct (Deck.pop (Hand.cards hand)) as [[card rest]|] eqn:Epop;
      [| rewrite Hpop in Hlen; done].
    exists card, rest. split; [done |]. intros fuel.
    cbn [playLoop]. rewrite Hi, Hplay. unfold bind at 1, get. rewrite Hm.
    unfold popCard. rewrite Epop. reflexivity.
  - intros Hno.
    assert (Hm : nextMove strategy dealerUpCard canDouble i hands (Hand.cards hand) s ≠ Split).
    { intros Hm. apply Hmove in Hm as [Hans Hcan]. apply Hno. split; [done | by apply Hperm]. }
    destruct (nextMove strategy dealerUpCard canDouble i hands (Hand.cards hand) s) eqn:Emove;
      [| | | done].
    + right. exists (S i), hands, totalBet, s. split; [done |]. intros fuel.
      cbn [playLoop]. rewrite Hi, Hplay. unfold bind at 1, get. rewrite Emove. reflexivity.
    + destruct (dealCard s) as [c s1| |] eqn:Ec.
      * right. destruct (isBust (Hand.cards hand ++ [c])) eqn:Eb.
        -- eexists (S i), _, totalBet, s1. split; [apply length_insert |]. intros fuel.
           cbn [playLoop]. rewrite Hi, Hplay. unfold bind at 1, get. rewrite Emove.
           unfold bind at 1. rewrite Ec, Eb. reflexivity.
        -- eexists i, _, totalBet, s1. split; [apply length_insert |]. intros fuel.
           cbn [playLoop]. rewrite Hi, Hplay. unfold bind at 1, get. rewrite Emove.
           unfold bind at 1. rewrite Ec, Eb. reflexivity.
      * left. intros fuel.
        cbn [playLoop]. rewrite Hi, Hplay. unfold bind at 1, get. rewrite Emove.
        unfold bind at 1. rewrite Ec. reflexivity.
      * exfalso. unfold dealCard in Ec. by destruct (Deck.dealCard _ _ _) as [[[[? ?] ?] ?]|].
    + destruct (dealCard s) as [c s1| |] eqn:Ec.
      * right. eexists (S i), _, _, s1. split; [apply length_insert |]. intros fuel.
        cbn [playLoop]. rewrite Hi, Hplay. unfold bind at 1, get. rewrite Emove.
        unfold bind at 1. rewrite Ec. reflexivity.
      * left. intros fuel.
        cbn [playLoop]. rewrite Hi, Hplay. unfold bind at 1, get. rewrite Emove.
        unfold bind at 1. rewrite Ec. reflexivity.
      * exfalso. unfold dealCard in Ec. by destruct (Deck.dealCard _ _ _) as [[[[? ?] ?] ?]|].
Qed.

Lemma split_permission_witness :
  (∃ card rest,
     [mkCard "8" Spades; mkCard "8" Diamonds] = rest ++ [card]
     ∧ ∀ fuel,
         playLoop (S fuel) basicStrategy (mkCard "10" Hearts) true 0 splitWorklist 2 sixteenGame
         = (do c1 <- dealCard; do c2 <- dealCard;
            playLoop fuel basicStrategy (mkCard "10" Hearts) true 0
                     (<[0%nat := {| Hand.cards := rest ++ [c2]; Hand.bet := 1;
                                    Hand.result := None |}]> splitWorklist
                      ++ [{| Hand.cards := [card; c1]; Hand.bet := 1; Hand.result := None |}])
                     (2 + 1)) sixteenGame)
  ∧ ((∀ fuel,
        playLoop (S fuel) basicStrategy (mkCard "10" Hearts) true 0 splitWorklist 2 eightsGame
        = TypeError)
     ∨ ∃ i' hands' totalBet' s1,
         length hands' = 2%nat
         ∧ ∀ fuel,
             playLoop (S fuel) basicStrategy (mkCard "10" Hearts) true 0 splitWorklist 2
                      eightsGame
             = playLoop fuel basicStrategy (mkCard "10" Hearts) true i' hands' totalBet' s1).
Proof.
  split.
  - destruct (split_permission sixteenGame basicStrategy (mkCard "10" Hearts) true
                splitWorklist 0
                {| Hand.cards := [mkCard "8" Spades; mkCard "8" Diamonds]; Hand.bet := 1;
                   Hand.result := None |} 2 eq_refl eq_refl) as (_ & _ & H & _).
    apply H. split; [vm_compute; reflexivity |].
    split; [reflexivity |]. right. split; [cbn; lia | reflexivity].
  - destruct (split_permission eightsGame basicStrategy (mkCard "10" Hearts) true
                splitWorklist 0
                {| Hand.cards := [mkCard "8" Spades; mkCard "8" Diamonds]; Hand.bet := 1;
                   Hand.result := None |} 2 eq_refl eq_refl) as (_ & _ & _ & H).
    apply H. intros [_ [_ [Hl | [_ Hf]]]]; [cbn in Hl; lia |].
    revert Hf. vm_compute. discriminate.
Defined.

(** ** Attribution of the first action *)

(** C9 at the failing input: a hard 16 against a 10 is hit under the basic
    strategy and draws a 5; the hand is never doubled (its bet stays 1), yet
    [getInitialAction] answers D, and D is the action filed in the per-cell
    statistics. *)
Lemma single_hit_reported_as_double :
  ∃ r g',
    playGame 20 basicStrategy 100 sixteenGame = Done r g'
    ∧ playerCards r = [mkCard "10" Spades; mkCard "6" Spades]
    ∧ hands r
      = Some [ {| Hand.cards := [mkCard "10" Spades; mkCard "6" Spades; mkCard "5" Spades];
                  Hand.bet := 1; Hand.result := None |} ]
    ∧ (∀ s, nextMove basicStrategy (mkCard "10" Hearts) (doubleAfterSplit defaultRules) 0
              [ {| Hand.cards := [mkCard "10" Spades; mkCard "6" Spades];
                   Hand.bet := 1; Hand.result := None |} ]
              [mkCard "10" Spades; mkCard "6" Spades] s = Hit)
    ∧ id_action <$> initialDecision r = Some "D"
    ∧ Simulator.cellAction r = "D".
Proof.
  eexists _, _. split; [vm_compute; reflexivity |].
  split_and!; reflexivity.
Qed.

(** ** Aggregation *)

Lemma bind_Done {A B} (m : M A) (k : A → M B) (s s' : t) (b : B) :
  bind m k s = Done b s' → ∃ a s1, m s = Done a s1 ∧ k a s1 = Done b s'.
Proof. unfold bind. destruct (m s) as [a s1| |]; [eauto | done | done]. Qed.

Lemma outcomeTag_cases q :
  outcomeTag q ∈ ["win"; "lose"; "push"; "blackjack"].
Proof. unfold outcomeTag. repeat case_match; set_solver. Qed.

(** Every result [playGame] returns carries one of the four tags. *)
Lemma playGame_result_tag fuel strategy betSize (s s' : t) (r : GameResult) :
  playGame fuel strategy betSize s = Done r s' →
  result r ∈ ["win"; "lose"; "push"; "blackjack"].
Proof.
  unfold playGame. intros H.
  apply bind_Done in H as (s0 & s1 & _ & H).
  apply bind_Done in H as (u & s2 & _ & H).
  apply bind_Done in H as (p1 & s3 & _ & H).
  apply bind_Done in H as (p2 & s4 & _ & H).
  apply bind_Done in H as (d1 & s5 & _ & H).
  apply bind_Done in H as (d2 & s6 & _ & H).
  apply bind_Done in H as (sg & s7 & _ & H).
  destruct (isBlackjack [p1; p2]).
  - destruct (isBlackjack [d1; d2]); injection H as <- _; cbn; set_solver.
  - destruct (isBlackjack [d1; d2]); [injection H as <- _; cbn; set_solver |].
    apply bind_Done in H as ([hs tb] & s8 & _ & H).
    apply bind_Done in H as (df & s9 & _ & H).
    injection H as <- _. cbn [result]. apply outcomeTag_cases.
Qed.

Lemma tally_step (r : Simulator.Results) (g : GameResult) :
  result g ∈ ["win"; "lose"; "push"; "blackjack"] →
  Simulator.wins r + Simulator.losses r + Simulator.pushes r + 1 = Simulator.totalGames r →
  0 <= Simulator.blackjacks r <= Simulator.wins r →
  tallied (Simulator.tally r g).
Proof.
  intros Htag H1 H2. unfold tallied, Simulator.tally.
  repeat (apply elem_of_cons in Htag as [-> | Htag]); [.. | by apply elem_of_nil in Htag];
    cbn; lia.
Qed.

Lemma simulateOne_tallied fuel strategy betSize i r (s s' : t) r' :
  Simulator.simulateOne fuel strategy betSize i r s = Done r' s' →
  tallied r → tallied r' ∧ Simulator.totalGames r' = Simulator.totalGames r + 1.
Proof.
  unfold Simulator.simulateOne. intros H [T1 T2].
  apply bind_Done in H as (s0 & s1 & _ & H).
  apply bind_Done in H as (g & s2 & Hg & H).
  apply playGame_result_tag in Hg.
  destruct (Simulator.trackCellStats g _ _ _) as [cells|]; [| done].
  injection H as <- _. split; [| reflexivity].
  apply tally_step; [done | cbn; lia | cbn; lia].
Qed.

Lemma simulateFrom_tallied fuel strategy betSize n :
  ∀ i r (s s' : t) r',
    Simulator.simulateFrom fuel strategy betSize n i r s = Done r' s' →
    tallied r →
    tallied r' ∧ Simulator.totalGames r' = Simulator.totalGames r + Z.of_nat n.
Proof.
  induction n as [|n IH]; intros i r s s' r' H T.
  - injection H as <- _. split; [done | lia].
  - cbn [Simulator.simulateFrom] in H.
    apply bind_Done in H as (r1 & s1 & H1 & H).
    apply simulateOne_tallied in H1 as [T1 G1]; [| done].
    apply IH in H as [T2 G2]; [| done]. split; [done | lia].
Qed.

Lemma countTag_cons tag g gs :
  countTag tag (g :: gs) = (if bool_decide (result g = tag) then 1 else 0) + countTag tag gs.
Proof.
  unfold countTag. rewrite filter_cons.
  destruct (decide (result g = tag)) as [E|E].
  - rewrite bool_decide_eq_true_2 by done. cbn [length]. lia.
  - rewrite bool_decide_eq_false_2 by done. lia.
Qed.

Lemma countTag_split tag g gs :
  countTag tag (g :: gs) = countTag tag [g] + countTag tag gs.
Proof.
  rewrite !countTag_cons. change (countTag tag []) with 0. lia.
Qed.

(** One hand of the run is one call of [playGame]; its result moves the
    counters by its tag. *)
Lemma simulateOne_counts fuel strategy betSize i r (s s' : t) r' :
  Simulator.simulateOne fuel strategy betSize i r s = Done r' s' →
  ∃ g,
    playGame fuel strategy betSize s = Done g s'
    ∧ Simulator.blackjacks r' = Simulator.blackjacks r + countTag "blackjack" [g]
    ∧ Simulator.wins r'
      = Simulator.wins r + countTag "win" [g] + countTag "blackjack" [g]
    ∧ Simulator.losses r' = Simulator.losses r + countTag "lose" [g]
    ∧ Simulator.pushes r' = Simulator.pushes r + countTag "push" [g].
Proof.
  unfold Simulator.simulateOne. intros H.
  apply bind_Done in H as (s0 & s1 & Hget & H). injection Hget as <- <-.
  apply bind_Done in H as (g & s2 & Hg & H).
  pose proof (playGame_result_tag _ _ _ _ _ _ Hg) as Htag.
  destruct (Simulator.trackCellStats g _ _ _) as [cells|]; [| done].
  injection H as <- <-. exists g. split; [done |].
  rewrite !countTag_cons. unfold countTag, Simulator.tally. cbn [filter list_filter length].
  repeat (apply elem_of_cons in Htag as [-> | Htag]); [.. | by apply elem_of_nil in Htag];
    cbn; repeat case_bool_decide; try discriminate; try (exfalso; congruence); lia.
Qed.

Lemma simulateFrom_counts fuel strategy betSize (n : nat) :
  ∀ i r (s s' : t) r',
    Simulator.simulateFrom fuel strategy betSize n i r s = Done r' s' →
    ∃ games,
      playGames fuel strategy betSize n s = Done games s'
      ∧ length games = n
      ∧ Simulator.blackjacks r' = Simulator.blackjacks r + countTag "blackjack" games
      ∧ Simulator.wins r'
        = Simulator.wins r + countTag "win" games + countTag "blackjack" games
      ∧ Simulator.losses r' = Simulator.losses r + countTag "lose" games
      ∧ Simulator.pushes r' = Simulator.pushes r + countTag "push" games.
Proof.
  induction n as [|n IH]; intros i r s s' r' H.
  - injection H as <- <-. exists []. change (countTag _ []) with 0. split_and!; [done | done | lia..].
  - cbn [Simulator.simulateFrom] in H.
    apply bind_Done in H as (r1 & s1 & H1 & H).
    apply simulateOne_counts in H1 as (g & Hg & A1 & A2 & A3 & A4).
    apply IH in H as (gs & Hgs & Hlen & B1 & B2 & B3 & B4).
    exists (g :: gs). cbn [playGames]. unfold bind at 1. rewrite Hg.
    unfold bind at 1. rewrite Hgs. unfold ret.
    rewrite (countTag_split "blackjack"), (countTag_split "win"), (countTag_split "lose"),
      (countTag_split "push").
    split_and!; [done | cbn; lia | lia..].
Qed.

(** C10: a completed run of [runSimulations] is [numSimulations] successive
    calls of [playGame], and its counters count their results: [blackjacks]
    is the number of hands whose outcome is blackjack, [wins] the number of
    hands won or ended by a blackjack, so that every blackjack is counted
    in both, [losses] and [pushes] the numbers of hands lost and pushed;
    and wins, losses and pushes add up to [totalGames], the number of
    hands asked for. *)
Theorem runSimulations_totals (fuel : nat) (strategy : Strategy.t) (numSimulations : nat)
        (betSize : Q) (s s' : t) (sm : Simulator.Summary) :
  Simulator.runSimulations fuel strategy numSimulations betSize s = Done sm s' →
  ∃ games : list GameResult,
    playGames fuel strategy betSize numSimulations s = Done games s'
    ∧ length games = numSimulations
    ∧ Simulator.blackjacks (Simulator.final sm) = countTag "blackjack" games
    ∧ Simulator.wins (Simulator.final sm)
      = countTag "win" games + countTag "blackjack" games
    ∧ Simulator.losses (Simulator.final sm) = countTag "lose" games
    ∧ Simulator.pushes (Simulator.final sm) = countTag "push" games
    ∧ Simulator.wins (Simulator.final sm) + Simulator.losses (Simulator.final sm)
      + Simulator.pushes (Simulator.final sm)
      = Simulator.totalGames (Simulator.final sm)
    ∧ Simulator.totalGames (Simulator.final sm) = Z.of_nat numSimulations.
Proof.
  intros H. unfold Simulator.runSimulations in H.
  apply bind_Done in H as (s0 & s1 & Hget & H). injection Hget as <- <-.
  apply bind_Done in H as (r & s2 & Hr & H).
  injection H as <- <-. cbn [Simulator.final Simulator.blackjacks Simulator.wins
                               Simulator.losses Simulator.pushes Simulator.totalGames].
  pose proof (simulateFrom_tallied _ _ _ _ _ _ _ _ _ Hr) as [[T1 _] G];
    [split; cbn; lia |].
  apply simulateFrom_counts in Hr as (games & Hg & Hlen & B1 & B2 & B3 & B4).
  exists games. cbn in B1, B2, B3, B4, G.
  split_and!; [done | done | lia..].
Qed.

Lemma runSimulations_totals_witness :
  ∃ sm s',
    Simulator.runSimulations 30 basicStrategy 3 100 blackjackGame = Done sm s'
    ∧ Simulator.blackjacks (Simulator.final sm) = 1
    ∧ Simulator.wins (Simulator.final sm) = 2
    ∧ Simulator.losses (Simulator.final sm) = 1
    ∧ Simulator.pushes (Simulator.final sm) = 0
    ∧ Simulator.totalGames (Simulator.final sm) = 3.
Proof.
  assert (H : ∃ sm s', Simulator.runSimulations 30 basicStrategy 3 100 blackjackGame = Done sm s')
    by (eexists _, _; vm_compute; reflexivity).
  destruct H as (sm & s' & H). exists sm, s'. split; [exact H |].
  destruct (runSimulations_totals 30 basicStrategy 3 100 blackjackGame s' sm H)
    as (games & Hg & _ & H1 & H2 & H3 & H4 & _ & H5).
  assert (Hc : ∃ games0 s0,
             playGames 30 basicStrategy 100 3 blackjackGame = Done games0 s0
             ∧ countTag "blackjack" games0 = 1 ∧ countTag "win" games0 = 1
             ∧ countTag "lose" games0 = 1 ∧ countTag "push" games0 = 0)
    by (eexists _, _; split; [vm_compute; reflexivity | split_and!; vm_compute; reflexivity]).
  destruct Hc as (games0 & s0 & Hg0 & C1 & C2 & C3 & C4).
  rewrite Hg in Hg0. injection Hg0 as -> _.
  rewrite H1, H2, H3, H4, C1, C2, C3, C4. split_and!; [reflexivity.. | exact H5].
Defined.

(** * Further properties *)

(** ** Hand valuation, continued *)

Lemma hardSum_Permutation l1 l2 : l1 ≡ₚ l2 → hardSum l1 = hardSum l2.
Proof.
  induction 1 as [|c l l' _ IH|c c' l|l l' l'' _ IH1 _ IH2]; [done | | | congruence].
  - change (hardValue c + hardSum l = hardValue c + hardSum l'). lia.
  - change (hardValue c' + (hardValue c + hardSum l) = hardValue c + (hardValue c' + hardSum l)).
    lia.
Qed.

Lemma aceCount_Permutation l1 l2 : l1 ≡ₚ l2 → aceCount l1 = aceCount l2.
Proof. intros H. unfold aceCount. by rewrite H. Qed.

(** X1: a hand is bust exactly when it exceeds 21 with every Ace counted
    1, whatever cards it holds. *)
Theorem isBust_iff_hardSum (cards : list Card) :
  isBust cards = true ↔ 21 < hardSum cards.
Proof.
  unfold isBust. rewrite Z.ltb_lt.
  destruct (value_decompose cards) as (k & _ & K2 & _ & K4 & _).
  split; intros H; [| lia].
  destruct (decide (0 < k)%nat) as [P|P]; [specialize (K4 P); lia | lia].
Qed.

(** X2: the value and softness of a hand do not depend on the order of
    its cards. *)
Theorem calculateHandValue_Permutation (cards cards' : list Card) :
  cards ≡ₚ cards' → calculateHandValue cards = calculateHandValue cards'.
Proof.
  intros H. unfold calculateHandValue. rewrite !sumCards_eq.
  by rewrite (hardSum_Permutation _ _ H), (aceCount_Permutation _ _ H).
Qed.

Lemma calculateHandValue_Permutation_witness :
  calculateHandValue [mkCard "A" Spades; mkCard "9" Hearts; mkCard "5" Clubs]
  = calculateHandValue [mkCard "5" Clubs; mkCard "A" Spades; mkCard "9" Hearts].
Proof.
  apply calculateHandValue_Permutation.
  apply (bool_decide_unpack _). vm_compute. reflexivity.
Defined.

(** X3: over cards of the data model a hand is soft exactly when it holds
    an Ace and its total with every Ace counted 1 is at most 11; its value
    is then that total plus 10, and that total otherwise. *)
Theorem calculateHandValue_closed_form (cards : list Card) :
  Forall card_wf cards →
  (isSoft (calculateHandValue cards) = true
   ↔ (0 < aceCount cards)%nat ∧ hardSum cards <= 11)
  ∧ hvalue (calculateHandValue cards)
    = (if isSoft (calculateHandValue cards) then hardSum cards + 10 else hardSum cards).
Proof.
  intros Hwf. pose proof (hardSum_ge_aces cards Hwf) as Hge.
  destruct (value_decompose cards) as (k & K1 & K2 & K3 & K4 & K5).
  rewrite K3.
  assert (Hk : (k <= 1)%nat).
  { destruct (decide (k <= 1)%nat); [done |].
    assert (hvalue (calculateHandValue cards) <= 21) by (apply K4; lia). lia. }
  destruct (decide (0 < k)%nat) as [P|P].
  - rewrite bool_decide_true by done. specialize (K4 P).
    split; [| lia]. split; [intros _; split; lia | done].
  - rewrite bool_decide_false by done. split; [| lia].
    split; [done |]. intros [A B]. assert (11 < hvalue (calculateHandValue cards)) by (apply K5; lia).
    lia.
Qed.

Lemma calculateHandValue_closed_form_witness :
  (isSoft (calculateHandValue [mkCard "A" Spades; mkCard "6" Hearts]) = true
   ↔ (0 < aceCount [mkCard "A" Spades; mkCard "6" Hearts])%nat
     ∧ hardSum [mkCard "A" Spades; mkCard "6" Hearts] <= 11)
  ∧ hvalue (calculateHandValue [mkCard "A" Spades; mkCard "6" Hearts])
    = (if isSoft (calculateHandValue [mkCard "A" Spades; mkCard "6" Hearts])
       then hardSum [mkCard "A" Spades; mkCard "6" Hearts] + 10
       else hardSum [mkCard "A" Spades; mkCard "6" Hearts]).
Proof.
  apply (calculateHandValue_closed_form [mkCard "A" Spades; mkCard "6" Hearts]).
  apply (bool_decide_unpack _). vm_compute. reflexivity.
Defined.

(** ** The shoe, continued *)

Lemma insert_Permutation (l : list Card) i x y :
  l !! i = Some x → <[i:=y]> l ≡ₚ y :: delete i l.
Proof.
  intros H. apply lookup_lt_Some in H.
  rewrite insert_take_drop, delete_take_drop by done.
  symmetry. apply Permutation_middle.
Qed.

Lemma swap_Permutation l i j : Deck.swap l i j ≡ₚ l.
Proof.
  unfold Deck.swap.
  destruct (l !! i) as [x|] eqn:Ei; [| done].
  destruct (l !! j) as [y|] eqn:Ej; [| done].
  destruct (decide (i = j)) as [->|Hne].
  - assert (x = y) by congruence. subst y.
    rewrite (list_insert_id l j x) by done. by rewrite list_insert_id.
  - assert (Hj : <[i:=y]> l !! j = Some y) by (by rewrite list_lookup_insert_ne).
    rewrite (insert_Permutation _ j y x Hj).
    etrans; [| symmetry; apply (delete_Permutation l i x Ei)].
    apply Permutation_skip.
    apply (Permutation_cons_inv (a := y)).
    rewrite <- (delete_Permutation _ j y Hj).
    apply (insert_Permutation l i x y Ei).
Qed.

Lemma fisherYates_Permutation i l g : (Deck.fisherYates i l g).1 ≡ₚ l.
Proof.
  revert l g. induction i as [|i IH]; intros l g; [done |].
  cbn [Deck.fisherYates]. destruct (randomBelow g (S (S i))) as [j g'].
  rewrite IH. apply swap_Permutation.
Qed.

Lemma shuffle_fresh (d : Deck.t) (k : option CardCounter.t) (g : Rng) :
  Deck.cards (Deck.shuffle d k g).1.1 ≡ₚ Deck.freshCards (Deck.numDecks d)
  ∧ Deck.usedCards (Deck.shuffle d k g).1.1 = []
  ∧ length (Deck.cards (Deck.shuffle d k g).1.1) = (Deck.numDecks d * 52)%nat
  ∧ Deck.numDecks (Deck.shuffle d k g).1.1 = Deck.numDecks d.
Proof.
  unfold Deck.shuffle.
  pose proof (fisherYates_Permutation (length (Deck.freshCards (Deck.numDecks d)) - 1)
                (Deck.freshCards (Deck.numDecks d)) g) as HP.
  destruct (Deck.fisherYates _ _ g) as [cs g']. cbn in *.
  split_and!; try done. by rewrite HP, freshCards_length.
Qed.

(** X4: whatever the random source answers, [shuffle] leaves in the shoe
    a rearrangement of [numDecks] fresh decks, all drawable and none used. *)
Theorem shuffle_Permutation (d : Deck.t) (k : option CardCounter.t) (g : Rng) :
  Deck.cards (Deck.shuffle d k g).1.1 ≡ₚ Deck.freshCards (Deck.numDecks d)
  ∧ Deck.usedCards (Deck.shuffle d k g).1.1 = []
  ∧ length (Deck.cards (Deck.shuffle d k g).1.1) = (Deck.numDecks d * 52)%nat
  ∧ Deck.numDecks (Deck.shuffle d k g).1.1 = Deck.numDecks d.
Proof. apply shuffle_fresh. Qed.

Lemma deckInv_shuffle d k g : deckInv (Deck.shuffle d k g).1.1.
Proof.
  destruct (shuffle_fresh d k g) as (H1 & H2 & _ & H4).
  unfold deckInv. by rewrite H2, app_nil_r, H4.
Qed.

(** One deal: the card leaves the drawable end for the used cards; an
    empty shoe is reshuffled first. *)
Lemma dealCard_inv d k g :
  (0 < Deck.numDecks d)%nat → (Deck.cards d ≠ [] → deckInv d) →
  ∃ c d' k' g',
    Deck.dealCard d k g = Some (c, d', k', g')
    ∧ deckInv d' ∧ Deck.numDecks d' = Deck.numDecks d
    ∧ c ∈ Deck.usedCards d'.
Proof.
  intros Hn Hinv. unfold Deck.dealCard.
  destruct (length (Deck.cards d) =? 0)%nat eqn:E.
  - pose proof (deckInv_shuffle d k g) as HI.
    destruct (shuffle_fresh d k g) as (_ & HU & HL & HN).
    destruct (Deck.shuffle d k g) as [[d1 k1] g1]. cbn in *.
    pose proof (pop_spec (Deck.cards d1)) as HP.
    destruct (Deck.pop (Deck.cards d1)) as [[c rest]|].
    + eexists _, _, _, _. split; [reflexivity |]. unfold deckInv in *. cbn.
      split_and!; [| done | set_solver].
      rewrite <- HI, HP, HU. cbn.
      by rewrite app_nil_r.
    + rewrite HP in HL. cbn in HL. lia.
  - apply Nat.eqb_neq in E.
    assert (Hne : Deck.cards d ≠ []) by (intros Z; rewrite Z in E; done).
    specialize (Hinv Hne).
    pose proof (pop_spec (Deck.cards d)) as HP.
    destruct (Deck.pop (Deck.cards d)) as [[c rest]|]; [| done].
    eexists _, _, _, _. split; [reflexivity |]. unfold deckInv in *. cbn.
    split_and!; [| done | set_solver].
    rewrite <- Hinv, HP. rewrite <- !app_assoc. apply Permutation_app_head.
    apply Permutation_app_comm.
Qed.

Lemma dealMany_inv n :
  ∀ d k g,
    (0 < Deck.numDecks d)%nat → (Deck.cards d ≠ [] → deckInv d) →
    ∃ cs dn kn gn,
      dealMany n d k g = Some (cs, dn, kn, gn)
      ∧ length cs = n
      ∧ Deck.numDecks dn = Deck.numDecks d
      ∧ ((0 < n)%nat → deckInv dn).
Proof.
  induction n as [|n IH]; intros d k g Hn Hinv.
  - eexists _, _, _, _. split; [reflexivity |]. split_and!; try done. lia.
  - destruct (dealCard_inv d k g Hn Hinv) as (c & d1 & k1 & g1 & E & I1 & N1 & _).
    destruct (IH d1 k1 g1) as (cs & dn & kn & gn & E2 & L & N2 & I2); [lia | done |].
    exists (c :: cs), dn, kn, gn. cbn [dealMany]. rewrite E, E2.
    split_and!; [done | cbn; lia | congruence |].
    intros _. destruct n; [| apply I2; lia].
    cbn in E2. by injection E2 as _ <- _ _.
Qed.

(** X5: a shoe with at least one deck never runs dry and never loses or
    duplicates a card: after a shuffle and any number of deals, with the
    silent reshuffles they trigger, the drawable and the used cards together
    are a rearrangement of [numDecks] fresh decks. *)
Theorem shoe_conservation (d : Deck.t) (k : option CardCounter.t) (g : Rng) (n : nat) :
  (0 < Deck.numDecks d)%nat →
  ∃ cs dn kn gn,
    dealMany n (Deck.shuffle d k g).1.1 (Deck.shuffle d k g).1.2 (Deck.shuffle d k g).2
    = Some (cs, dn, kn, gn)
    ∧ length cs = n
    ∧ Deck.cards dn ++ Deck.usedCards dn ≡ₚ Deck.freshCards (Deck.numDecks d)
    ∧ (length (Deck.cards dn) + length (Deck.usedCards dn) = Deck.numDecks d * 52)%nat.
Proof.
  intros Hn.
  pose proof (deckInv_shuffle d k g) as HI.
  destruct (shuffle_fresh d k g) as (_ & _ & _ & HN).
  destruct (dealMany_inv n (Deck.shuffle d k g).1.1 (Deck.shuffle d k g).1.2
                         (Deck.shuffle d k g).2) as (cs & dn & kn & gn & E & L & N & I);
    [lia | done |].
  exists cs, dn, kn, gn. split; [done |]. split; [done |].
  assert (HIn : deckInv dn).
  { destruct n; [| apply I; lia]. cbn in E. by injection E as _ <- _ _. }
  unfold deckInv in HIn. rewrite N, HN in HIn. split; [done |].
  by rewrite <- length_app, HIn, freshCards_length.
Qed.

Lemma shoe_conservation_witness :
  ∃ cs dn kn gn,
    dealMany 60 (Deck.shuffle emptyShoe None (riggedRng [] 51)).1.1
             (Deck.shuffle emptyShoe None (riggedRng [] 51)).1.2
             (Deck.shuffle emptyShoe None (riggedRng [] 51)).2
    = Some (cs, dn, kn, gn)
    ∧ length cs = 60%nat
    ∧ Deck.cards dn ++ Deck.usedCards dn ≡ₚ Deck.freshCards (Deck.numDecks emptyShoe)
    ∧ (length (Deck.cards dn) + length (Deck.usedCards dn)
       = Deck.numDecks emptyShoe * 52)%nat.
Proof.
  apply (shoe_conservation emptyShoe None (riggedRng [] 51) 60). cbn. lia.
Defined.

(** ** The counter *)

Lemma weightSum_app w l1 l2 : weightSum w (l1 ++ l2) = weightSum w l1 + weightSum w l2.
Proof.
  induction l1 as [|c l IH]; [done |].
  change (default 0 (w !! rank c) + weightSum w (l ++ l2)
          = default 0 (w !! rank c) + weightSum w l + weightSum w l2). lia.
Qed.

Lemma weightSum_Permutation w l1 l2 : l1 ≡ₚ l2 → weightSum w l1 = weightSum w l2.
Proof.
  induction 1 as [|c l l' _ IH|c c' l|l l' l'' _ IH1 _ IH2]; [done | | | congruence].
  - change (default 0 (w !! rank c) + weightSum w l = default 0 (w !! rank c) + weightSum w l').
    lia.
  - change (default 0 (w !! rank c') + (default 0 (w !! rank c) + weightSum w l)
            = default 0 (w !! rank c) + (default 0 (w !! rank c') + weightSum w l)). lia.
Qed.

Lemma weightSum_freshCards w n :
  weightSum w (Deck.freshCards n) = Z.of_nat n * weightSum w Deck.oneDeck.
Proof.
  induction n as [|n IH]; [done |].
  rewrite freshCards_S, weightSum_app, IH. lia.
Qed.

(** Deals that stay within the drawable cards feed the counter with each
    card handed out, last card of the shoe first. *)
Lemma dealMany_count n :
  ∀ d c g,
    (n <= length (Deck.cards d))%nat →
    ∃ cs dn cn gn,
      dealMany n d (Some c) g = Some (cs, dn, Some cn, gn)
      ∧ length cs = n
      ∧ Deck.cards d = Deck.cards dn ++ reverse cs
      ∧ CardCounter.cardValues cn = CardCounter.cardValues c
      ∧ CardCounter.runningCount cn
        = CardCounter.runningCount c + weightSum (CardCounter.cardValues c) cs.
Proof.
  induction n as [|n IH]; intros d c g Hn.
  - eexists [], d, c, g. split; [reflexivity |]. cbn. rewrite app_nil_r. split_and!; [done..| lia].
  - cbn [dealMany]. unfold Deck.dealCard.
    destruct (length (Deck.cards d) =? 0)%nat eqn:E; [apply Nat.eqb_eq in E; lia |].
    pose proof (pop_spec (Deck.cards d)) as HP.
    destruct (Deck.pop (Deck.cards d)) as [[card rest]|]; [| rewrite HP in Hn; cbn in Hn; lia].
    cbn [fmap option_fmap option_map].
    match goal with
    | |- context [dealMany n ?d1 _ _] =>
        destruct (IH d1 (CardCounter.updateCount c card) g)
          as (cs & dn & cn & gn & E2 & H0 & H1 & H2 & H3);
        [cbn; rewrite HP, length_app in Hn; cbn in Hn; lia | rewrite E2]
    end.
    eexists _, _, _, _. split; [reflexivity |]. cbn in H1, H2, H3.
    split_and!.
    + cbn. lia.
    + rewrite HP, H1, reverse_cons. by rewrite app_assoc.
    + done.
    + rewrite H3. change (weightSum (CardCounter.cardValues c) (card :: cs))
        with (default 0 (CardCounter.cardValues c !! rank card)
              + weightSum (CardCounter.cardValues c) cs). lia.
Qed.

Lemma named_system_bias system :
  weightSum (CardCounter.getCardValues system None) Deck.oneDeck
  = if String.eqb system "KO (Knockout)" then 4 else 0.
Proof.
  unfold CardCounter.getCardValues.
  destruct (CardCounter.systems !! system) as [w|] eqn:E.
  - apply elem_of_list_to_map_2 in E.
    repeat (apply elem_of_cons in E as [E | E]; [injection E as -> ->; reflexivity |]).
    by apply elem_of_nil in E.
  - destruct (String.eqb_spec system "KO (Knockout)") as [->|_]; [discriminate E | reflexivity].
Qed.

(** X6: dealing a freshly shuffled shoe to its last card hands out every
    card of [numDecks] decks once and leaves the running count at the sum of
    the weights of the shoe: 0 for every named system (and for an unknown
    name, which falls back to Hi-Lo) except KO, where it is 4 per deck. *)
Theorem full_shoe_count (d : Deck.t) (system : string) (g : Rng) :
  ∃ cs dn cn gn,
    dealMany (Deck.numDecks d * 52)
             (Deck.shuffle d (Some (CardCounter.new system)) g).1.1
             (Deck.shuffle d (Some (CardCounter.new system)) g).1.2
             (Deck.shuffle d (Some (CardCounter.new system)) g).2
    = Some (cs, dn, Some cn, gn)
    ∧ cs ≡ₚ Deck.freshCards (Deck.numDecks d)
    ∧ Deck.cards dn = []
    ∧ CardCounter.runningCount cn
      = if String.eqb system "KO (Knockout)" then 4 * Z.of_nat (Deck.numDecks d) else 0.
Proof.
  destruct (shuffle_fresh d (Some (CardCounter.new system)) g) as (HP & _ & HL & _).
  destruct (shuffle_spec d (Some (CardCounter.new system)) g) as (cs0 & g0 & E & _ & _).
  rewrite E in HP, HL |- *. cbn [fst snd Deck.cards fmap option_fmap option_map] in HP, HL |- *.
  destruct (dealMany_count (Deck.numDecks d * 52)
              {| Deck.numDecks := Deck.numDecks d; Deck.cards := cs0; Deck.usedCards := [];
                 Deck.penetration := 0%Q;
                 Deck.penetrationThreshold := Deck.penetrationThreshold d |}
              (CardCounter.reset (CardCounter.new system)) g0)
    as (cs & dn & cn & gn & E2 & H0 & H1 & H2 & H3); [cbn; lia |].
  exists cs, dn, cn, gn. split; [exact E2 |].
  cbn [Deck.cards] in H1.
  cbn [CardCounter.runningCount CardCounter.cardValues CardCounter.reset CardCounter.new] in H3.
  assert (Hnil : Deck.cards dn = []).
  { apply nil_length_inv. apply (f_equal length) in H1.
    rewrite length_app, length_reverse in H1. lia. }
  rewrite Hnil in H1. cbn in H1.
  assert (Hperm : cs ≡ₚ Deck.freshCards (Deck.numDecks d)).
  { rewrite <- HP, H1. symmetry. apply reverse_Permutation. }
  split_and!; [done | done |].
  rewrite H3, (weightSum_Permutation _ _ _ Hperm), weightSum_freshCards.
  rewrite named_system_bias. destruct (String.eqb system "KO (Knockout)"); lia.
Qed.

Lemma getTrueCount_no_cards c numDecks : CardCounter.getTrueCount c 0 numDecks = 0%Q.
Proof. reflexivity. Qed.

Lemma getTrueCount_le c1 c2 remaining numDecks :
  CardCounter.runningCount c1 <= CardCounter.runningCount c2 →
  (CardCounter.getTrueCount c1 remaining numDecks
   <= CardCounter.getTrueCount c2 remaining numDecks)%Q.
Proof.
  intros H. unfold CardCounter.getTrueCount.
  destruct (Qle_bool (inject_Z (Z.of_nat remaining) / 52) 0) eqn:E; [apply Qle_refl |].
  assert (HD : (0 < inject_Z (Z.of_nat remaining) / 52)%Q).
  { apply Qnot_le_lt. intros HL. apply Qle_bool_iff in HL. congruence. }
  unfold Qdiv at 1 3. apply Qmult_le_compat_r.
  - by rewrite <- Zle_Qle.
  - apply Qinv_le_0_compat. by apply Qlt_le_weak.
Qed.

(** X7: the rounded true count used to pick a count level is 0 when no
    card remains (the guard against dividing by zero) and when the running
    count is 0, and it never decreases when the running count grows over the
    same remaining cards. *)
Theorem getCountRange_monotone (c1 c2 : CardCounter.t) (remaining numDecks : nat) :
  CardCounter.getCountRange c1 0 numDecks = 0
  ∧ (CardCounter.runningCount c1 = 0 → CardCounter.getCountRange c1 remaining numDecks = 0)
  ∧ (CardCounter.runningCount c1 <= CardCounter.runningCount c2 →
     CardCounter.getCountRange c1 remaining numDecks
     <= CardCounter.getCountRange c2 remaining numDecks).
Proof.
  split_and!.
  - reflexivity.
  - intros H0. unfold CardCounter.getCountRange, CardCounter.getTrueCount. rewrite H0.
    destruct (Qle_bool _ 0); [reflexivity |].
    unfold CardCounter.round.
    assert (E : (inject_Z 0 / (inject_Z (Z.of_nat remaining) / 52) + (1 # 2) == 1 # 2)%Q).
    { unfold Qdiv. change (inject_Z 0) with 0%Q. rewrite Qmult_0_l. reflexivity. }
    rewrite E. reflexivity.
  - intros H. unfold CardCounter.getCountRange, CardCounter.round.
    apply Qfloor_resp_le. apply Qplus_le_compat; [| apply Qle_refl].
    by apply getTrueCount_le.
Qed.

Lemma getCountRange_monotone_witness :
  CardCounter.getCountRange (CardCounter.new "Hi-Lo") 104 2
  <= CardCounter.getCountRange
       (CardCounter.updateCount (CardCounter.new "Hi-Lo") (mkCard "5" Spades)) 104 2.
Proof.
  apply (getCountRange_monotone (CardCounter.new "Hi-Lo")
           (CardCounter.updateCount (CardCounter.new "Hi-Lo") (mkCard "5" Spades)) 104 2).
  vm_compute. discriminate.
Defined.

(** ** Strategy tables, continued *)

Lemma downgrade_not_D a : Strategy.downgrade false a ≠ "D".
Proof.
  unfold Strategy.downgrade. destruct (String.eqb_spec a "D"); cbn; [done | done].
Qed.

(** X8: when doubling is not allowed [getAction] never answers D, whatever
    the tables hold: a D entry is turned into H on every path. *)
Theorem getAction_never_D_without_double (s : Strategy.t) (playerTotal dealerCard : string)
        (canSplit : bool) (count : Z) :
  Strategy.getAction s playerTotal dealerCard false canSplit count ≠ "D".
Proof.
  unfold Strategy.getAction, Strategy.baseLookup.
  repeat case_match; try apply downgrade_not_D; try discriminate;
    simplify_eq; try apply downgrade_not_D; discriminate.
Qed.

Lemma entry_known tbl key dealer a :
  tableKnown tbl → Strategy.entry tbl key dealer = Some a → knownAction a.
Proof.
  intros HT. unfold Strategy.entry. intros H.
  destruct (tbl !! key) as [row|] eqn:E1; [| done]. cbn in H.
  destruct (row !! dealer) as [b|] eqn:E2; [| done]. cbn in H.
  destruct (Strategy.truthy b); [| done]. injection H as <-.
  eapply (HT key row E1). exact E2.
Qed.

Lemma countEntry_known tbl countKey key dealer a :
  countTableKnown tbl → Strategy.countEntry tbl countKey key dealer = Some a → knownAction a.
Proof.
  intros HT. unfold Strategy.countEntry. intros H.
  destruct (tbl !! countKey) as [sub|] eqn:E1; [| done]. cbn in H.
  eapply entry_known; [| exact H]. exact (HT countKey sub E1).
Qed.

Lemma downgrade_known cd a : knownAction a → knownAction (Strategy.downgrade cd a).
Proof.
  unfold Strategy.downgrade. destruct (_ && _); [intros _ | done].
  unfold knownAction. set_solver.
Qed.

Lemma known_H : knownAction "H". Proof. unfold knownAction. set_solver. Qed.
Lemma known_S : knownAction "S". Proof. unfold knownAction. set_solver. Qed.

(** X9: a table whose entries are all among H, S, D and P answers every
    query against one of the ten dealer cards (2 to 10 and A, the latter
    also written 11), for every player label and also where the query falls
    through to the built-in defaults, with one of these four letters; the
    constructor's table and the basic strategy are such tables. *)
Theorem getAction_known (s : Strategy.t) (playerTotal dealerCard : string)
        (canDouble canSplit : bool) (count : Z) :
  Strategy.normDealer dealerCard ∈ Strategy.dealerLabels →
  strategyKnown s →
  knownAction (Strategy.getAction s playerTotal dealerCard canDouble canSplit count)
  ∧ strategyKnown Strategy.new
  ∧ strategyKnown (Strategy.loadBasicStrategy s).
Proof.
  intros Hdealer (H1 & H2 & H3 & H4 & H5 & H6). split_and!.
  - assert (HB : knownAction
                   (Strategy.baseLookup s playerTotal (Strategy.normDealer dealerCard)
                                        canDouble canSplit)).
    { unfold Strategy.baseLookup.
      repeat case_match; simplify_eq;
        repeat match goal with
               | H : _ ≫= _ = Some _ |- _ => apply bind_Some in H as (? & ? & H)
               end;
        repeat case_match; simplify_eq;
        try apply downgrade_known;
        try (eapply entry_known; [| eassumption]; done);
        first [apply known_H | apply known_S | done]. }
    unfold Strategy.getAction.
    destruct (Strategy.countBased s && negb (count =? 0)); [| done].
    destruct (Strategy.countLookup _ _ _ _ _) as [a|] eqn:EC; [| done].
    apply downgrade_known.
    unfold Strategy.countLookup in EC.
    repeat case_match; simplify_eq;
      repeat match goal with
             | H : _ ≫= _ = Some _ |- _ => apply bind_Some in H as (? & ? & H)
             end;
      try (eapply countEntry_known; [| eassumption]; done); done.
  - apply (bool_decide_unpack _). vm_compute. reflexivity.
  - split_and!; try done; apply (bool_decide_unpack _); vm_compute; reflexivity.
Qed.

Lemma getAction_known_witness :
  knownAction (Strategy.getAction basicStrategy "S18" "9" true false 0).
Proof.
  apply (getAction_known basicStrategy "S18" "9" true false 0).
  - apply (bool_decide_unpack _). vm_compute. reflexivity.
  - apply (bool_decide_unpack _). vm_compute. reflexivity.
Defined.

(** X10: a count level without overrides plays the base strategy: when
    count-based mode is off, or none of the three count layers has a table
    for the count, the answer is the one for count 0. *)
Theorem getAction_count_fallback (s : Strategy.t) (playerTotal dealerCard : string)
        (canDouble canSplit : bool) (count : Z) :
  Strategy.countBased s = false
  ∨ (Strategy.hardByCount s !! JS.toString count = None
     ∧ Strategy.softByCount s !! JS.toString count = None
     ∧ Strategy.pairsByCount s !! JS.toString count = None) →
  Strategy.getAction s playerTotal dealerCard canDouble canSplit count
  = Strategy.getAction s playerTotal dealerCard canDouble canSplit 0.
Proof.
  intros H. unfold Strategy.getAction. cbn [Z.eqb negb andb].
  rewrite andb_false_r.
  destruct H as [->|(H1 & H2 & H3)]; [done |].
  destruct (Strategy.countBased s && negb (count =? 0)); [| done].
  unfold Strategy.countLookup, Strategy.countEntry. rewrite H1, H2, H3. cbn.
  destruct (Strategy.samePieces (JS.split "," playerTotal)); cbn;
    repeat case_match; simplify_eq; done.
Qed.

Lemma getAction_count_fallback_witness :
  Strategy.getAction basicStrategy "16" "10" true false 3
  = Strategy.getAction basicStrategy "16" "10" true false 0.
Proof.
  apply (getAction_count_fallback basicStrategy "16" "10" true false 3).
  left. reflexivity.
Defined.

(** How the three kinds of label are read by [setAction] and [getAction]. *)
Lemma hardLabels_cases pt :
  pt ∈ hardLabels →
  ∃ n, 5 <= n <= 21 ∧ JS.startsWith "S" pt = false ∧ JS.includes "," pt = false
       ∧ JS.parseInt pt = Some n.
Proof.
  intros H. let l := eval vm_compute in hardLabels in change hardLabels with l in H.
  repeat (apply elem_of_cons in H as [-> | H];
          [eexists; split_and!; [| | reflexivity | reflexivity | reflexivity]; by vm_compute |]).
  by apply elem_of_nil in H.
Qed.

Lemma softLabels_cases pt :
  pt ∈ softLabels →
  ∃ n, 13 <= n <= 21 ∧ JS.startsWith "S" pt = true ∧ JS.includes "," pt = false
       ∧ JS.parseInt (JS.substring1 pt) = Some n.
Proof.
  intros H. let l := eval vm_compute in softLabels in change softLabels with l in H.
  repeat (apply elem_of_cons in H as [-> | H];
          [eexists; split_and!; [| | reflexivity | reflexivity | reflexivity]; by vm_compute |]).
  by apply elem_of_nil in H.
Qed.

Lemma pairLabels_cases pt :
  pt ∈ pairLabels →
  ∃ c0 n, 2 <= n <= 11 ∧ JS.startsWith "S" pt = false ∧ JS.includes "," pt = true
          ∧ Strategy.samePieces (JS.split "," pt) = Some c0
          ∧ Strategy.pairValue c0 = Some n ∧ Strategy.pairValueSet c0 = Some n.
Proof.
  intros H. let l := eval vm_compute in pairLabels in change pairLabels with l in H.
  repeat (apply elem_of_cons in H as [-> | H];
          [eexists _, _; split_and!;
           [| | reflexivity | reflexivity | reflexivity | reflexivity | reflexivity];
           by vm_compute |]).
  by apply elem_of_nil in H.
Qed.

Lemma inRange_true lo hi n : lo <= n <= hi → Strategy.inRange lo hi (Some n) = true.
Proof. intros H. cbn. apply andb_true_iff. split; apply Z.leb_le; lia. Qed.

(** The cell a label addresses: [getAction] answers from it when the count
    layer is out of play. *)
Lemma getAction_reads_hard s pt dealer cd cs count n a :
  Strategy.countBased s = false ∨ count = 0 →
  5 <= n <= 21 → JS.startsWith "S" pt = false → JS.includes "," pt = false →
  JS.parseInt pt = Some n →
  Strategy.entry (Strategy.hard s) (JS.toString n) (Strategy.normDealer dealer) = Some a →
  Strategy.getAction s pt dealer cd cs count = Strategy.downgrade cd a.
Proof.
  intros Hc Hn HS HI HP HE. unfold Strategy.getAction.
  replace (Strategy.countBased s && negb (count =? 0)) with false
    by (destruct Hc as [->| ->]; [done | by rewrite andb_false_r]).
  unfold Strategy.baseLookup. rewrite HS, HI, HP, andb_false_r. cbn [negb andb].
  rewrite (inRange_true 5 21 n Hn). cbn [JS.numToString]. by rewrite HE.
Qed.

Lemma getAction_reads_soft s pt dealer cd cs count n a :
  Strategy.countBased s = false ∨ count = 0 →
  13 <= n <= 21 → JS.startsWith "S" pt = true → JS.includes "," pt = false →
  JS.parseInt (JS.substring1 pt) = Some n →
  Strategy.entry (Strategy.soft s) (JS.toString n) (Strategy.normDealer dealer) = Some a →
  Strategy.getAction s pt dealer cd cs count = Strategy.downgrade cd a.
Proof.
  intros Hc Hn HS HI HP HE. unfold Strategy.getAction.
  replace (Strategy.countBased s && negb (count =? 0)) with false
    by (destruct Hc as [->| ->]; [done | by rewrite andb_false_r]).
  unfold Strategy.baseLookup. rewrite HS, HI, HP, andb_false_r.
  rewrite (inRange_true 13 21 n Hn). cbn [JS.numToString]. by rewrite HE.
Qed.

Lemma getAction_reads_pair s pt dealer cd count c0 n a :
  Strategy.countBased s = false ∨ count = 0 →
  2 <= n <= 11 → JS.includes "," pt = true →
  Strategy.samePieces (JS.split "," pt) = Some c0 → Strategy.pairValue c0 = Some n →
  Strategy.entry (Strategy.pairs s) (JS.toString n) (Strategy.normDealer dealer) = Some a →
  Strategy.getAction s pt dealer cd true count = Strategy.downgrade cd a.
Proof.
  intros Hc Hn HI HSP HV HE. unfold Strategy.getAction.
  replace (Strategy.countBased s && negb (count =? 0)) with false
    by (destruct Hc as [->| ->]; [done | by rewrite andb_false_r]).
  unfold Strategy.baseLookup. rewrite HI, HSP. cbn [andb mbind option_bind].
  rewrite HV, (inRange_true 2 11 n Hn). cbn [JS.numToString]. by rewrite HE.
Qed.

Lemma setCell_entry tbl tbl' key dealer action :
  Strategy.setCell tbl key dealer action = Some tbl' → Strategy.truthy action = true →
  Strategy.entry tbl' key dealer = Some action.
Proof.
  unfold Strategy.setCell, Strategy.entry. intros H HT.
  destruct (tbl !! key) as [row|]; [| done]. injection H as <-.
  rewrite lookup_insert_eq. cbn. rewrite lookup_insert_eq. cbn. by rewrite HT.
Qed.

(** X11: after [setAction] has written a cell, [getAction] reads it back
    for the same label and dealer card (with D turned into H when doubling is
    not allowed), as long as the count layer is out of play; this holds for
    the hard labels 5 to 21, the soft labels S13 to S21 and the pair labels
    2,2 to 10,10 and A,A (read with [canSplit] set), for each of the ten
    dealer cards and every non-empty action. *)
Theorem setAction_getAction (s s' : Strategy.t) (pt dealer action : string)
        (cd cs : bool) (count : Z) :
  pt ∈ hardLabels ++ softLabels ++ pairLabels →
  Strategy.normDealer dealer ∈ Strategy.dealerLabels →
  (pt ∈ pairLabels → cs = true) →
  Strategy.truthy action = true →
  Strategy.countBased s = false ∨ count = 0 →
  Strategy.setAction s pt dealer action = Some s' →
  Strategy.getAction s' pt dealer cd cs count = Strategy.downgrade cd action.
Proof.
  intros Hpt Hdealer Hcs HT Hc Hset.
  apply elem_of_app in Hpt as [Hpt|Hpt]; [| apply elem_of_app in Hpt as [Hpt|Hpt]].
  - destruct (hardLabels_cases pt Hpt) as (n & Hn & HS & HI & HP).
    unfold Strategy.setAction in Hset. rewrite HS, HI, HP, (inRange_true 5 21 n Hn) in Hset.
    cbn [JS.numToString] in Hset.
    destruct (Strategy.setCell _ _ _ _) as [tbl|] eqn:E; [| done]. injection Hset as <-.
    eapply getAction_reads_hard; eauto. cbn. eapply setCell_entry; eauto.
  - destruct (softLabels_cases pt Hpt) as (n & Hn & HS & HI & HP).
    unfold Strategy.setAction in Hset. rewrite HS, HP, (inRange_true 13 21 n Hn) in Hset.
    cbn [JS.numToString] in Hset.
    destruct (Strategy.setCell _ _ _ _) as [tbl|] eqn:E; [| done]. injection Hset as <-.
    eapply getAction_reads_soft; eauto. cbn. eapply setCell_entry; eauto.
  - destruct (pairLabels_cases pt Hpt) as (c0 & n & Hn & HS & HI & HSP & HV & HVS).
    rewrite (Hcs Hpt).
    unfold Strategy.setAction in Hset.
    rewrite HS, HI, HSP, HVS, (inRange_true 2 11 n Hn) in Hset.
    cbn [JS.numToString] in Hset.
    destruct (Strategy.setCell _ _ _ _) as [tbl|] eqn:E; [| done]. injection Hset as <-.
    eapply getAction_reads_pair; eauto. cbn. eapply setCell_entry; eauto.
Qed.

Lemma setAction_getAction_witness :
  ∃ s', Strategy.setAction tinyStrategy "16" "10" "S" = Some s'
        ∧ Strategy.getAction s' "16" "10" true false 0 = Strategy.downgrade true "S".
Proof.
  assert (H : ∃ s', Strategy.setAction tinyStrategy "16" "10" "S" = Some s')
    by (eexists; vm_compute; reflexivity).
  destruct H as [s' H]. exists s'. split; [exact H |].
  apply (setAction_getAction tinyStrategy s' "16" "10" "S" true false 0).
  - apply (bool_decide_unpack _). vm_compute. reflexivity.
  - apply (bool_decide_unpack _). vm_compute. reflexivity.
  - intros Hp. exfalso. revert Hp. apply (bool_decide_unpack _). vm_compute. reflexivity.
  - reflexivity.
  - left. reflexivity.
  - exact H.
Defined.

Lemma sameCellsBut_refl tbl key dealer : sameCellsBut tbl tbl key dealer.
Proof. by intros k d _. Qed.

Lemma setCell_frame tbl tbl' key dealer action :
  Strategy.setCell tbl key dealer action = Some tbl' → sameCellsBut tbl tbl' key dealer.
Proof.
  unfold Strategy.setCell. intros H k d Hne.
  destruct (tbl !! key) as [row|] eqn:E; [| done]. injection H as <-.
  destruct (decide (k = key)) as [->|Hk].
  - rewrite lookup_insert_eq, E. cbn. destruct Hne as [?|Hd]; [done |].
    by rewrite lookup_insert_ne.
  - by rewrite lookup_insert_ne.
Qed.

(** X12: [setAction] writes one cell at most.  The count layers and the
    flag are kept; of the three base tables the two the label does not
    address ([soft] for a label that starts with S, [pairs] for one with a
    comma, [hard] otherwise) are left as they are, and the addressed one
    agrees with the old one everywhere except at the dealer's column of one
    row. *)
Theorem setAction_frame (s s' : Strategy.t) (pt dealer action : string) :
  Strategy.setAction s pt dealer action = Some s' →
  Strategy.countBased s' = Strategy.countBased s
  ∧ Strategy.hardByCount s' = Strategy.hardByCount s
  ∧ Strategy.softByCount s' = Strategy.softByCount s
  ∧ Strategy.pairsByCount s' = Strategy.pairsByCount s
  ∧ ∃ key,
      if JS.startsWith "S" pt then
        Strategy.hard s' = Strategy.hard s ∧ Strategy.pairs s' = Strategy.pairs s
        ∧ sameCellsBut (Strategy.soft s) (Strategy.soft s') key (Strategy.normDealer dealer)
      else if JS.includes "," pt then
        Strategy.hard s' = Strategy.hard s ∧ Strategy.soft s' = Strategy.soft s
        ∧ sameCellsBut (Strategy.pairs s) (Strategy.pairs s') key (Strategy.normDealer dealer)
      else
        Strategy.soft s' = Strategy.soft s ∧ Strategy.pairs s' = Strategy.pairs s
        ∧ sameCellsBut (Strategy.hard s) (Strategy.hard s') key (Strategy.normDealer dealer).
Proof.
  unfold Strategy.setAction. intros H.
  destruct (JS.startsWith "S" pt); [| destruct (JS.includes "," pt)];
    repeat case_match; simplify_eq;
    try (split_and!; try done; exists ""; split_and!; try done; apply sameCellsBut_refl).
  all: match goal with
       | H : _ ≫= _ = Some _ |- _ => apply bind_Some in H as (tbl & Hc & H)
       end; injection H as <-; cbn; split_and!; try done;
    eexists; split_and!; try done; eapply setCell_frame; eassumption.
Qed.

Lemma setAction_frame_witness :
  ∃ s', Strategy.setAction tinyStrategy "16" "10" "S" = Some s'
        ∧ Strategy.countBased s' = Strategy.countBased tinyStrategy
        ∧ Strategy.hardByCount s' = Strategy.hardByCount tinyStrategy
        ∧ ∃ key, Strategy.soft s' = Strategy.soft tinyStrategy
                 ∧ Strategy.pairs s' = Strategy.pairs tinyStrategy
                 ∧ sameCellsBut (Strategy.hard tinyStrategy) (Strategy.hard s') key "10".
Proof.
  assert (H : ∃ s', Strategy.setAction tinyStrategy "16" "10" "S" = Some s')
    by (eexists; vm_compute; reflexivity).
  destruct H as [s' H]. exists s'. split; [exact H |].
  destruct (setAction_frame tinyStrategy s' "16" "10" "S" H) as (H1 & H2 & _ & _ & key & H3).
  split; [exact H1 |]. split; [exact H2 |]. exists key. exact H3.
Defined.

Lemma setCountCell_entry tbl countKey key dealer action :
  Strategy.truthy action = true →
  Strategy.countEntry (Strategy.setCountCell tbl countKey key dealer action)
                      countKey key dealer = Some action.
Proof.
  intros HT. unfold Strategy.countEntry, Strategy.setCountCell, Strategy.entry.
  rewrite lookup_insert_eq. cbn. rewrite lookup_insert_eq. cbn.
  rewrite lookup_insert_eq. cbn. by rewrite HT.
Qed.

(** X13: an override written by [setCountAction] for a count other than 0
    is what [getAction] answers at that count for the same label and dealer
    card (D turned into H when doubling is not allowed), for the hard labels
    5 to 21, the soft labels S13 to S21 and the pair labels 2,2 to 10,10 and
    A,A (read with [canSplit] set), each of the ten dealer cards and every
    non-empty action; count-based mode is switched on, and play at count 0
    is as before. *)
Theorem setCountAction_getAction (s : Strategy.t) (count : Z) (pt dealer action : string)
        (cd cs : bool) :
  pt ∈ hardLabels ++ softLabels ++ pairLabels →
  Strategy.normDealer dealer ∈ Strategy.dealerLabels →
  (pt ∈ pairLabels → cs = true) →
  Strategy.truthy action = true →
  count ≠ 0 →
  Strategy.getAction (Strategy.setCountAction s count pt dealer action) pt dealer cd cs count
  = Strategy.downgrade cd action
  ∧ Strategy.countBased (Strategy.setCountAction s count pt dealer action) = true
  ∧ (∀ pt' dealer' cd' cs',
       Strategy.getAction (Strategy.setCountAction s count pt dealer action) pt' dealer' cd' cs' 0
       = Strategy.getAction s pt' dealer' cd' cs' 0).
Proof.
  intros Hpt Hdealer Hcs HT Hcount.
  assert (Hbase : ∀ pt' dealer' cd' cs',
             Strategy.getAction (Strategy.setCountAction s count pt dealer action)
                                pt' dealer' cd' cs' 0
             = Strategy.getAction s pt' dealer' cd' cs' 0).
  { intros. unfold Strategy.getAction. cbn [Z.eqb negb]. rewrite !andb_false_r.
    unfold Strategy.setCountAction. by repeat case_match. }
  assert (Hflag : Strategy.countBased (Strategy.setCountAction s count pt dealer action) = true).
  { unfold Strategy.setCountAction. by repeat case_match. }
  split_and!; [| done | done].
  unfold Strategy.getAction. rewrite Hflag.
  replace (negb (count =? 0)) with true by (symmetry; apply negb_true_iff, Z.eqb_neq; done).
  cbn [andb]. unfold Strategy.countLookup, Strategy.setCountAction.
  apply elem_of_app in Hpt as [Hpt|Hpt]; [| apply elem_of_app in Hpt as [Hpt|Hpt]].
  - destruct (hardLabels_cases pt Hpt) as (n & Hn & HS & HI & HP).
    rewrite HS, HI, HP, andb_false_r. cbn. by rewrite setCountCell_entry.
  - destruct (softLabels_cases pt Hpt) as (n & Hn & HS & HI & HP).
    rewrite HS, HI, HP, andb_false_r. cbn. by rewrite setCountCell_entry.
  - destruct (pairLabels_cases pt Hpt) as (c0 & n & Hn & HS & HI & HSP & HV & HVS).
    rewrite (Hcs Hpt), HS, HI, HSP. cbn. rewrite HV, HVS. by rewrite setCountCell_entry.
Qed.

Lemma setCountAction_getAction_witness :
  Strategy.getAction (Strategy.setCountAction basicStrategy 2 "16" "10" "S") "16" "10" true false 2
  = Strategy.downgrade true "S".
Proof.
  apply (setCountAction_getAction basicStrategy 2 "16" "10" "S" true false).
  - apply (bool_decide_unpack _). vm_compute. reflexivity.
  - apply (bool_decide_unpack _). vm_compute. reflexivity.
  - intros Hp. exfalso. revert Hp. apply (bool_decide_unpack _). vm_compute. reflexivity.
  - reflexivity.
  - lia.
Defined.

Lemma inRange_Some lo hi total :
  Strategy.inRange lo hi total = true → ∃ n, total = Some n ∧ lo <= n <= hi.
Proof.
  destruct total as [n|]; [| done]. cbn. rewrite andb_true_iff, !Z.leb_le. eauto.
Qed.

Lemma setCell_present tbl key dealer action :
  is_Some (tbl !! key) →
  ∃ tbl', Strategy.setCell tbl key dealer action = Some tbl'
          ∧ ∀ k, is_Some (tbl !! k) → is_Some (tbl' !! k).
Proof.
  intros [row E]. unfold Strategy.setCell. rewrite E. cbn. eexists. split; [reflexivity |].
  intros k Hk. destruct (decide (key = k)) as [->|Hne].
  - rewrite lookup_insert_eq. eauto.
  - by rewrite lookup_insert_ne.
Qed.

(** The rows written by [fillRows] all hold the same full row. *)
Lemma fillRows_lookup lo n action tbl k :
  k ∈ JS.toString <$> seqZ lo n →
  Strategy.fillRows lo n action tbl !! k
  = Some (foldl (λ row d, <[d := action]> row) ∅ Strategy.dealerLabels).
Proof.
  unfold Strategy.fillRows. generalize (seqZ lo n). intros l Hk.
  assert (H : k ∈ JS.toString <$> l
              ∨ tbl !! k = Some (foldl (λ row d, <[d := action]> row) ∅ Strategy.dealerLabels))
    by (by left).
  clear Hk. revert tbl H. induction l as [|x l IH]; intros tbl H.
  - destruct H as [H|H]; [by apply elem_of_nil in H | done].
  - cbn [foldl]. apply IH. destruct (decide (JS.toString x = k)) as [<-|Hne].
    + right. by rewrite lookup_insert_eq.
    + destruct H as [H|H].
      * left. rewrite fmap_cons in H. apply elem_of_cons in H as [H|H]; [congruence | done].
      * right. by rewrite lookup_insert_ne.
Qed.

Lemma range_label lo n z : lo <= z < lo + n → JS.toString z ∈ JS.toString <$> seqZ lo n.
Proof. intros H. apply list_elem_of_fmap_2. apply elem_of_seqZ. lia. Qed.

Lemma rowsPresent_initializeEmpty s : rowsPresent (Strategy.initializeEmpty s).
Proof.
  split_and!; intros n Hn; cbn; rewrite fillRows_lookup; eauto; apply range_label; lia.
Qed.

Lemma rowsPresent_basic s : rowsPresent (Strategy.loadBasicStrategy s).
Proof.
  split_and!; intros n Hn; cbn.
  - assert (H : n ∈ seqZ 5 17) by (apply elem_of_seqZ; lia).
    let l := eval vm_compute in (seqZ 5 17) in change (seqZ 5 17) with l in H.
    repeat (apply elem_of_cons in H as [-> | H];
            [apply (bool_decide_unpack _); vm_compute; reflexivity |]).
    by apply elem_of_nil in H.
  - assert (H : n ∈ seqZ 13 9) by (apply elem_of_seqZ; lia).
    let l := eval vm_compute in (seqZ 13 9) in change (seqZ 13 9) with l in H.
    repeat (apply elem_of_cons in H as [-> | H];
            [apply (bool_decide_unpack _); vm_compute; reflexivity |]).
    by apply elem_of_nil in H.
  - assert (H : n ∈ seqZ 2 10) by (apply elem_of_seqZ; lia).
    let l := eval vm_compute in (seqZ 2 10) in change (seqZ 2 10) with l in H.
    repeat (apply elem_of_cons in H as [-> | H];
            [apply (bool_decide_unpack _); vm_compute; reflexivity |]).
    by apply elem_of_nil in H.
Qed.

(** X14: on a table that holds the rows 5 to 21, 13 to 21 and 2 to 11 of
    its three base tables, [setAction] never raises, for any label, dealer
    card and action, and it keeps these rows; the constructor,
    [initializeEmpty] and [loadBasicStrategy] produce such tables. *)
Theorem setAction_never_raises (s s0 : Strategy.t) (pt dealer action : string) :
  rowsPresent s →
  (∃ s', Strategy.setAction s pt dealer action = Some s' ∧ rowsPresent s')
  ∧ rowsPresent Strategy.new
  ∧ rowsPresent (Strategy.initializeEmpty s0)
  ∧ rowsPresent (Strategy.loadBasicStrategy s0).
Proof.
  intros (Hh & Hs & Hp).
  split_and!; [| apply rowsPresent_initializeEmpty | apply rowsPresent_initializeEmpty
               | apply rowsPresent_basic].
  assert (Hsame : ∃ s', Some s = Some s' ∧ rowsPresent s')
    by (exists s; split; [done | by split_and!]).
  unfold Strategy.setAction.
  destruct (JS.startsWith "S" pt).
  - destruct (Strategy.inRange 13 21 _) eqn:E; [| done].
    apply inRange_Some in E as (n & -> & Hn).
    destruct (setCell_present (Strategy.soft s) (JS.toString n) (Strategy.normDealer dealer)
                action (Hs n Hn)) as (tbl & Et & Hk).
    cbn [JS.numToString]. rewrite Et. cbn.
    eexists. split; [reflexivity |]. split_and!; cbn; eauto.
  - destruct (JS.includes "," pt).
    + destruct (Strategy.samePieces _) as [c0|]; [| done].
      destruct (Strategy.inRange 2 11 _) eqn:E; [| done].
      apply inRange_Some in E as (n & -> & Hn).
      destruct (setCell_present (Strategy.pairs s) (JS.toString n) (Strategy.normDealer dealer)
                  action (Hp n Hn)) as (tbl & Et & Hk).
      cbn [JS.numToString]. rewrite Et. cbn.
      eexists. split; [reflexivity |]. split_and!; cbn; eauto.
    + destruct (Strategy.inRange 5 21 _) eqn:E; [| done].
      apply inRange_Some in E as (n & -> & Hn).
      destruct (setCell_present (Strategy.hard s) (JS.toString n) (Strategy.normDealer dealer)
                  action (Hh n Hn)) as (tbl & Et & Hk).
      cbn [JS.numToString]. rewrite Et. cbn.
      eexists. split; [reflexivity |]. split_and!; cbn; eauto.
Qed.

Lemma setAction_never_raises_witness :
  ∃ s', Strategy.setAction basicStrategy "A,A" "6" "P" = Some s' ∧ rowsPresent s'.
Proof.
  apply (setAction_never_raises basicStrategy basicStrategy "A,A" "6" "P").
  apply rowsPresent_basic.
Defined.

Lemma fullRow_lookup action dealer :
  dealer ∈ Strategy.dealerLabels →
  foldl (λ row d, <[d := action]> row) (∅ : gmap string string) Strategy.dealerLabels
    !! dealer = Some action
  ∧ Strategy.normDealer dealer = dealer.
Proof.
  intros H. let l := eval vm_compute in Strategy.dealerLabels in
            change Strategy.dealerLabels with l in H |- *.
  repeat (apply elem_of_cons in H as [-> | H]; [split; vm_compute; reflexivity |]).
  by apply elem_of_nil in H.
Qed.

Lemma fillRows_entry lo n action tbl z dealer :
  lo <= z < lo + n → dealer ∈ Strategy.dealerLabels → Strategy.truthy action = true →
  Strategy.entry (Strategy.fillRows lo n action tbl) (JS.toString z)
                 (Strategy.normDealer dealer) = Some action.
Proof.
  intros Hz Hd HT. unfold Strategy.entry.
  rewrite (fillRows_lookup lo n action tbl (JS.toString z)) by (by apply range_label).
  destruct (fullRow_lookup action dealer Hd) as [E ->]. cbn. rewrite E. cbn. by rewrite HT.
Qed.

(** X15: importing an empty object resets the table: every hard and soft
    label of the engine then answers S and every pair label H against every
    dealer card, at any count; count-based mode is off and the count layers
    are empty, whatever the table held before. *)
Theorem importData_empty (s : Strategy.t) (pt dealer : string) (cd cs : bool) (count : Z) :
  dealer ∈ Strategy.dealerLabels →
  (pt ∈ hardLabels ++ softLabels →
   Strategy.getAction (Strategy.importData s emptyData) pt dealer cd cs count = "S")
  ∧ (pt ∈ pairLabels →
     Strategy.getAction (Strategy.importData s emptyData) pt dealer cd true count = "H")
  ∧ Strategy.countBased (Strategy.importData s emptyData) = false
  ∧ Strategy.hardByCount (Strategy.importData s emptyData) = ∅
  ∧ Strategy.softByCount (Strategy.importData s emptyData) = ∅
  ∧ Strategy.pairsByCount (Strategy.importData s emptyData) = ∅.
Proof.
  intros Hd. split_and!; try reflexivity.
  - intros Hpt. apply elem_of_app in Hpt as [Hpt|Hpt].
    + destruct (hardLabels_cases pt Hpt) as (n & Hn & HS & HI & HP).
      rewrite (getAction_reads_hard _ pt dealer cd cs count n "S");
        [reflexivity | by left | done..|].
      cbn. apply fillRows_entry; [lia | done | reflexivity].
    + destruct (softLabels_cases pt Hpt) as (n & Hn & HS & HI & HP).
      rewrite (getAction_reads_soft _ pt dealer cd cs count n "S");
        [reflexivity | by left | done..|].
      cbn. apply fillRows_entry; [lia | done | reflexivity].
  - intros Hpt. destruct (pairLabels_cases pt Hpt) as (c0 & n & Hn & HS & HI & HSP & HV & HVS).
    rewrite (getAction_reads_pair _ pt dealer cd count c0 n "H");
      [reflexivity | by left | done..|].
    cbn. apply fillRows_entry; [lia | done | reflexivity].
Qed.

Lemma importData_empty_witness :
  Strategy.getAction (Strategy.importData basicStrategy emptyData) "11" "6" true false 0 = "S".
Proof.
  apply (importData_empty basicStrategy "11" "6" true false 0).
  - apply (bool_decide_unpack _). vm_compute. reflexivity.
  - apply (bool_decide_unpack _). vm_compute. reflexivity.
Defined.

(** ** The player's loop, continued *)

Lemma betSum_app hs1 hs2 : betSum (hs1 ++ hs2) = betSum hs1 + betSum hs2.
Proof.
  induction hs1 as [|h hs1 IH]; [done |].
  change (Hand.bet h + betSum (hs1 ++ hs2) = Hand.bet h + betSum hs1 + betSum hs2). lia.
Qed.

Lemma betSum_cons h hs : betSum (h :: hs) = BlackjackGame.Hand.bet h + betSum hs.
Proof. reflexivity. Qed.

Lemma freshHand_played h : freshHand h → playedHand h.
Proof. intros [? ?]. split; by left. Qed.

Lemma resolve_double action mayDouble maySplit :
  resolve action mayDouble maySplit = Double → mayDouble = true.
Proof.
  unfold resolve. repeat case_match; done.
Qed.

Lemma resolve_split_may action mayDouble maySplit :
  resolve action mayDouble maySplit = Split → maySplit = true.
Proof.
  unfold resolve. repeat case_match; done.
Qed.

Lemma game_dealCard_inv (s s' : t) (c : Card) :
  dealCard s = Done c s' →
  rules s' = rules s
  ∧ (shoeInv s → shoeInv s' ∧ Deck.numDecks (deck s') = Deck.numDecks (deck s)).
Proof.
  unfold dealCard. intros H.
  destruct (Deck.dealCard _ _ _) as [[[[c0 d] k] g]|] eqn:E; [| done].
  injection H as <- <-. split; [done |]. intros [Hn Hi]. cbn.
  destruct (dealCard_inv (deck s) (counter s) (random s) Hn (λ _, Hi))
    as (c1 & d1 & k1 & g1 & E1 & Hi1 & Hn1 & _).
  rewrite E in E1. simplify_eq. split; [split; [cbn; lia | done] | done].
Qed.

Lemma insert_middle_length {A} (l1 l2 : list A) (x y : A) :
  <[length l1 := y]> (l1 ++ x :: l2) = l1 ++ y :: l2.
Proof.
  rewrite insert_app_r_alt by lia. by rewrite Nat.sub_diag.
Qed.

Lemma playLoop_inv strategy dealerUpCard canDouble (fuel : nat) :
  ∀ (pre post : list Hand.t) (totalBet : Z) (s s' : t) (hands' : list Hand.t) (totalBet' : Z),
    playLoop fuel strategy dealerUpCard canDouble (length pre) (pre ++ post) totalBet s
    = Done (hands', totalBet') s' →
    totalBet = betSum (pre ++ post) → Forall playedHand pre → Forall freshHand post →
    totalBet' = betSum hands' ∧ Forall playedHand hands'
    ∧ (length (pre ++ post) <= length hands')%nat
    ∧ rules s' = rules s
    ∧ (∀ I, dealStable I → I s → I s')
    ∧ (allowResplit (rules s) = false → resplitAces (rules s) = false →
       (length (pre ++ post) <= 2)%nat → (length hands' <= 2)%nat).
Proof.
  induction fuel as [|fuel IH]; intros pre post tb s s' hands' tb' H Htb Hd Hr; [done |].
  cbn [playLoop] in H.
  destruct post as [|hand post].
  { rewrite app_nil_r in H. rewrite lookup_ge_None_2 in H by lia.
    injection H as <- <- <-. rewrite app_nil_r in Htb |- *. split_and!; try done. }
  rewrite list_lookup_middle in H by done.
  apply Forall_cons in Hr as [Hh Hr].
  assert (Hadv : ∀ h' tb1 s1,
             playLoop fuel strategy dealerUpCard canDouble (S (length pre))
                      (pre ++ h' :: post) tb1 s1 = Done (hands', tb') s' →
             tb1 = betSum (pre ++ h' :: post) → playedHand h' →
             tb' = betSum hands' ∧ Forall playedHand hands'
             ∧ (length (pre ++ h' :: post) <= length hands')%nat
             ∧ rules s' = rules s1
             ∧ (∀ I, dealStable I → I s1 → I s')
             ∧ (allowResplit (rules s1) = false → resplitAces (rules s1) = false →
                (length (pre ++ h' :: post) <= 2)%nat → (length hands' <= 2)%nat)).
  { intros h' tb1 s1 H1 Htb1 Hp.
    replace (S (length pre)) with (length (pre ++ [h'])) in H1
      by (rewrite length_app; cbn; lia).
    rewrite (cons_middle h' pre post), app_assoc in H1, Htb1 |- *.
    apply IH in H1; [done | done | | done].
    apply Forall_app; split; [done | by apply Forall_singleton]. }
  destruct (isBust (Hand.cards hand) || isBlackjack (Hand.cards hand)) eqn:Eskip.
  { apply Hadv in H; [done | done | by apply freshHand_played]. }
  apply bind_Done in H as (s0 & s1 & Hget & H). injection Hget as <- <-.
  destruct Hh as [Hbet Hres].
  destruct (nextMove strategy dealerUpCard canDouble (length pre) (pre ++ hand :: post)
                     (Hand.cards hand) s) eqn:Emove.
  - apply Hadv in H; [done | done | by apply freshHand_played].
  - apply bind_Done in H as (c & s1 & Hc & H).
    pose proof (game_dealCard_inv _ _ _ Hc) as [Hrules _].
    rewrite !insert_middle_length in H.
    destruct (isBust (Hand.cards hand ++ [c])) eqn:Eb.
    + apply Hadv in H.
      * destruct H as (H1 & H2 & H3 & H4 & H5 & H6).
        rewrite !length_app in H3, H6 |- *. cbn [length] in H3, H6 |- *.
        rewrite Hrules in H4, H6. split_and!; try done.
        intros I HI Hs. apply (H5 I HI). by apply (HI _ _ _ Hc).
      * rewrite Htb, !betSum_app. cbn. lia.
      * split; cbn; [by left | by right].
    + apply (IH pre (withCards hand (Hand.cards hand ++ [c]) :: post)) in H.
      * destruct H as (H1 & H2 & H3 & H4 & H5 & H6).
        rewrite !length_app in H3, H6 |- *. cbn [length] in H3, H6 |- *.
        rewrite Hrules in H4, H6. split_and!; try done.
        intros I HI Hs. apply (H5 I HI). by apply (HI _ _ _ Hc).
      * rewrite Htb, !betSum_app. cbn. lia.
      * done.
      * apply Forall_cons; split; [by split | done].
  - apply bind_Done in H as (c & s1 & Hc & H).
    pose proof (game_dealCard_inv _ _ _ Hc) as [Hrules _].
    rewrite !insert_middle_length in H.
    unfold nextMove in Emove. apply resolve_double in Emove.
    unfold canDoubleThisHand in Emove. apply andb_true_iff in Emove as [Elen _].
    apply Nat.eqb_eq in Elen.
    apply Hadv in H.
    + destruct H as (H1 & H2 & H3 & H4 & H5 & H6).
      rewrite !length_app in H3, H6 |- *. cbn [length] in H3, H6 |- *.
      rewrite Hrules in H4, H6. split_and!; try done.
      intros I HI Hs. apply (H5 I HI). by apply (HI _ _ _ Hc).
    + rewrite Htb, !betSum_app. cbn. rewrite !Hbet. change ((1 * 2) `div` 2) with 1. lia.
    + split; cbn; [right | by left]. rewrite Hbet, length_app, Elen. done.
  - unfold nextMove in Emove. apply resolve_split_may in Emove.
    unfold canSplitThisHand in Emove. apply andb_true_iff in Emove as [Epair Eres].
    unfold popCard in H.
    destruct (Deck.pop (Hand.cards hand)) as [[card rest]|] eqn:Epop; [| done].
    apply bind_Done in H as (c1 & s1 & Hc1 & H).
    pose proof (game_dealCard_inv _ _ _ Hc1) as [Hrules1 _].
    apply bind_Done in H as (c2 & s2 & Hc2 & H).
    pose proof (game_dealCard_inv _ _ _ Hc2) as [Hrules2 _].
    rewrite !insert_middle_length in H. rewrite <- app_assoc in H. cbn [app] in H.
    apply (IH pre (withCards hand (rest ++ [c2])
                     :: post ++ [{| Hand.cards := [card; c1]; Hand.bet := Hand.bet hand;
                                    Hand.result := None |}])) in H.
    + destruct H as (H1 & H2 & H3 & H4 & H5 & H6).
      rewrite !length_app in H3, H6 |- *. cbn [length] in H3, H6 |- *.
      rewrite !length_app in H3, H6. cbn [length] in H3, H6.
      rewrite Hrules2, Hrules1 in H4, H6. split_and!; [done | done | lia | done | |].
      * intros I HI Hs. apply (H5 I HI), (HI _ _ _ Hc2), (HI _ _ _ Hc1), Hs.
      * intros Ha Hr' Hlen. apply H6; [done | done |].
        unfold canResplit, hasSplit in Eres. rewrite Ha, Hr' in Eres.
        rewrite length_app in Eres. cbn [length] in Eres.
        destruct (Nat.ltb_spec 1 (length pre + S (length post))); [by destruct (isAcePair _) |].
        lia.
    + rewrite Htb, !betSum_app, !betSum_cons, betSum_app, betSum_cons. cbn. lia.
    + done.
    + apply Forall_cons; split; [by split |].
      apply Forall_app; split; [done | apply Forall_singleton; by split].
Qed.

Lemma playedHand_bet hs :
  Forall playedHand hs →
  Z.of_nat (length hs) <= betSum hs <= 2 * Z.of_nat (length hs).
Proof.
  induction 1 as [|h hs [[Hb|[Hb _]] _] _ IH]; [done | |];
    rewrite betSum_cons, Hb; cbn [length]; lia.
Qed.


(** X16: when [playHand] returns, [totalBet] is the sum of the bets of
    the hands it returns, of which there is at least one; every bet is one
    stake or two, so [totalBet] lies between the number of hands and twice
    that number.  A doubled bet sits on exactly three cards, and a hand is
    marked as lost only if it is bust; no other result is ever written. *)
Theorem playHand_hands_shape (fuel : nat) (initialCards : list Card) (dealerUpCard : Card)
        (strategy : Strategy.t) (canDouble : bool) (s s' : t)
        (hands : list Hand.t) (totalBet : Z) :
  playHand fuel initialCards dealerUpCard strategy canDouble s = Done (hands, totalBet) s' →
  totalBet = betSum hands
  ∧ (1 <= length hands)%nat
  ∧ Z.of_nat (length hands) <= totalBet <= 2 * Z.of_nat (length hands)
  ∧ ∀ h, h ∈ hands →
         (Hand.bet h = 1 ∨ Hand.bet h = 2)
         ∧ (Hand.bet h = 2 → length (Hand.cards h) = 3%nat)
         ∧ (Hand.result h = None ∨ Hand.result h = Some "lose")
         ∧ (Hand.result h = Some "lose" → isBust (Hand.cards h) = true).
Proof.
  unfold playHand. intros H.
  apply (playLoop_inv _ _ _ _ []) in H as (H1 & H2 & H3 & _); [| done | done |].
  - split_and!; [done | done | rewrite H1; by apply playedHand_bet.. |].
    intros h Hh. rewrite Forall_forall in H2. destruct (H2 h Hh) as [Hb Hr]. split_and!.
    + destruct Hb as [?|[? _]]; [by left | by right].
    + intros E. destruct Hb as [?|[_ ?]]; [lia | done].
    + destruct Hr as [?|[? _]]; [by left | by right].
    + intros E. destruct Hr as [?|[_ ?]]; [congruence | done].
  - apply Forall_singleton. by split.
Qed.

Lemma playHand_hands_shape_witness :
  ∃ hands totalBet s',
    playHand 20 [mkCard "8" Spades; mkCard "8" Hearts] (mkCard "10" Spades) basicStrategy true
             eightsGame = Done (hands, totalBet) s'
    ∧ totalBet = betSum hands
    ∧ Z.of_nat (length hands) <= totalBet <= 2 * Z.of_nat (length hands).
Proof.
  assert (H : ∃ res s',
             playHand 20 [mkCard "8" Spades; mkCard "8" Hearts] (mkCard "10" Spades)
                      basicStrategy true eightsGame = Done res s')
    by (eexists _, _; vm_compute; reflexivity).
  destruct H as ([hands totalBet] & s' & H). exists hands, totalBet, s'.
  split; [exact H |].
  destruct (playHand_hands_shape 20 _ _ _ _ _ _ _ _ H) as (H1 & _ & H2 & _).
  split; [exact H1 | exact H2].
Defined.

(** X18: under rules that allow neither resplitting nor resplitting Aces,
    [playHand] never returns more than two hands. *)
Theorem playHand_no_resplit (fuel : nat) (initialCards : list Card) (dealerUpCard : Card)
        (strategy : Strategy.t) (canDouble : bool) (s s' : t)
        (hands : list Hand.t) (totalBet : Z) :
  allowResplit (rules s) = false → resplitAces (rules s) = false →
  playHand fuel initialCards dealerUpCard strategy canDouble s = Done (hands, totalBet) s' →
  (length hands <= 2)%nat.
Proof.
  unfold playHand. intros Ha Hr H.
  apply (playLoop_inv _ _ _ _ []) in H as (_ & _ & _ & _ & _ & H6); [| done | done |].
  - apply H6; [done | done | cbn; lia].
  - apply Forall_singleton. by split.
Qed.

Lemma playHand_no_resplit_witness :
  ∃ hands totalBet s',
    playHand 20 [mkCard "8" Spades; mkCard "8" Hearts] (mkCard "10" Spades) basicStrategy true
             eightsGame = Done (hands, totalBet) s'
    ∧ (length hands <= 2)%nat.
Proof.
  assert (H : ∃ res s',
             playHand 20 [mkCard "8" Spades; mkCard "8" Hearts] (mkCard "10" Spades)
                      basicStrategy true eightsGame = Done res s')
    by (eexists _, _; vm_compute; reflexivity).
  destruct H as ([hands totalBet] & s' & H). exists hands, totalBet, s'.
  split; [exact H |].
  apply (playHand_no_resplit 20 _ _ _ _ eightsGame _ _ _ eq_refl eq_refl H).
Defined.

(** ** A complete game *)

Lemma playDealer_inv (fuel : nat) :
  ∀ (hand : list Card) (s s' : t) (final : list Card),
    playDealer fuel hand s = Done final s' →
    rules s' = rules s ∧ (∀ I, dealStable I → I s → I s').
Proof.
  induction fuel as [|fuel IH]; intros hand s s' final H; [done |].
  cbn [playDealer] in H.
  apply bind_Done in H as (s0 & s1 & Hget & H). injection Hget as <- <-.
  destruct (21 <? hvalue (calculateHandValue hand)); [by injection H as _ <- |].
  destruct (standValue (rules s) (calculateHandValue hand) <=? hvalue (calculateHandValue hand));
    [by injection H as _ <- |].
  apply bind_Done in H as (c & s1 & Hc & H).
  pose proof (game_dealCard_inv _ _ _ Hc) as [Hrules _].
  apply IH in H as [H1 H2]. split; [congruence |].
  intros I HI Hs. apply (H2 I HI), (HI _ _ _ Hc), Hs.
Qed.

(** What holds of the state before a game, and is kept by every card
    dealt and every reshuffle, holds after the game. *)
Lemma playGame_stable (I : t → Prop) fuel strategy betSize (s s' : t) (r : GameResult) :
  gameStable I → playGame fuel strategy betSize s = Done r s' → I s → I s'.
Proof.
  unfold playGame. intros [HI HS] H Hs.
  apply bind_Done in H as (s0 & s1 & Hget & H). injection Hget as <- <-.
  apply bind_Done in H as (u & s1 & Hsh & H).
  assert (Hs1 : I s1).
  { destruct (Deck.shouldReshuffle (deck s)).
    - by apply (HS _ _ _ Hsh).
    - by injection Hsh as _ <-. }
  clear Hsh Hs.
  apply bind_Done in H as (p1 & s2 & Hc & H). apply (HI _ _ _ Hc) in Hs1. clear Hc.
  apply bind_Done in H as (p2 & s3 & Hc & H). apply (HI _ _ _ Hc) in Hs1. clear Hc.
  apply bind_Done in H as (d1 & s4 & Hc & H). apply (HI _ _ _ Hc) in Hs1. clear Hc.
  apply bind_Done in H as (d2 & s5 & Hc & H). apply (HI _ _ _ Hc) in Hs1. clear Hc.
  apply bind_Done in H as (sg & s6 & Hget & H). injection Hget as <- <-.
  destruct (isBlackjack [p1; p2]).
  { destruct (isBlackjack [d1; d2]); by injection H as _ <-. }
  destruct (isBlackjack [d1; d2]); [by injection H as _ <- |].
  apply bind_Done in H as ([hs tb] & s6 & Hp & H).
  unfold playHand in Hp.
  apply (playLoop_inv _ _ _ _ []) in Hp as (_ & _ & _ & _ & Hp & _);
    [| done | done | apply Forall_singleton; by split].
  apply (Hp I HI) in Hs1.
  apply bind_Done in H as (df & s7 & Hd & H).
  apply playDealer_inv in Hd as [_ Hd]. apply (Hd I HI) in Hs1.
  by injection H as _ <-.
Qed.

Lemma game_shuffle_inv (s s' : t) (u : unit) :
  shuffle s = Done u s' →
  rules s' = rules s
  ∧ Deck.usedCards (deck s') = []
  ∧ counter s' = CardCounter.reset <$> counter s
  ∧ ((0 < Deck.numDecks (deck s))%nat →
     shoeInv s' ∧ Deck.numDecks (deck s') = Deck.numDecks (deck s)).
Proof.
  unfold shuffle. intros H.
  pose proof (deckInv_shuffle (deck s) (counter s) (random s)) as Hi.
  destruct (shuffle_spec (deck s) (counter s) (random s)) as (cs & g' & E & _).
  rewrite E in H, Hi. injection H as _ <-. cbn in Hi |- *.
  split_and!; [done..|]. intros Hn. split; [split; [cbn; lia | done] | done].
Qed.

Lemma sampleGame_shoeInv r picks : shoeInv (sampleGame r picks).
Proof.
  unfold sampleGame.
  pose proof (deckInv_shuffle emptyShoe None (riggedRng picks 51)) as Hi.
  destruct (shuffle_spec emptyShoe None (riggedRng picks 51)) as (cs & g' & E & _).
  rewrite E in Hi |- *. split; [cbn; lia | exact Hi].
Qed.

(** X19: a game that [playGame] completes leaves the shoe as it found it:
    as many decks, and in the two piles together exactly the cards of that
    many fresh decks, whether or not it reshuffled; the rules are untouched. *)
Theorem playGame_keeps_shoe (fuel : nat) (strategy : Strategy.t) (betSize : Q)
        (s s' : t) (r : GameResult) :
  playGame fuel strategy betSize s = Done r s' →
  shoeInv s →
  shoeInv s' ∧ Deck.numDecks (deck s') = Deck.numDecks (deck s) ∧ rules s' = rules s.
Proof.
  intros H Hs.
  apply (playGame_stable
           (λ x, shoeInv x ∧ Deck.numDecks (deck x) = Deck.numDecks (deck s)
                 ∧ rules x = rules s) _ _ _ _ _ _) in H; [done | | done].
  split.
  - intros x c x' Hc (Hx & Hn & Hr). apply game_dealCard_inv in Hc as [Hr' Hc].
    destruct (Hc Hx) as [Hx' Hn']. split_and!; [done | congruence..].
  - intros x u x' Hu (Hx & Hn & Hr). apply game_shuffle_inv in Hu as (Hr' & _ & _ & Hu).
    destruct (Hu (proj1 Hx)) as [Hx' Hn']. split_and!; [done | congruence..].
Qed.

Lemma playGame_keeps_shoe_witness :
  ∃ r s',
    playGame 20 basicStrategy 100 eightsGame = Done r s'
    ∧ shoeInv s' ∧ Deck.numDecks (deck s') = Deck.numDecks (deck eightsGame).
Proof.
  assert (H : ∃ r s', playGame 20 basicStrategy 100 eightsGame = Done r s')
    by (eexists _, _; vm_compute; reflexivity).
  destruct H as (r & s' & H). exists r, s'. split; [exact H |].
  assert (Hs : shoeInv eightsGame) by apply sampleGame_shoeInv.
  destruct (playGame_keeps_shoe 20 basicStrategy 100 eightsGame s' r H Hs) as (H1 & H2 & _).
  split; [exact H1 | exact H2].
Defined.





(** ** The counter of a running game *)

Lemma game_dealCard_counter (s s' : t) (c : Card) :
  dealCard s = Done c s' →
  counter s'
  = (λ k, CardCounter.updateCount k c)
      <$> (if (length (Deck.cards (deck s)) =? 0)%nat
           then CardCounter.reset <$> counter s else counter s)
  ∧ Deck.usedCards (deck s')
    = (if (length (Deck.cards (deck s)) =? 0)%nat then [] else Deck.usedCards (deck s)) ++ [c].
Proof.
  unfold dealCard, Deck.dealCard. intros H.
  destruct (length (Deck.cards (deck s)) =? 0)%nat.
  - destruct (shuffle_spec (deck s) (counter s) (random s)) as (cs & g' & E & _).
    rewrite E in H. cbn in H.
    destruct (Deck.pop cs) as [[card rest]|]; [| done].
    injection H as <- <-. done.
  - destruct (Deck.pop (Deck.cards (deck s))) as [[card rest]|]; [| done].
    injection H as <- <-. done.
Qed.

Lemma countInSync_stable : gameStable countInSync.
Proof.
  split.
  - intros s c s' Hc Hs. apply game_dealCard_counter in Hc as [Hk Hu].
    unfold countInSync in *. rewrite Hk, Hu.
    destruct (counter s) as [k|]; [| by destruct (_ =? _)%nat].
    destruct (length (Deck.cards (deck s)) =? 0)%nat; cbn.
    + rewrite Z.add_0_r. done.
    + rewrite weightSum_app, Hs. cbn. lia.
  - intros s u s' Hu Hs. apply game_shuffle_inv in Hu as (_ & Hu & Hk & _).
    unfold countInSync in *. rewrite Hk, Hu. by destruct (counter s).
Qed.

(** X21: the counter of a game stays in step with the shoe: if the running
    count is the weight of the used pile before [playGame], it is again
    after it, across the reshuffles of the game and of [dealCard]. *)
Theorem playGame_count_in_sync (fuel : nat) (strategy : Strategy.t) (betSize : Q)
        (s s' : t) (r : GameResult) :
  playGame fuel strategy betSize s = Done r s' →
  countInSync s → countInSync s'.
Proof.
  intros H. by apply (playGame_stable _ _ _ _ _ _ _ countInSync_stable H).
Qed.

Lemma playGame_count_in_sync_witness :
  ∃ r s' k,
    playGame 20 basicStrategy 100 countedGame = Done r s'
    ∧ counter s' = Some k
    ∧ CardCounter.runningCount k
      = weightSum (CardCounter.cardValues k) (Deck.usedCards (deck s')).
Proof.
  assert (H : ∃ r s' k, playGame 20 basicStrategy 100 countedGame = Done r s'
                        ∧ counter s' = Some k)
    by (eexists _, _, _; split; vm_compute; reflexivity).
  destruct H as (r & s' & k & H & Hk). exists r, s', k. split; [exact H |].
  split; [exact Hk |].
  assert (Hs : countInSync countedGame) by (vm_compute; reflexivity).
  pose proof (playGame_count_in_sync 20 basicStrategy 100 countedGame s' r H Hs) as Hs'.
  unfold countInSync in Hs'. rewrite Hk in Hs'. exact Hs'.
Defined.

(** ** Aggregation, continued *)

Lemma mapTotal_empty {A} (f : A → Z) : mapTotal f ∅ = 0.
Proof. apply map_fold_empty. Qed.

Lemma mapTotal_insert {A} (f : A → Z) (m : gmap string A) (k : string) (x : A) :
  mapTotal f (<[k := x]> m) = mapTotal f m - default 0 (f <$> m !! k) + f x.
Proof.
  unfold mapTotal. destruct (m !! k) as [y|] eqn:E; cbn.
  - rewrite <- (insert_delete_eq m k x).
    rewrite (map_fold_delete_L _ _ k y m); [| intros; lia | done].
    rewrite map_fold_insert_L; [lia | intros; lia | apply lookup_delete_eq].
  - rewrite map_fold_insert_L; [lia | intros; lia | done].
Qed.

Lemma trackCellStats_inv (g : GameResult) (m m' : gmap string Simulator.Cell)
      (trueCount : Q) (hasCounter : bool) :
  Simulator.trackCellStats g m trueCount hasCounter = Some m' →
  map_Forall (λ _ c, cellBalanced c) m →
  map_Forall (λ _ c, cellBalanced c) m'
  ∧ mapTotal Simulator.c_hands m' = mapTotal Simulator.c_hands m + 1.
Proof.
  unfold Simulator.trackCellStats. intros H Hm.
  destruct (head (dealerCards g)) as [dealerCard|]; [| done]. cbn in H.
  injection H as <-.
  match goal with |- context [<[?k := _]> m] => set (key := k) end.
  assert (Hc : (m !! key = None ∨ ∃ c, m !! key = Some c ∧ cellBalanced c)).
  { destruct (m !! key) as [c|] eqn:E; [right; exists c; split; [done |] | by left].
    by apply (Hm key c). }
  split.
  - apply map_Forall_insert_2; [| done].
    destruct Hc as [-> | (c & -> & (H1 & H2 & H3 & H4 & H5))]; unfold cellBalanced; cbn;
      destruct (Simulator.isWinTag (result g)), (String.eqb (result g) "lose"); cbn; lia.
  - rewrite mapTotal_insert.
    destruct Hc as [-> | (c & -> & _)]; cbn; lia.
Qed.

Lemma simulateOne_inv fuel strategy betSize i r (s s' : t) r' :
  Simulator.simulateOne fuel strategy betSize i r s = Done r' s' →
  (∀ I, gameStable I → I s → I s')
  ∧ (map_Forall (λ _ c, cellBalanced c) (Simulator.cellStats r) →
     map_Forall (λ _ c, cellBalanced c) (Simulator.cellStats r'))
  ∧ mapTotal Simulator.c_hands (Simulator.cellStats r')
    = mapTotal Simulator.c_hands (Simulator.cellStats r) + 1
  ∧ length (Simulator.samples r')
    = (if (i <? 100)%nat then S (length (Simulator.samples r))
       else length (Simulator.samples r))
  ∧ ∃ countKey w,
      Simulator.countStats r'
      = if bool_decide (is_Some (counter s))
        then (λ cs, Simulator.noteWinnings countKey w (Simulator.noteCount countKey cs))
               <$> Simulator.countStats r
        else Simulator.countStats r.
Proof.
  unfold Simulator.simulateOne. intros H.
  apply bind_Done in H as (s0 & s1 & Hget & H). injection Hget as <- <-.
  apply bind_Done in H as (g & s1 & Hg & H).
  destruct (Simulator.trackCellStats g _ _ _) as [cells|] eqn:Ecells; [| done].
  injection H as <- <-. cbn [Simulator.tally Simulator.cellStats Simulator.samples
                               Simulator.countStats].
  split_and!.
  - intros I HI Hs. by apply (playGame_stable I _ _ _ _ _ _ HI Hg).
  - intros Hm. by apply (trackCellStats_inv _ _ _ _ _ Ecells).
  - revert Ecells. unfold Simulator.trackCellStats.
    destruct (head (dealerCards g)) as [dealerCard|]; [| done]. cbn.
    intros [= <-]. rewrite mapTotal_insert.
    destruct (Simulator.cellStats r !! _); cbn; lia.
  - destruct (i <? 100)%nat; [| done]. rewrite length_app. cbn. lia.
  - eexists _, _. destruct (bool_decide (is_Some (counter s))); [| done].
    by destruct (Simulator.countStats r).
Qed.

Lemma simulateFrom_inv fuel strategy betSize (n : nat) :
  ∀ i r (s s' : t) r',
    Simulator.simulateFrom fuel strategy betSize n i r s = Done r' s' →
    (∀ I, gameStable I → I s → I s')
    ∧ (map_Forall (λ _ c, cellBalanced c) (Simulator.cellStats r) →
       map_Forall (λ _ c, cellBalanced c) (Simulator.cellStats r'))
    ∧ mapTotal Simulator.c_hands (Simulator.cellStats r')
      = mapTotal Simulator.c_hands (Simulator.cellStats r) + Z.of_nat n
    ∧ (length (Simulator.samples r) = i `min` 100 →
       length (Simulator.samples r') = (i + n) `min` 100)%nat.
Proof.
  induction n as [|n IH]; intros i r s s' r' H.
  - injection H as <- <-. split_and!; [done | done | lia |]. by rewrite Nat.add_0_r.
  - cbn [Simulator.simulateFrom] in H.
    apply bind_Done in H as (r1 & s1 & H1 & H).
    apply simulateOne_inv in H1 as (A1 & A2 & A3 & A4 & _).
    apply IH in H as (B1 & B2 & B3 & B4).
    split_and!.
    + intros I HI Hs. apply (B1 I HI), (A1 I HI), Hs.
    + intros Hm. apply B2, A2, Hm.
    + lia.
    + intros Hl. replace (i + S n)%nat with (S i + n)%nat by lia. apply B4.
      rewrite A4, Hl. destruct (Nat.ltb_spec i 100); lia.
Qed.

(** X22: when [runSimulations] completes, the hands of the cells of
    [cellStats] add up to [totalGames]; every cell has seen at least one
    hand, and its wins, losses and pushes add up to its hands. *)
Theorem runSimulations_cells (fuel : nat) (strategy : Strategy.t) (numSimulations : nat)
        (betSize : Q) (s s' : t) (sm : Simulator.Summary) :
  Simulator.runSimulations fuel strategy numSimulations betSize s = Done sm s' →
  mapTotal Simulator.c_hands (Simulator.cellStats (Simulator.final sm))
  = Simulator.totalGames (Simulator.final sm)
  ∧ ∀ key c, Simulator.cellStats (Simulator.final sm) !! key = Some c →
             0 < Simulator.c_hands c
             ∧ Simulator.c_wins c + Simulator.c_losses c + Simulator.c_pushes c
               = Simulator.c_hands c.
Proof.
  unfold Simulator.runSimulations. intros H.
  apply bind_Done in H as (s0 & s1 & Hget & H). injection Hget as <- <-.
  apply bind_Done in H as (r & s2 & Hr & H).
  injection H as <- _. cbn [Simulator.final Simulator.cellStats Simulator.totalGames].
  pose proof (simulateFrom_tallied _ _ _ _ _ _ _ _ _ Hr) as [_ Hn];
    [split; cbn; lia |].
  apply simulateFrom_inv in Hr as (_ & Hm & Ht & _).
  split.
  - rewrite Ht, Hn. cbn. rewrite mapTotal_empty. lia.
  - intros key c Hc.
    destruct (Hm (map_Forall_empty _) key c Hc) as (_ & _ & _ & ? & ?). done.
Qed.

Lemma runSimulations_cells_witness :
  ∃ sm s',
    Simulator.runSimulations 30 basicStrategy 5 100 sixteenGame = Done sm s'
    ∧ mapTotal Simulator.c_hands (Simulator.cellStats (Simulator.final sm))
      = Simulator.totalGames (Simulator.final sm).
Proof.
  assert (H : ∃ sm s', Simulator.runSimulations 30 basicStrategy 5 100 sixteenGame = Done sm s')
    by (eexists _, _; vm_compute; reflexivity).
  destruct H as (sm & s' & H). exists sm, s'. split; [exact H |].
  exact (proj1 (runSimulations_cells 30 basicStrategy 5 100 sixteenGame s' sm H)).
Defined.



Lemma counter_presence_stable (b : Prop) : gameStable (λ x, is_Some (counter x) ↔ b).
Proof.
  split.
  - intros s c s' Hc Hs. apply game_dealCard_counter in Hc as [-> _].
    rewrite <- Hs. destruct (_ =? _)%nat; rewrite ?fmap_is_Some; done.
  - intros s u s' Hu Hs. apply game_shuffle_inv in Hu as (_ & _ & -> & _).
    by rewrite fmap_is_Some.
Qed.

Lemma noteCount_noteWinnings (countKey : string) (w : Q) (cs : Simulator.CountStats) :
  Simulator.handsByCount cs = Simulator.countDistribution cs →
  let cs' := Simulator.noteWinnings countKey w (Simulator.noteCount countKey cs) in
  Simulator.totalHands cs' = Simulator.totalHands cs + 1
  ∧ mapTotal id (Simulator.countDistribution cs')
    = mapTotal id (Simulator.countDistribution cs) + 1
  ∧ Simulator.handsByCount cs' = Simulator.countDistribution cs'.
Proof.
  intros Hh. cbn. rewrite Hh. split_and!; [done | | done].
  destruct (Simulator.countDistribution cs !! countKey) as [v|] eqn:E; cbn.
  - destruct (decide (v = 0)) as [->|Hv].
    + rewrite (bool_decide_eq_false_2 (0 ≠ 0)) by lia. cbn [negb].
      rewrite lookup_insert_eq, insert_insert_eq, mapTotal_insert, E. cbn. lia.
    + rewrite bool_decide_eq_true_2 by done. cbn [negb].
      rewrite E, mapTotal_insert, E. cbn. lia.
  - rewrite (bool_decide_eq_false_2 (0 ≠ 0)) by lia. cbn [negb].
    rewrite lookup_insert_eq, insert_insert_eq, mapTotal_insert, E. cbn. lia.
Qed.

Lemma simulateFrom_countStats fuel strategy betSize (n : nat) :
  ∀ i r (s s' : t) r' cs,
    Simulator.simulateFrom fuel strategy betSize n i r s = Done r' s' →
    is_Some (counter s) →
    Simulator.countStats r = Some cs →
    Simulator.handsByCount cs = Simulator.countDistribution cs →
    ∃ cs',
      Simulator.countStats r' = Some cs'
      ∧ Simulator.totalHands cs' = Simulator.totalHands cs + Z.of_nat n
      ∧ mapTotal id (Simulator.countDistribution cs')
        = mapTotal id (Simulator.countDistribution cs) + Z.of_nat n
      ∧ Simulator.handsByCount cs' = Simulator.countDistribution cs'.
Proof.
  induction n as [|n IH]; intros i r s s' r' cs H Hk Hcs Hh.
  - injection H as <- <-. exists cs. split_and!; [done | lia | lia | done].
  - cbn [Simulator.simulateFrom] in H.
    apply bind_Done in H as (r1 & s1 & H1 & H).
    apply simulateOne_inv in H1 as (A1 & _ & _ & _ & (countKey & w & A5)).
    rewrite bool_decide_eq_true_2, Hcs in A5 by done. cbn in A5.
    destruct (noteCount_noteWinnings countKey w cs Hh) as (B1 & B2 & B3).
    assert (Hk1 : is_Some (counter s1)).
    { by apply (A1 _ (counter_presence_stable True)). }
    destruct (IH _ _ _ _ _ _ H Hk1 A5 B3) as (cs' & C1 & C2 & C3 & C4).
    exists cs'. split_and!; [done | lia | lia | done].
Qed.

(** X24: when [runSimulations] completes on a game with a counter, the
    count statistics account for every hand: [totalHands] is the number of
    hands asked for, the hands of the count buckets add up to it, and
    [handsByCount] agrees with [countDistribution]; without a counter no
    count statistics are reported. *)
Theorem runSimulations_countStats (fuel : nat) (strategy : Strategy.t) (numSimulations : nat)
        (betSize : Q) (s s' : t) (sm : Simulator.Summary) :
  Simulator.runSimulations fuel strategy numSimulations betSize s = Done sm s' →
  (is_Some (counter s) →
   ∃ cs, Simulator.countStats (Simulator.final sm) = Some cs
         ∧ Simulator.totalHands cs = Z.of_nat numSimulations
         ∧ mapTotal id (Simulator.countDistribution cs) = Z.of_nat numSimulations
         ∧ Simulator.handsByCount cs = Simulator.countDistribution cs)
  ∧ (counter s = None → Simulator.countStats (Simulator.final sm) = None).
Proof.
  unfold Simulator.runSimulations. intros H.
  apply bind_Done in H as (s0 & s1 & Hget & H). injection Hget as <- <-.
  apply bind_Done in H as (r & s2 & Hr & H).
  injection H as <- _. cbn [Simulator.final Simulator.countStats]. split.
  - intros Hk. rewrite bool_decide_eq_true_2 in Hr by done.
    eapply simulateFrom_countStats in Hr as (cs & -> & H1 & H2 & H3);
      [| done | reflexivity | reflexivity].
    eexists. split; [reflexivity |]. cbn in *. rewrite mapTotal_empty in H2.
    split_and!; [lia | lia | done].
  - intros Hk. rewrite Hk in Hr. cbn in Hr.
    assert (Hnone : ∀ n i r0 (x x' : t) r1,
               Simulator.simulateFrom fuel strategy betSize n i r0 x = Done r1 x' →
               counter x = None → Simulator.countStats r0 = None →
               Simulator.countStats r1 = None).
    { induction n as [|n IH]; intros i r0 x x' r1 H0 Hx Hc.
      - by injection H0 as <- _.
      - cbn [Simulator.simulateFrom] in H0.
        apply bind_Done in H0 as (r2 & x2 & H1 & H0).
        apply simulateOne_inv in H1 as (A1 & _ & _ & _ & (countKey & w & A5)).
        rewrite Hx, Hc in A5. cbn in A5.
        apply (IH _ _ _ _ _ H0); [| done].
        destruct (counter x2) as [k|] eqn:E; [| done].
        assert (is_Some (counter x2) ↔ False) as [Hf _]; [| by destruct Hf; eauto].
        apply (A1 _ (counter_presence_stable False)). rewrite Hx. split; [by intros [? ?] | done]. }
    by rewrite (Hnone _ _ _ _ _ _ Hr Hk eq_refl).
Qed.

Lemma runSimulations_countStats_witness :
  ∃ sm s' cs,
    Simulator.runSimulations 30 basicStrategy 5 100 countedGame = Done sm s'
    ∧ Simulator.countStats (Simulator.final sm) = Some cs
    ∧ Simulator.totalHands cs = 5
    ∧ mapTotal id (Simulator.countDistribution cs) = 5.
Proof.
  assert (H : ∃ sm s', Simulator.runSimulations 30 basicStrategy 5 100 countedGame = Done sm s')
    by (eexists _, _; vm_compute; reflexivity).
  destruct H as (sm & s' & H).
  destruct (proj1 (runSimulations_countStats 30 basicStrategy 5 100 countedGame s' sm H))
    as (cs & H1 & H2 & H3 & _); [by eexists |].
  exists sm, s', cs. split; [exact H |]. split; [exact H1 |]. split; [exact H2 | exact H3].
Defined.

(** ** Row testing, continued *)

(** X25: the two card hand [testRowActions] stands in for a row has the
    total of the row: for a hard total from 4 to 21 the parsed cards make
    that total and the hand is not soft, for a soft total from 12 to 21
    they make it with a soft Ace; the hand counts as an initial blackjack
    exactly for the rows 21 and S21. *)
Theorem representative_total (soft : bool) (n : Z) :
  (if soft then 12 else 4) <= n <= 21 →
  ∃ cards,
    mapM Simulator.parseRowCard
         (JS.split ","
            (Simulator.representative
               (if soft then "S" +:+ JS.toString n else JS.toString n)).1)
    = Some cards
    ∧ length cards = 2%nat
    ∧ hvalue (calculateHandValue cards) = n
    ∧ isSoft (calculateHandValue cards) = soft
    ∧ Simulator.isInitialBlackjack
        (Simulator.representative
           (if soft then "S" +:+ JS.toString n else JS.toString n)).1
      = (n =? 21).
Proof.
  intros Hn.
  assert (Hin : n ∈ seqZ 4 18) by (apply elem_of_seqZ; destruct soft; lia).
  destruct soft.
  - assert (Hin' : n ∈ seqZ 12 10) by (apply elem_of_seqZ; lia). clear Hin Hn.
    let l := eval vm_compute in (seqZ 12 10) in change (seqZ 12 10) with l in Hin'.
    repeat (apply elem_of_cons in Hin' as [-> | Hin'];
            [eexists; split; [vm_compute; reflexivity | split_and!; reflexivity] |]).
    by apply elem_of_nil in Hin'.
  - clear Hn.
    let l := eval vm_compute in (seqZ 4 18) in change (seqZ 4 18) with l in Hin.
    repeat (apply elem_of_cons in Hin as [-> | Hin];
            [eexists; split; [vm_compute; reflexivity | split_and!; reflexivity] |]).
    by apply elem_of_nil in Hin.
Qed.

Lemma representative_total_witness :
  ∃ cards,
    mapM Simulator.parseRowCard (JS.split "," (Simulator.representative "16").1) = Some cards
    ∧ length cards = 2%nat
    ∧ hvalue (calculateHandValue cards) = 16
    ∧ isSoft (calculateHandValue cards) = false
    ∧ Simulator.isInitialBlackjack (Simulator.representative "16").1 = false.
Proof.
  apply (representative_total false 16). cbn. lia.
Defined.

(** ** Situation analysis, continued *)

Lemma parseCard_wf (cardStr : string) (c : Card) :
  Simulator.parseCard cardStr = Some c → card_wf c.
Proof.
  unfold Simulator.parseCard.
  set (u := JS.toUpperCase (JS.trim cardStr)). clearbody u.
  destruct (String.eqb u "A" || String.eqb u "ACE").
  { intros [= <-]. by apply (bool_decide_unpack _). }
  cbn [existsb].
  destruct (String.eqb_spec u "J") as [->|_];
    [intros [= <-]; by apply (bool_decide_unpack _) |].
  destruct (String.eqb_spec u "Q") as [->|_];
    [intros [= <-]; by apply (bool_decide_unpack _) |].
  destruct (String.eqb_spec u "K") as [->|_];
    [intros [= <-]; by apply (bool_decide_unpack _) |].
  destruct (String.eqb_spec u "10") as [->|_];
    [intros [= <-]; by apply (bool_decide_unpack _) |].
  cbn [orb].
  destruct (JS.parseInt u) as [num|]; [| done].
  destruct (Z.leb_spec 2 num); [| done]. destruct (Z.leb_spec num 9); [| done].
  cbn [andb]. intros [= <-].
  assert (Hin : num ∈ seqZ 2 8) by (apply elem_of_seqZ; lia).
  let l := eval vm_compute in (seqZ 2 8) in change (seqZ 2 8) with l in Hin.
  repeat (apply elem_of_cons in Hin as [-> | Hin]; [by apply (bool_decide_unpack _) |]).
  by apply elem_of_nil in Hin.
Qed.

Lemma omap_length_le {A B} (f : A → option B) (l : list A) :
  (length (omap f l) <= length l)%nat.
Proof.
  induction l as [|x l IH]; [done |]. cbn. destruct (f x); cbn; lia.
Qed.

(** X26: a report of [analyzeSituation] names cards of the data model
    only: at least one player card and never more than the pieces of the
    input, each a rank of the deck, and a dealer card that is a rank of
    the deck; hit and stand are always among the actions it estimates. *)
Theorem analyzeSituation_report (playerCards dealerCard : string)
        (situation : Simulator.Situation) (actions : list string) :
  Simulator.analyzeSituation playerCards dealerCard = Simulator.Report situation actions →
  Forall (λ r, r ∈ ranks) (Simulator.s_playerCards situation)
  ∧ (1 <= length (Simulator.s_playerCards situation)
     <= length (JS.split "," playerCards))%nat
  ∧ Simulator.s_dealerCard situation ∈ ranks
  ∧ "H" ∈ actions ∧ "S" ∈ actions.
Proof.
  unfold Simulator.analyzeSituation.
  destruct (Simulator.parseCard dealerCard) as [d|] eqn:Ed; [| done].
  destruct (Nat.eqb_spec (length (Simulator.parsePlayerCards playerCards)) 0) as [|Hlen];
    [done |].
  intros [= <- <-]. cbn [Simulator.s_playerCards Simulator.s_dealerCard].
  split_and!.
  - apply Forall_fmap, Forall_forall. intros c Hc.
    unfold Simulator.parsePlayerCards in Hc. apply list_elem_of_omap in Hc as (x & _ & Hx).
    apply parseCard_wf in Hx as [Hr _]. done.
  - rewrite length_fmap. lia.
  - rewrite length_fmap. unfold Simulator.parsePlayerCards. apply omap_length_le.
  - apply parseCard_wf in Ed as [Hr _]. done.
  - set_solver.
  - set_solver.
Qed.

Lemma analyzeSituation_report_witness :
  ∃ situation actions,
    Simulator.analyzeSituation "10, x, 6" "ace" = Simulator.Report situation actions
    ∧ Forall (λ r, r ∈ ranks) (Simulator.s_playerCards situation)
    ∧ Simulator.s_dealerCard situation ∈ ranks.
Proof.
  assert (H : ∃ situation actions,
             Simulator.analyzeSituation "10, x, 6" "ace" = Simulator.Report situation actions)
    by (eexists _, _; vm_compute; reflexivity).
  destruct H as (situation & actions & H). exists situation, actions.
  split; [exact H |].
  destruct (analyzeSituation_report "10, x, 6" "ace" situation actions H) as (H1 & _ & H2 & _).
  split; [exact H1 | exact H2].
Defined.

(** ** Count levels *)

Lemma le_round (k : Z) (x : Q) :
  k <= CardCounter.round x ↔ (inject_Z k - (1 # 2) <= x)%Q.
Proof.
  unfold CardCounter.round. split.
  - intros H. rewrite Zle_Qle in H.
    pose proof (Qfloor_le (x + (1 # 2))). lra.
  - intros H. rewrite <- (Qfloor_Z k). apply Qfloor_resp_le. lra.
Qed.

(** X27: the named level of [getCountLevel] and the integer of
    [getCountRange] agree on the side of the count: the level is neutral
    exactly when the range is 0, one of the three positive levels exactly
    when the range is at least 1, and one of the two negative levels
    exactly when it is at most -1; a very high level has a range of at
    least 4 and a very low one of at most -2. *)
Theorem getCountLevel_range (c : CardCounter.t) (remainingCards numDecks : nat) :
  let level := CardCounter.getCountLevel c remainingCards numDecks in
  let range := CardCounter.getCountRange c remainingCards numDecks in
  (level = "neutral" ↔ range = 0)
  ∧ (level ∈ ["slightlyPositive"; "high"; "veryHigh"] ↔ 1 <= range)
  ∧ (level ∈ ["low"; "veryLow"] ↔ range <= -1)
  ∧ (level = "veryHigh" → 4 <= range)
  ∧ (level = "veryLow" → range <= -2).
Proof.
  cbn zeta. unfold CardCounter.getCountLevel, CardCounter.getCountRange.
  set (x := CardCounter.getTrueCount c remainingCards numDecks). clearbody x.
  pose proof (le_round 4 x) as R4. pose proof (le_round 1 x) as R1.
  pose proof (le_round 0 x) as R0. pose proof (le_round (-1) x) as Rm1.
  assert (Q4 : ∀ a b : Q, Qle_bool a b = false → (b < a)%Q).
  { intros a b E. apply Qnot_le_lt. intros HL. apply Qle_bool_iff in HL. congruence. }
  change (inject_Z 4) with 4%Q in R4. change (inject_Z 1) with 1%Q in R1.
  change (inject_Z 0) with 0%Q in R0. change (inject_Z (-1)) with (-1)%Q in Rm1.
  destruct (Qle_bool 4 x) eqn:E4.
  { apply Qle_bool_iff in E4.
    assert (4 <= CardCounter.round x) by (apply R4; lra).
    split_and!; [split; [done | lia] | split; [lia | intros _; literal_in]
                | split; [literal_out | lia] | done | done]. }
  apply Q4 in E4. destruct (Qle_bool 2 x) eqn:E2.
  { apply Qle_bool_iff in E2.
    assert (1 <= CardCounter.round x) by (apply R1; lra).
    split_and!; [split; [done | lia] | split; [lia | intros _; literal_in]
                | split; [literal_out | lia] | done | done]. }
  apply Q4 in E2. destruct (Qle_bool (1 # 2) x) eqn:E1.
  { apply Qle_bool_iff in E1.
    assert (1 <= CardCounter.round x) by (apply R1; lra).
    split_and!; [split; [done | lia] | split; [lia | intros _; literal_in]
                | split; [literal_out | lia] | done | done]. }
  apply Q4 in E1. destruct (Qle_bool (- (1 # 2)) x) eqn:E0.
  { apply Qle_bool_iff in E0.
    assert (0 <= CardCounter.round x) by (apply R0; lra).
    assert (¬ 1 <= CardCounter.round x) by (rewrite R1; lra).
    split_and!; [split; [lia | done] | split; [literal_out | lia]
                | split; [literal_out | lia] | done | done]. }
  apply Q4 in E0.
  assert (¬ 0 <= CardCounter.round x) by (rewrite R0; lra).
  destruct (Qle_bool (- 2) x) eqn:Em.
  { split_and!; [split; [done | lia] | split; [literal_out | lia]
                | split; [lia | intros _; literal_in] | done | done]. }
  apply Q4 in Em.
  assert (¬ -1 <= CardCounter.round x) by (rewrite Rm1; lra).
  split_and!; [split; [done | lia] | split; [literal_out | lia]
              | split; [lia | intros _; literal_in] | done | intros _; lia].
Qed.

Lemma getCountLevel_range_witness :
  4 <= CardCounter.getCountRange
         {| CardCounter.countingSystem := "Hi-Lo"; CardCounter.runningCount := 5;
            CardCounter.cardValues := ∅ |} 52 1.
Proof.
  destruct (getCountLevel_range
              {| CardCounter.countingSystem := "Hi-Lo"; CardCounter.runningCount := 5;
                 CardCounter.cardValues := ∅ |} 52 1) as (_ & _ & _ & H & _).
  apply H. vm_compute. reflexivity.
Defined.

(** ** A hand with a forced first action *)

Lemma dealCardUncounted_inv (s s' : t) (c : Card) :
  Simulator.dealCardUncounted s = Done c s' →
  rules s' = rules s ∧ counter s' = counter s
  ∧ (shoeInv s → shoeInv s' ∧ Deck.numDecks (deck s') = Deck.numDecks (deck s)).
Proof.
  unfold Simulator.dealCardUncounted. intros H.
  destruct (Deck.dealCard _ _ _) as [[[[c0 d] k] g]|] eqn:E; [| done].
  injection H as <- <-. split_and!; [done | done |]. intros [Hn Hi]. cbn.
  destruct (dealCard_inv (deck s) None (random s) Hn (λ _, Hi))
    as (c1 & d1 & k1 & g1 & E1 & Hi1 & Hn1 & _).
  rewrite E in E1. simplify_eq. split; [split; [cbn; lia | done] | done].
Qed.

Lemma splitLoop_inv strategy dealerCard (fuel : nat) :
  ∀ (pre post : list Simulator.ForcedHand) (m : Z) (s s' : t)
    (hands' : list Simulator.ForcedHand) (m' : Z),
    Simulator.splitLoop fuel strategy dealerCard (length pre) (pre ++ post) m s
    = Done (hands', m') s' →
    m = Z.of_nat (length (pre ++ post)) →
    Forall forcedOK pre → Forall (λ h, Simulator.f_bet h = 1) post →
    m' = Z.of_nat (length hands') ∧ Forall forcedOK hands'
    ∧ (length (pre ++ post) <= length hands')%nat
    ∧ rules s' = rules s ∧ counter s' = counter s
    ∧ (∀ I, drawStable I → I s → I s').
Proof.
  induction fuel as [|fuel IH]; intros pre post m s s' hands' m' H Hm Hd Hr; [done |].
  cbn [Simulator.splitLoop] in H.
  destruct post as [|hand post].
  { rewrite app_nil_r in H. rewrite lookup_ge_None_2 in H by lia.
    injection H as <- <- <-. rewrite app_nil_r in Hm |- *. split_and!; try done. }
  rewrite list_lookup_middle in H by done.
  apply Forall_cons in Hr as [Hbet Hr].
  assert (Hadv : ∀ h' s1,
             Simulator.splitLoop fuel strategy dealerCard (S (length pre))
                            (pre ++ h' :: post) m s1 = Done (hands', m') s' →
             forcedOK h' →
             m' = Z.of_nat (length hands') ∧ Forall forcedOK hands'
             ∧ (length (pre ++ hand :: post) <= length hands')%nat
             ∧ rules s' = rules s1 ∧ counter s' = counter s1
             ∧ (∀ I, drawStable I → I s1 → I s')).
  { intros h' s1 H1 Hp.
    replace (S (length pre)) with (length (pre ++ [h'])) in H1
      by (rewrite length_app; cbn; lia).
    rewrite (cons_middle h' pre post), app_assoc in H1.
    apply IH in H1.
    - destruct H1 as (H1 & H2 & H3 & H4 & H5 & H6).
      repeat first [rewrite length_app in H3 | progress cbn [length] in H3].
      repeat first [rewrite length_app | progress cbn [length]].
      split_and!; [done | done | lia | done..].
    - rewrite Hm. repeat first [rewrite length_app | progress cbn [length]]. lia.
    - apply Forall_app; split; [done | by apply Forall_singleton].
    - done. }
  destruct (isBust (Simulator.f_cards hand) || isBlackjack (Simulator.f_cards hand)).
  { apply Hadv in H; [done | by left]. }
  apply bind_Done in H as (s0 & s1 & Hget & H). injection Hget as <- <-.
  destruct (String.eqb _ "H").
  { apply bind_Done in H as (c & s1 & Hc & H).
    pose proof (dealCardUncounted_inv _ _ _ Hc) as (Hrules & Hcounter & _).
    rewrite !insert_middle_length in H.
    destruct (isBust (Simulator.f_cards hand ++ [c])).
    - apply Hadv in H; [| by left].
      destruct H as (H1 & H2 & H3 & H4 & H5 & H6).
      split_and!; [done | done | done | congruence | congruence |].
      intros I HI Hs. apply (H6 I HI), (proj2 HI _ _ _ Hc), Hs.
    - apply (IH pre (_ :: post)) in H.
      + destruct H as (H1 & H2 & H3 & H4 & H5 & H6).
        repeat first [rewrite length_app in H3 | progress cbn [length] in H3].
      repeat first [rewrite length_app | progress cbn [length]].
        split_and!; [done | done | lia | congruence | congruence |].
        intros I HI Hs. apply (H6 I HI), (proj2 HI _ _ _ Hc), Hs.
      + rewrite Hm. repeat rewrite length_app. done.
      + done.
      + by apply Forall_cons. }
  destruct (String.eqb _ "D" && _) eqn:ED.
  { apply andb_true_iff in ED as [_ ED]. apply andb_true_iff in ED as [Elen _].
    apply Nat.eqb_eq in Elen.
    apply bind_Done in H as (c & s1 & Hc & H).
    pose proof (dealCardUncounted_inv _ _ _ Hc) as (Hrules & Hcounter & _).
    rewrite !insert_middle_length in H.
    apply Hadv in H.
    - destruct H as (H1 & H2 & H3 & H4 & H5 & H6).
      split_and!; [done | done | done | congruence | congruence |].
      intros I HI Hs. apply (H6 I HI), (proj2 HI _ _ _ Hc), Hs.
    - right. cbn. rewrite Hbet, length_app, Elen. done. }
  destruct (String.eqb _ "P" && _).
  { unfold popCard in H.
    destruct (Deck.pop (Simulator.f_cards hand)) as [[card rest]|]; [| done].
    apply bind_Done in H as (c1 & s1 & Hc1 & H).
    pose proof (dealCardUncounted_inv _ _ _ Hc1) as (Hrules1 & Hcounter1 & _).
    apply bind_Done in H as (c2 & s2 & Hc2 & H).
    pose proof (dealCardUncounted_inv _ _ _ Hc2) as (Hrules2 & Hcounter2 & _).
    rewrite !insert_middle_length in H. rewrite <- app_assoc in H. cbn [app] in H.
    apply (IH pre (_ :: post ++ [_])) in H.
    - destruct H as (H1 & H2 & H3 & H4 & H5 & H6).
      repeat first [rewrite length_app in H3 | progress cbn [length] in H3].
      repeat first [rewrite length_app | progress cbn [length]].
      split_and!; [done | done | lia | congruence | congruence |].
      intros I HI Hs.
      apply (H6 I HI), (proj2 HI _ _ _ Hc2), (proj2 HI _ _ _ Hc1), Hs.
    - rewrite Hm. repeat first [rewrite length_app | progress cbn [length]]. lia.
    - done.
    - apply Forall_cons; split; [done |].
      apply Forall_app; split; [done | by apply Forall_singleton]. }
  apply Hadv in H; [done | by left].
Qed.

Lemma hitLoop_inv strategy dealerCard (fuel : nat) :
  ∀ (cs : list Card) (s s' : t) (cs' : list Card),
    Simulator.hitLoop fuel strategy dealerCard cs s = Done cs' s' →
    rules s' = rules s ∧ counter s' = counter s ∧ (∀ I, drawStable I → I s → I s').
Proof.
  induction fuel as [|fuel IH]; intros cs s s' cs' H; [done |].
  cbn [Simulator.hitLoop] in H.
  destruct (isBust cs || isBlackjack cs); [by injection H as _ <- |].
  destruct (String.eqb _ "H"); [| by injection H as _ <-].
  apply bind_Done in H as (c & s1 & Hc & H).
  pose proof (dealCardUncounted_inv _ _ _ Hc) as (Hrules & Hcounter & _).
  assert (Hs1 : ∀ I, drawStable I → I s → I s1)
    by (intros I HI Hs; apply (proj2 HI _ _ _ Hc), Hs).
  destruct (isBust (cs ++ [c])); [injection H as _ <-; done |].
  apply IH in H as (H1 & H2 & H3).
  split_and!; [congruence | congruence |].
  intros I HI Hs. apply (H3 I HI), (Hs1 I HI), Hs.
Qed.

Lemma forcedPlay_inv fuel playerCards dealerCard forcedAction strategy canDouble canSplit
      (s s' : t) (hands : list Simulator.ForcedHand) (m : Z) :
  Simulator.forcedPlay fuel playerCards dealerCard forcedAction strategy canDouble canSplit s
  = Done (hands, m) s' →
  rules s' = rules s ∧ counter s' = counter s ∧ (∀ I, drawStable I → I s → I s')
  ∧ Forall forcedOK hands
  ∧ (if String.eqb forcedAction "P" && canSplit && BlackjackGame.canSplit playerCards
     then m = Z.of_nat (length hands) ∧ (2 <= length hands)%nat
     else (∃ h, hands = [h] ∧ Simulator.f_bet h = 1)
          ∧ m = if String.eqb forcedAction "D" && canDouble then 2 else 1).
Proof.
  unfold Simulator.forcedPlay. intros H.
  destruct (String.eqb forcedAction "P" && canSplit && BlackjackGame.canSplit playerCards).
  { unfold popCard in H.
    destruct (Deck.pop playerCards) as [[card rest]|]; [| done].
    apply bind_Done in H as (c1 & s1 & Hc1 & H).
    pose proof (dealCardUncounted_inv _ _ _ Hc1) as (Hrules1 & Hcounter1 & _).
    apply bind_Done in H as (c2 & s2 & Hc2 & H).
    pose proof (dealCardUncounted_inv _ _ _ Hc2) as (Hrules2 & Hcounter2 & _).
    apply (splitLoop_inv _ _ _ []) in H as (H1 & H2 & H3 & H4 & H5 & H6);
      [| done | done | by repeat constructor].
    cbn [length app] in H3.
    split_and!; [congruence | congruence | | done | done | done].
    intros I HI Hs. apply (H6 I HI), (proj2 HI _ _ _ Hc2), (proj2 HI _ _ _ Hc1), Hs. }
  destruct (String.eqb forcedAction "D" && canDouble).
  { apply bind_Done in H as (c & s1 & Hc & H).
    pose proof (dealCardUncounted_inv _ _ _ Hc) as (Hrules & Hcounter & _).
    injection H as <- <- <-.
    split_and!; [done | done | | | by eexists | done].
    - intros I HI Hs. apply (proj2 HI _ _ _ Hc), Hs.
    - apply Forall_singleton. by left. }
  destruct (String.eqb forcedAction "H").
  { apply bind_Done in H as (c & s1 & Hc & H).
    pose proof (dealCardUncounted_inv _ _ _ Hc) as (Hrules & Hcounter & _).
    apply bind_Done in H as (cs & s2 & Hcs & H).
    injection H as <- <- <-.
    assert (Hs2 : rules s2 = rules s1 ∧ counter s2 = counter s1
                  ∧ (∀ I, drawStable I → I s1 → I s2)).
    { destruct (isBust (playerCards ++ [c])); [by injection Hcs as _ <- |].
      by apply hitLoop_inv in Hcs. }
    destruct Hs2 as (H1 & H2 & H3).
    split_and!; [congruence | congruence | | | by eexists | done].
    - intros I HI Hs. apply (H3 I HI), (proj2 HI _ _ _ Hc), Hs.
    - apply Forall_singleton. by left. }
  injection H as <- <- <-.
  split_and!; [done | done | done | | by eexists | done].
  apply Forall_singleton. by left.
Qed.

(** X28: after a forced split, [betMultiplier] is the number of hands the
    player ends with, at least two; every hand carries one stake, or two
    on exactly three cards after a double, and that doubling is not part
    of [betMultiplier]; the counter of the game is not told of any of the
    player's cards. *)
Theorem forced_split_multiplier (fuel : nat) (playerCards : list Card) (dealerCard : Card)
        (strategy : Strategy.t) (canDouble : bool) (s s' : t)
        (hands : list Simulator.ForcedHand) (betMultiplier : Z) :
  BlackjackGame.canSplit playerCards = true →
  Simulator.forcedPlay fuel playerCards dealerCard "P" strategy canDouble true s
  = Done (hands, betMultiplier) s' →
  betMultiplier = Z.of_nat (length hands) ∧ (2 <= length hands)%nat
  ∧ Forall (λ h, Simulator.f_bet h = 1
                 ∨ Simulator.f_bet h = 2 ∧ length (Simulator.f_cards h) = 3%nat) hands
  ∧ counter s' = counter s.
Proof.
  intros Hsplit H. apply forcedPlay_inv in H as (_ & Hk & _ & Hh & H).
  rewrite Hsplit in H. cbn in H. destruct H as [Hm Hl]. done.
Qed.

Lemma forced_split_multiplier_witness :
  ∃ hands betMultiplier s',
    Simulator.forcedPlay 20 [mkCard "8" Spades; mkCard "8" Hearts] (mkCard "10" Spades) "P"
                    basicStrategy true true eightsGame = Done (hands, betMultiplier) s'
    ∧ betMultiplier = Z.of_nat (length hands) ∧ (2 <= length hands)%nat.
Proof.
  assert (H : ∃ res s',
             Simulator.forcedPlay 20 [mkCard "8" Spades; mkCard "8" Hearts] (mkCard "10" Spades)
                             "P" basicStrategy true true eightsGame = Done res s')
    by (eexists _, _; vm_compute; reflexivity).
  destruct H as ([hands m] & s' & H). exists hands, m, s'. split; [exact H |].
  destruct (forced_split_multiplier 20 [mkCard "8" Spades; mkCard "8" Hearts] _ _ _ _ _ _ _
              eq_refl H) as (H1 & H2 & _).
  split; [exact H1 | exact H2].
Defined.

Lemma evaluateHand_single (betSize : Q) (dealerValue : Z) (dealerBust : bool)
      (h : Simulator.ForcedHand) :
  (0 <= betSize)%Q → Simulator.f_bet h = 1 →
  (- betSize <= Simulator.evaluateHand betSize dealerValue dealerBust 0 h)%Q
  ∧ (Simulator.evaluateHand betSize dealerValue dealerBust 0 h <= betSize)%Q.
Proof.
  intros Hb Hh. unfold Simulator.evaluateHand. rewrite Hh.
  change (inject_Z 1) with 1%Q. repeat case_match; split; lra.
Qed.

(** X29: a hand that [simulateHandWithAction] plays with a forced action
    other than a split, at a non-negative stake and without a blackjack for
    the player, never wins or loses more than the bet it reports; that bet
    is the stake, or twice the stake after a forced double. *)
Theorem simulateHandWithAction_bound (fuel : nat) (playerCards : list Card)
        (dealerCard : Card) (forcedAction : string) (strategy : Strategy.t) (betSize : Q)
        (canDouble canSplit : bool) (s s' : t) (r : GameResult) :
  Simulator.simulateHandWithAction fuel playerCards dealerCard forcedAction strategy betSize
                              canDouble canSplit s = Done r s' →
  (0 <= betSize)%Q → forcedAction ≠ "P" → result r ≠ "blackjack" →
  (- bet r <= winnings r)%Q ∧ (winnings r <= bet r)%Q
  ∧ (bet r == betSize
     ∨ forcedAction = "D" ∧ canDouble = true ∧ bet r == 2 * betSize)%Q.
Proof.
  unfold Simulator.simulateHandWithAction. intros H Hb Hp Htag.
  apply bind_Done in H as (c & s1 & _ & H).
  apply bind_Done in H as (s2 & s3 & _ & H).
  destruct (isBlackjack [dealerCard; c]).
  { destruct (isBlackjack playerCards); injection H as <- _; cbn;
      (split_and!; [lra | lra | left; reflexivity]). }
  destruct (isBlackjack playerCards); [injection H as <- _; done |].
  apply bind_Done in H as ([hs m] & s4 & Hplay & H).
  apply forcedPlay_inv in Hplay as (_ & _ & _ & _ & Hplay).
  apply String.eqb_neq in Hp. rewrite Hp in Hplay. cbn [andb] in Hplay.
  destruct Hplay as [(h & -> & Hh) Hm].
  apply bind_Done in H as (df & s5 & _ & H).
  injection H as <- _. cbn [winnings bet foldl].
  destruct (evaluateHand_single betSize (hvalue (calculateHandValue df))
              (21 <? hvalue (calculateHandValue df)) h Hb Hh) as [H1 H2].
  set (hw := Simulator.evaluateHand _ _ _ _ h) in *. clearbody hw.
  destruct (String.eqb_spec forcedAction "D") as [->|_]; [destruct canDouble |];
    cbn in Hm; subst m.
  - change (inject_Z 2) with 2%Q. split_and!; [lra | lra |]. right.
    split_and!; [done | done | ring].
  - change (inject_Z 1) with 1%Q. split_and!; [lra | lra |]. left. ring.
  - change (inject_Z 1) with 1%Q. split_and!; [lra | lra |]. left. ring.
Qed.

Lemma simulateHandWithAction_bound_witness :
  ∃ r s',
    Simulator.simulateHandWithAction 20 [mkCard "10" Spades; mkCard "6" Spades]
                                (mkCard "10" Hearts) "D" basicStrategy 100 true false
                                sixteenGame = Done r s'
    ∧ (- bet r <= winnings r)%Q ∧ (winnings r <= bet r)%Q.
Proof.
  assert (H : ∃ r s',
             Simulator.simulateHandWithAction 20 [mkCard "10" Spades; mkCard "6" Spades]
                                         (mkCard "10" Hearts) "D" basicStrategy 100 true false
                                         sixteenGame = Done r s'
             ∧ result r ≠ "blackjack")
    by (eexists _, _; split; [vm_compute; reflexivity | by vm_compute]).
  destruct H as (r & s' & H & Htag). exists r, s'. split; [exact H |].
  destruct (simulateHandWithAction_bound 20 _ _ "D" basicStrategy 100 true false
              sixteenGame s' r H) as (H1 & H2 & _); [by vm_compute | done | exact Htag |].
  split; [exact H1 | exact H2].
Defined.

Lemma simulateHandWithAction_stable (I : t → Prop) fuel playerCards dealerCard forcedAction
      strategy betSize canDouble canSplit (s s' : t) (r : GameResult) :
  drawStable I →
  Simulator.simulateHandWithAction fuel playerCards dealerCard forcedAction strategy betSize
                              canDouble canSplit s = Done r s' →
  I s → I s'.
Proof.
  unfold Simulator.simulateHandWithAction. intros HI H H0.
  apply bind_Done in H as (c & s1 & Hc & H). apply (proj2 HI _ _ _ Hc) in H0.
  apply bind_Done in H as (s2 & s3 & Hget & H). injection Hget as <- <-.
  destruct (isBlackjack [dealerCard; c]).
  { destruct (isBlackjack playerCards); by injection H as _ <-. }
  destruct (isBlackjack playerCards); [by injection H as _ <- |].
  apply bind_Done in H as ([hs m] & s4 & Hplay & H).
  apply forcedPlay_inv in Hplay as (_ & _ & Hplay & _). apply (Hplay _ HI) in H0.
  apply bind_Done in H as (df & s5 & Hd & H).
  apply playDealer_inv in Hd as [_ Hd]. apply (Hd _ (proj1 HI)) in H0.
  by injection H as _ <-.
Qed.

(** A hand that [simulateHandWithAction] completes leaves the shoe as
    [playGame] does, although the player's cards are dealt without the
    counter. *)
Lemma simulateHandWithAction_keeps_shoe (fuel : nat) (playerCards : list Card)
        (dealerCard : Card) (forcedAction : string) (strategy : Strategy.t) (betSize : Q)
        (canDouble canSplit : bool) (s s' : t) (r : GameResult) :
  Simulator.simulateHandWithAction fuel playerCards dealerCard forcedAction strategy betSize
                              canDouble canSplit s = Done r s' →
  shoeInv s →
  shoeInv s' ∧ Deck.numDecks (deck s') = Deck.numDecks (deck s) ∧ rules s' = rules s.
Proof.
  intros H Hs.
  apply (simulateHandWithAction_stable
           (λ x, shoeInv x ∧ Deck.numDecks (deck x) = Deck.numDecks (deck s)
                 ∧ rules x = rules s)) in H; [done | | done].
  split.
  - intros x c x' Hc (Hx & Hn & Hr). apply game_dealCard_inv in Hc as [Hr' Hc].
    destruct (Hc Hx) as [Hx' Hn']. split_and!; [done | congruence..].
  - intros x c x' Hc (Hx & Hn & Hr). apply dealCardUncounted_inv in Hc as (Hr' & _ & Hc).
    destruct (Hc Hx) as [Hx' Hn']. split_and!; [done | congruence..].
Qed.

(** ** Termination of a game *)

Lemma not_bust_hardSum cards : isBust cards = false → hardSum cards <= 21.
Proof.
  unfold isBust. intros H. apply Z.ltb_ge in H.
  pose proof (value_ge_hardSum cards). lia.
Qed.

Lemma hardSum_nonneg cards : Forall card_wf cards → 0 <= hardSum cards.
Proof.
  induction 1 as [|c l Hc _ IH]; [done |].
  change (hardSum (c :: l)) with (hardValue c + hardSum l).
  pose proof (card_wf_hardValue c Hc). lia.
Qed.

Lemma handCost_bound h : Forall card_wf (Hand.cards h) → (handCost h <= 23)%nat.
Proof. intros H. unfold handCost. pose proof (hardSum_nonneg _ H). lia. Qed.

Lemma handCost_two c1 c2 b r :
  card_wf c1 → card_wf c2 →
  (handCost {| Hand.cards := [c1; c2]; Hand.bet := b; Hand.result := r |} <= 21)%nat.
Proof.
  intros H1 H2. unfold handCost. cbn [Hand.cards].
  change (hardSum [c1; c2]) with (hardValue c1 + (hardValue c2 + 0)).
  pose proof (card_wf_hardValue c1 H1). pose proof (card_wf_hardValue c2 H2). lia.
Qed.

Lemma loopCost_next i hands hand :
  hands !! i = Some hand →
  loopCost i hands = (handCost hand + loopCost (S i) hands)%nat.
Proof.
  intros H. unfold loopCost. rewrite (drop_S _ _ _ H). cbn. lia.
Qed.

Lemma loopCost_insert i hands hand' :
  (i < length hands)%nat →
  loopCost (S i) (<[i := hand']> hands) = loopCost (S i) hands
  ∧ loopCost i (<[i := hand']> hands) = (handCost hand' + loopCost (S i) hands)%nat.
Proof.
  intros H. unfold loopCost. rewrite length_insert.
  assert (E : drop (S i) (<[i := hand']> hands) = drop (S i) hands)
    by (apply drop_insert_lt; lia).
  split; [by rewrite E |].
  rewrite (drop_S (<[i := hand']> hands) hand' i), E;
    [cbn; lia | by apply list_lookup_insert_eq].
Qed.

Lemma playLoop_returns strategy dealerUpCard canDouble (fuel : nat) :
  ∀ (i : nat) (hands : list Hand.t) (tb : Z) (s : t),
    deck_ok (deck s) → noResplit (rules s) →
    Forall (λ h, Forall card_wf (Hand.cards h)) hands →
    (loopCost i hands < fuel)%nat →
    ∃ res s',
      playLoop fuel strategy dealerUpCard canDouble i hands tb s = Done res s'
      ∧ deck_ok (deck s') ∧ rules s' = rules s.
Proof.
  induction fuel as [|fuel IH]; intros i hands tb s Hd Hr Hwf Hc; [lia |].
  cbn [playLoop].
  destruct (hands !! i) as [hand|] eqn:Ei; [| by eexists _, _].
  pose proof (lookup_lt_Some _ _ _ Ei) as Hi.
  pose proof (loopCost_next _ _ _ Ei) as Hnext.
  assert (Hcost1 : (1 <= handCost hand)%nat) by (unfold handCost; lia).
  assert (Hwfh : Forall card_wf (Hand.cards hand))
    by (rewrite Forall_lookup in Hwf; by apply (Hwf i)).
  destruct (isBust (Hand.cards hand) || isBlackjack (Hand.cards hand)) eqn:Eskip.
  { apply IH; [done.. | lia]. }
  apply orb_false_iff in Eskip as [Ebust _].
  apply not_bust_hardSum in Ebust.
  unfold bind at 1, get.
  destruct (game_dealCard_ok s Hd) as (c & s1 & Hc1 & Hcwf & Hd1 & Hrules1 & _).
  assert (Hr1 : noResplit (rules s1)) by (by rewrite Hrules1).
  pose proof (card_wf_hardValue c Hcwf) as Hcv.
  assert (Hsum : hardSum (Hand.cards hand ++ [c]) = hardSum (Hand.cards hand) + hardValue c).
  { rewrite hardSum_app. change (hardSum [c]) with (hardValue c + 0). lia. }
  assert (Hwfc : Forall card_wf (Hand.cards hand ++ [c]))
    by (apply Forall_app; split; [done | by apply Forall_singleton]).
  destruct (nextMove strategy dealerUpCard canDouble i hands (Hand.cards hand) s) eqn:Emove.
  - apply IH; [done.. | lia].
  - unfold bind. rewrite Hc1.
    destruct (isBust (Hand.cards hand ++ [c])).
    + match goal with |- context [<[i := ?h]> hands] => set (hand' := h) end.
      destruct (loopCost_insert i hands hand' Hi) as [E1 _].
      destruct (IH (S i) (<[i := hand']> hands) tb s1) as (res & s' & Hrun & ? & ?);
        [done | done | by apply Forall_insert | lia |].
      exists res, s'. split_and!; [done | done | congruence].
    + match goal with |- context [<[i := ?h]> hands] => set (hand' := h) end.
      destruct (loopCost_insert i hands hand' Hi) as [_ E2].
      assert (Hlt : (handCost hand' < handCost hand)%nat).
      { unfold handCost, hand'. cbn [Hand.cards withCards]. rewrite Hsum. lia. }
      destruct (IH i (<[i := hand']> hands) tb s1) as (res & s' & Hrun & ? & ?);
        [done | done | by apply Forall_insert | lia |].
      exists res, s'. split_and!; [done | done | congruence].
  - unfold bind. rewrite Hc1.
    match goal with |- context [<[i := ?h]> hands] => set (hand' := h) end.
    destruct (loopCost_insert i hands hand' Hi) as [E1 _].
    destruct (IH (S i) (<[i := hand']> hands) (tb + Hand.bet hand * 2 / 2) s1)
      as (res & s' & Hrun & ? & ?); [done | done | by apply Forall_insert | lia |].
    exists res, s'. split_and!; [done | done | congruence].
  - unfold nextMove in Emove. apply resolve_split_may in Emove.
    unfold canSplitThisHand in Emove. apply andb_true_iff in Emove as [Epair Eres].
    destruct Hr as [Ha Hra]. unfold canResplit, hasSplit in Eres. rewrite Ha, Hra in Eres.
    destruct (Nat.ltb_spec 1 (length hands)) as [|Hone]; [by destruct (isAcePair _) |].
    destruct hands as [|h0 [|h1 hands]]; [done | | cbn in Hone; lia].
    destruct i as [|i]; [| done]. injection Ei as ->.
    unfold isPair in Epair. apply andb_true_iff in Epair as [Elen _].
    apply Nat.eqb_eq in Elen.
    unfold popCard. pose proof (pop_spec (Hand.cards hand)) as Hpop.
    destruct (Deck.pop (Hand.cards hand)) as [[card rest]|];
      [| rewrite Hpop in Elen; done].
    rewrite Hpop in Elen, Hwfh. rewrite length_app in Elen. cbn in Elen.
    destruct rest as [|x [|? ?]]; [done | | cbn in Elen; lia].
    apply Forall_app in Hwfh as [Hx Hcard].
    apply Forall_inv in Hx. apply Forall_inv in Hcard.
    unfold bind at 1. rewrite Hc1.
    destruct (game_dealCard_ok s1 Hd1) as (c2 & s2 & Hc2 & Hc2wf & Hd2 & Hrules2 & _).
    unfold bind at 1. rewrite Hc2. cbn [insert list_insert app].
    match goal with |- context [playLoop fuel _ _ _ 0 ?hs ?b s2] =>
      destruct (IH 0%nat hs b s2) as (res & s' & Hrun & ? & ?) end.
    + done.
    + split; congruence.
    + repeat first [apply Forall_nil | apply Forall_cons; split; cbn]; done.
    + unfold loopCost in Hc |- *. cbn [drop fmap list_fmap sum_list length Nat.eqb] in Hc |- *.
      pose proof (handCost_two x c2 (Hand.bet hand) (Hand.result hand) Hx Hc2wf) as B1.
      pose proof (handCost_two card c (Hand.bet hand) None Hcard Hcwf) as B2.
      unfold withCards. cbn [app Hand.bet Hand.result] in *.
      unfold id in *. lia.
    + exists res, s'. split_and!; [done | done | congruence].
Qed.

Lemma game_shuffle_ok (s : t) :
  (0 < Deck.numDecks (deck s))%nat →
  ∃ s', shuffle s = Done tt s' ∧ deck_ok (deck s') ∧ rules s' = rules s.
Proof.
  intros Hn. unfold shuffle.
  destruct (shuffle_spec (deck s) (counter s) (random s)) as (cs & g' & E & _ & Hwf).
  rewrite E. eexists. split; [reflexivity |]. split; [| done].
  split; [done | done].
Qed.

Lemma playGame_run (fuel : nat) (strategy : Strategy.t) (betSize : Q) (s : t) :
  deck_ok (deck s) → noResplit (rules s) → (70 <= fuel)%nat →
  ∃ r s',
    playGame fuel strategy betSize s = Done r s'
    ∧ length (playerCards r) = 2%nat ∧ (2 <= length (dealerCards r))%nat
    ∧ deck_ok (deck s') ∧ noResplit (rules s').
Proof.
  intros Hd Hr Hf. unfold playGame.
  unfold bind at 1, get.
  assert (H0 : ∃ s0, (if Deck.shouldReshuffle (deck s) then shuffle else ret tt) s
                     = Done tt s0 ∧ deck_ok (deck s0) ∧ rules s0 = rules s).
  { destruct (Deck.shouldReshuffle (deck s)).
    - apply game_shuffle_ok. apply Hd.
    - by exists s. }
  destruct H0 as (s0 & E0 & Hd0 & Hr0). unfold bind at 1. rewrite E0.
  destruct (game_dealCard_ok s0 Hd0) as (p1 & s1 & E1 & Hp1 & Hd1 & Hr1 & _).
  unfold bind at 1. rewrite E1.
  destruct (game_dealCard_ok s1 Hd1) as (p2 & s2 & E2 & Hp2 & Hd2 & Hr2 & _).
  unfold bind at 1. rewrite E2.
  destruct (game_dealCard_ok s2 Hd2) as (d1 & s3 & E3 & Hq1 & Hd3 & Hr3 & _).
  unfold bind at 1. rewrite E3.
  destruct (game_dealCard_ok s3 Hd3) as (d2 & s4 & E4 & Hq2 & Hd4 & Hr4 & _).
  unfold bind at 1. rewrite E4.
  unfold bind at 1, get.
  assert (Hrules : rules s4 = rules s) by congruence.
  assert (Hr' : noResplit (rules s4)) by (by rewrite Hrules).
  destruct (isBlackjack [p1; p2]).
  { destruct (isBlackjack [d1; d2]); eexists _, _; (split; [reflexivity |]); cbn;
      split_and!; done || lia. }
  destruct (isBlackjack [d1; d2]).
  { eexists _, _; (split; [reflexivity |]); cbn; split_and!; done || lia. }
  unfold playHand.
  match goal with |- context [playLoop fuel ?st ?up ?cd 0 ?hs ?tb] =>
    destruct (playLoop_returns st up cd fuel 0 hs tb s4) as ([hs' tb'] & s5 & E5 & Hd5 & Hr5)
  end; [done | done | | |].
  { apply Forall_singleton. cbn. by repeat first [apply Forall_nil | apply Forall_cons; split]. }
  { unfold loopCost. cbn [drop fmap list_fmap sum_list length Nat.eqb].
    match goal with |- context [handCost ?h] =>
      pose proof (handCost_bound h) as B end.
    cbn [Hand.cards] in B. unfold id. specialize (B ltac:(by repeat first [apply Forall_nil | apply Forall_cons; split])). lia. }
  unfold bind at 1. rewrite E5.
  destruct (playDealer_run 18 [d1; d2] s5 Hd5) as (drawn & s6 & E6 & Hr6 & Hd6 & _).
  { pose proof (hardSum_nonneg [d1; d2] ltac:(by repeat first [apply Forall_nil | apply Forall_cons; split])). lia. }
  unfold bind at 1. rewrite (E6 fuel) by lia.
  eexists _, _. split; [reflexivity |]. cbn [playerCards dealerCards deck rules].
  split_and!; [done | rewrite length_app; cbn; lia | done |].
  unfold noResplit. rewrite Hr6, Hr5. done.
Qed.

(** X17: under rules that allow no resplitting, on a shoe with at least
    one deck that holds cards of the data model, [playGame] always returns
    a result, for every strategy and every random source, as soon as its
    loops are given 70 turns; it raises no [TypeError].  The result has
    two player cards and at least two dealer cards, and the shoe and the
    rules are again as required. *)
Theorem playGame_returns (fuel : nat) (strategy : Strategy.t) (betSize : Q) (s : t) :
  deck_ok (deck s) → noResplit (rules s) → (70 <= fuel)%nat →
  ∃ r s',
    playGame fuel strategy betSize s = Done r s'
    ∧ length (playerCards r) = 2%nat ∧ (2 <= length (dealerCards r))%nat
    ∧ deck_ok (deck s') ∧ noResplit (rules s').
Proof. apply playGame_run. Qed.

Lemma playGame_returns_witness :
  ∃ r s',
    playGame 70 basicStrategy 100 eightsGame = Done r s'
    ∧ length (playerCards r) = 2%nat ∧ (2 <= length (dealerCards r))%nat.
Proof.
  destruct (playGame_returns 70 basicStrategy 100 eightsGame) as (r & s' & H & H1 & H2 & _).
  - apply (bool_decide_unpack _). vm_compute. reflexivity.
  - split; reflexivity.
  - lia.
  - exists r, s'. split; [exact H |]. split; [exact H1 | exact H2].
Defined.

Lemma simulateOne_returns fuel strategy betSize i r (s : t) :
  deck_ok (deck s) → noResplit (rules s) → (70 <= fuel)%nat →
  ∃ r' s',
    Simulator.simulateOne fuel strategy betSize i r s = Done r' s'
    ∧ deck_ok (deck s') ∧ noResplit (rules s').
Proof.
  intros Hd Hr Hf. unfold Simulator.simulateOne. unfold bind at 1, get.
  destruct (playGame_run fuel strategy betSize s Hd Hr Hf)
    as (g & s' & E & _ & Hlen & Hd' & Hr').
  unfold bind at 1. rewrite E.
  unfold Simulator.trackCellStats.
  destruct (dealerCards g) as [|dealerCard rest]; [cbn in Hlen; lia |].
  cbn [head mbind option_bind]. by eexists _, _.
Qed.

Lemma simulateFrom_returns fuel strategy betSize (n : nat) :
  ∀ i r (s : t),
    deck_ok (deck s) → noResplit (rules s) → (70 <= fuel)%nat →
    ∃ r' s',
      Simulator.simulateFrom fuel strategy betSize n i r s = Done r' s'
      ∧ deck_ok (deck s') ∧ noResplit (rules s').
Proof.
  induction n as [|n IH]; intros i r s Hd Hr Hf; [by eexists _, _ |].
  cbn [Simulator.simulateFrom].
  destruct (simulateOne_returns fuel strategy betSize i r s Hd Hr Hf)
    as (r1 & s1 & E & Hd1 & Hr1).
  unfold bind at 1. rewrite E. by apply IH.
Qed.

(** X30: under rules that allow no resplitting, on a shoe with at least
    one deck that holds cards of the data model, [runSimulations] completes
    for every number of hands, every strategy and every random source, as
    soon as the loops of each game are given 70 turns: no hand raises, and
    [trackCellStats] always finds the dealer's card. *)
Theorem runSimulations_returns (fuel : nat) (strategy : Strategy.t) (numSimulations : nat)
        (betSize : Q) (s : t) :
  deck_ok (deck s) → noResplit (rules s) → (70 <= fuel)%nat →
  ∃ sm s',
    Simulator.runSimulations fuel strategy numSimulations betSize s = Done sm s'
    ∧ Simulator.totalGames (Simulator.final sm) = Z.of_nat numSimulations
    ∧ deck_ok (deck s') ∧ noResplit (rules s').
Proof.
  intros Hd Hr Hf. unfold Simulator.runSimulations. unfold bind at 1, get.
  destruct (simulateFrom_returns fuel strategy betSize numSimulations 0
              (Simulator.emptyResults (bool_decide (is_Some (counter s)))) s Hd Hr Hf)
    as (r & s' & E & Hd' & Hr').
  unfold bind at 1. rewrite E.
  eexists _, _. split; [reflexivity |]. split; [| done].
  cbn [Simulator.final Simulator.totalGames].
  apply simulateFrom_tallied in E as [_ ->]; [cbn; lia | split; cbn; lia].
Qed.

Lemma runSimulations_returns_witness :
  ∃ sm s',
    Simulator.runSimulations 70 basicStrategy 1000 100 eightsGame = Done sm s'
    ∧ Simulator.totalGames (Simulator.final sm) = 1000.
Proof.
  destruct (runSimulations_returns 70 basicStrategy 1000 100 eightsGame)
    as (sm & s' & H & H1 & _).
  - apply (bool_decide_unpack _). vm_compute. reflexivity.
  - split; reflexivity.
  - lia.
  - exists sm, s'. split; [exact H | exact H1].
Defined.
